(** * AutoRia scraper: a shallow embedding of the crawl-and-extract engine

    The development follows [autoria_scraper/scraper.py] and
    [autoria_scraper/database.py].  Python strings are lists of Unicode
    code points, Python integers are [Z], the set [processed_urls] is a
    [gset], the table [cars] is the list of its rows.  What the code reads
    from the outside (HTTP replies, rendered pages, database replies) is an
    explicit argument; what it does to the outside (page loads, sleeps) is
    recorded in a list of effects.  A batch of [asyncio] tasks is a
    transition system whose steps are the segments a task runs between two
    suspension points. *)

From Stdlib Require Import ZArith NArith List Bool Lia Floats.SpecFloat.
From stdpp Require Import gmap list.
Import ListNotations.

Local Open Scope Z_scope.

(** ** Python strings *)

(** A [str] is its sequence of code points. *)
Abbreviation str := (list N).

(** [str.isspace] for one code point: the characters [str.strip()] removes. *)
Definition is_space (c : N) : bool :=
  ((9 <=? c) && (c <=? 13) || (28 <=? c) && (c <=? 32) || (c =? 133) ||
   (c =? 160) || (c =? 5760) || (8192 <=? c) && (c <=? 8202) ||
   (c =? 8232) || (c =? 8233) || (c =? 8239) || (c =? 8287) ||
   (c =? 12288))%N.

Fixpoint lstrip (s : str) : str :=
  match s with
  | c :: s' => if is_space c then lstrip s' else s
  | [] => []
  end.

(** [s.strip()] *)
Definition strip (s : str) : str := rev (lstrip (rev (lstrip s))).

(** Truth value of a string: [not s] holds of the empty string only. *)
Definition is_empty (s : str) : bool :=
  match s with [] => true | _ => false end.

Module Float.

(** Python's [float] is IEEE 754 binary64, here in the specification
    format of the Standard Library with 53 bits of precision. *)
Definition prec : Z := 53.
Definition emax : Z := 1024.

(** [float(n)] for an integer [n], rounded to nearest even. *)
Definition of_int (n : Z) : spec_float := binary_normalize prec emax n 0 false.

(** The float nearest to [m / 10^k], as [float()] gives it for the decimal
    numeral with digits [m] and [k] digits after the point. *)
Definition of_decimal (m : Z) (k : nat) : spec_float :=
  match m with
  | Zpos p =>
      SFdiv prec emax (S754_finite false p 0)
        (S754_finite false (Z.to_pos (10 ^ Z.of_nat k)) 0)
  | _ => S754_zero false
  end.

Definition mul : spec_float -> spec_float -> spec_float := SFmul prec emax.

(** [int(x)]: truncation towards zero; [None] stands for the
    [OverflowError] on an infinity and the [ValueError] on a NaN. *)
Definition to_int (x : spec_float) : option Z :=
  match x with
  | S754_zero _ => Some 0
  | S754_finite s m e =>
      let a := match e with
               | Zneg p => Z.shiftr (Zpos m) (Zpos p)
               | _ => Z.shiftl (Zpos m) e
               end in
      Some (if s then - a else a)
  | S754_infinity _ | S754_nan => None
  end.

End Float.

Section Scraper.

Set Default Proof Using "Type".

(** The decimal digits of Unicode above the ASCII range: the value of a
    code point of category Nd, as [unicodedata.decimal] gives it.  The
    table belongs to the interpreter, not to the repository; below U+0660
    only the ASCII digits are decimal. *)
Variable nd_table : N -> option N.

(** [sys.get_int_max_str_digits()]: the longest digit string [int()]
    converts; [0] switches the limit off (and stands for interpreters
    that have none). *)
Variable int_max_str_digits : N.

(** [urllib.parse.urljoin] on a non-empty reference. *)
Variable urljoin : str -> str -> str.

(** [CONFIG["scraper"]["max_retries"]] and [CONFIG["scraper"]["concurrency"]] *)
Variable max_retries : Z.
Variable concurrency : Z.

Definition decimal_value (c : N) : option N :=
  if ((48 <=? c) && (c <=? 57))%N then Some (c - 48)%N
  else if (c <? 1632)%N then None
  else nd_table c.

(** The class [\d] of the [re] module on [str] patterns. *)
Definition is_decimal (c : N) : bool :=
  match decimal_value c with Some _ => true | None => false end.

(** [re.sub(r'[^\d]', '', s)] *)
Definition digits_of (s : str) : str := List.filter is_decimal s.

(** The number a string of decimal digits denotes. *)
Definition digits_value (s : str) : Z :=
  fold_left (fun acc c => 10 * acc + Z.of_N (default 0%N (decimal_value c))) s 0.

(** [int(digits)] on a non-empty string of decimal digits; [None] is the
    [ValueError] of a string longer than the conversion limit. *)
Definition py_int (digits : str) : option Z :=
  if negb (int_max_str_digits =? 0)%N &&
     (int_max_str_digits <? N.of_nat (length digits))%N
  then None
  else Some (digits_value digits).

(** ** Field parsers *)

Definition _extract_price (price_text : str) : option Z :=
  if is_empty price_text then Some 0
  else
    let digits := digits_of price_text in
    if is_empty digits then Some 0 else py_int digits.

Definition _extract_phone_number (phone_text : str) : option Z :=
  if is_empty phone_text then Some 0
  else
    let digits := digits_of phone_text in
    if is_empty digits then Some 0 else py_int digits.

(** The longest prefix of decimal digits, and what follows it. *)
Fixpoint span_digits (s : str) : str * str :=
  match s with
  | c :: s' =>
      if is_decimal c then let '(d, r) := span_digits s' in (c :: d, r)
      else ([], s)
  | [] => ([], [])
  end.

(** [re.search] for the pattern [\d+ [.,]? \d*] (written here with
    spaces between its three parts): the match starts at the first
    decimal digit; every part of the pattern is greedy and none can make
    a later part fail, so the match is the run of digits there, one
    separator when it follows, and the run of digits after it.  The
    result is the integer part, and the fraction digits when there is a
    separator ([Some []] for a trailing separator). *)
Fixpoint search_number (s : str) : option (str * option str) :=
  match s with
  | [] => None
  | c :: s' =>
      if is_decimal c then
        let '(whole, rest) := span_digits s in
        match rest with
        | sep :: rest' =>
            if ((sep =? 46) || (sep =? 44))%N
            then Some (whole, Some (fst (span_digits rest')))
            else Some (whole, None)
        | [] => Some (whole, None)
        end
      else search_number s'
  end.

(** [float(number_match.group(1).replace(',', '.'))] *)
Definition float_of_match (m : str * option str) : spec_float :=
  let '(whole, frac) := m in
  let fd := default [] frac in
  Float.of_decimal (digits_value (whole ++ fd)) (length fd).

Definition _extract_odometer (odometer_text : str) : Z :=
  if is_empty odometer_text then 0
  else
    match search_number odometer_text with
    | None => 0
    | Some m =>
        let thousand_km := float_of_match m in
        match Float.to_int (Float.mul thousand_km (Float.of_int 1000)) with
        | Some km => km
        | None => 0
        end
    end.

(** ** The detail page *)

(** The dictionary [_extract_car_data] returns.  [image_url] is what
    [get_attribute] gave: [None] when the element has no [srcset]. *)
Record car_data := {
  url : str;
  title : str;
  price_usd : Z;
  odometer : Z;
  username : str;
  phone_number : Z;
  image_url : option str;
  images_count : Z;
  car_number : str;
  car_vin : str }.

(** What the driver finds on a rendered detail page.  A field is [None]
    when the lookup of its element raises (no such element, or the driver
    fails), else the element's [text]. *)
Record detail_page := {
  title_text : option str;
  price_text : option str;
  odometer_text : option str;
  username_text : option str;
  (** the reveal link is found and the click on it goes through *)
  phone_revealed : bool;
  (** [text] of the elements of class [phone] after the click; the wait
      for one of them times out when there is none *)
  phone_texts : list str;
  (** the [srcset] of the gallery's first [source] element *)
  image_srcset : option (option str);
  (** how many thumbnails [find_elements] returns *)
  preview_items : option nat;
  state_num_text : option str;
  vin_text : option str }.

(** One [selenium_driver.get] followed by the wait for [auto-content]. *)
Inductive page_load :=
| LoadFailed
| Loaded (p : detail_page).

(** A field read inside its own [try]: the handler's value on failure. *)
Definition try_or {A} (handler : A) (attempt : option A) : A :=
  default handler attempt.

Definition phone_of (p : detail_page) : option Z :=
  if phone_revealed p then
    match phone_texts p with
    | [] => None
    | elems =>
        let phone_numbers :=
          List.filter (fun t => negb (is_empty t))
            (map strip (List.filter (fun t => negb (is_empty t)) elems)) in
        _extract_phone_number (hd [] phone_numbers)
    end
  else None.

(** The body of the [try] of one attempt, after the page has loaded:
    [None] when an exception reaches the handler of the attempt. *)
Definition read_fields (car_url : str) (p : detail_page) : option car_data :=
  title ← strip <$> title_text p;
  price_usd ← (strip <$> price_text p) ≫= _extract_price;
  let odometer := try_or 0 (_extract_odometer <$> (strip <$> odometer_text p)) in
  let username := try_or [] (strip <$> username_text p) in
  let phone_number := try_or 0 (phone_of p) in
  let image_url := try_or (Some []) (image_srcset p) in
  let images_count := try_or 0 (Z.of_nat <$> preview_items p) in
  let car_number := try_or [] (strip <$> state_num_text p) in
  let car_vin := try_or [] (strip <$> vin_text p) in
  Some {| url := car_url; title := title; price_usd := price_usd;
          odometer := odometer; username := username;
          phone_number := phone_number; image_url := image_url;
          images_count := images_count; car_number := car_number;
          car_vin := car_vin |}.

Definition attempt_page (car_url : str) (ld : page_load) : option car_data :=
  match ld with
  | LoadFailed => None
  | Loaded p => read_fields car_url p
  end.

(** What the code does to the outside world, in the order it does it. *)
Inductive effect :=
| ListingGet (page_url : str)     (* session.get(page_url) *)
| DetailGet (car_url : str)       (* selenium_driver.get(car_url) *)
| Sleep (multiplier : Z)          (* asyncio.sleep(request_delay * multiplier) *)
| Extracting (car_url : str)      (* _extract_car_data is entered *)
| ProcessingPage (page_num : Z) (page_url : str).  (* an iteration of the page loop begins *)

(** The iterations [attempt], [attempt + 1], ... of the loop of
    [_extract_car_data], [n] of them left in the range.  [loads] gives what
    each attempt's page load meets. *)
Fixpoint extract_from (n : nat) (attempt : Z) (car_url : str)
    (loads : Z -> page_load) : option car_data * list effect :=
  match n with
  | O => (None, [])
  | S n' =>
      match attempt_page car_url (loads attempt) with
      | Some cd => (Some cd, [DetailGet car_url])
      | None =>
          if attempt <? max_retries - 1 then
            let '(r, t) := extract_from n' (attempt + 1) car_url loads in
            (r, DetailGet car_url :: Sleep (attempt + 1) :: t)
          else (None, [DetailGet car_url])
      end
  end.

Definition _extract_car_data (car_url : str) (loads : Z -> page_load)
    : option car_data * list effect :=
  let '(r, t) := extract_from (Z.to_nat max_retries) 0 car_url loads in
  (r, Extracting car_url :: t).

(** ** The listing page *)

(** What the parser finds in the body of a listing page: the [href] of
    every ticket link, and the [href] of the link to the next page. *)
Record listing_page := {
  car_hrefs : list (option str);
  next_link : option (option str) }.

(** One [session.get]: it raises, or answers with a status; the body is
    [None] when reading or parsing it raises. *)
Inductive fetch_reply :=
| FetchRaised
| FetchStatus (status : Z) (body : option listing_page).

(** [urljoin(base, url)]; an absent or empty [url] gives [base], an empty
    [base] gives [url]. *)
Definition py_urljoin (base : str) (ref : option str) : str :=
  match ref with
  | None | Some [] => base
  | Some u => if is_empty base then u else urljoin base u
  end.

Definition parse_listing (page_url : str) (b : listing_page)
    : list str * option str :=
  (map (py_urljoin page_url) (car_hrefs b),
   match next_link b with
   | Some (Some (c :: h)) => Some (py_urljoin page_url (Some (c :: h)))
   | _ => None
   end).

(** One attempt of the listing fetch: the pair to return, or [None] when
    the attempt failed and the loop goes on. *)
Definition attempt_listing (page_url : str) (r : fetch_reply)
    : option (list str * option str) :=
  match r with
  | FetchRaised => None
  | FetchStatus status body =>
      if negb (status =? 200) then None
      else parse_listing page_url <$> body
  end.

Fixpoint listing_from (n : nat) (attempt : Z) (page_url : str)
    (replies : Z -> fetch_reply) : (list str * option str) * list effect :=
  match n with
  | O => (([], None), [])
  | S n' =>
      match attempt_listing page_url (replies attempt) with
      | Some res => (res, [ListingGet page_url])
      | None =>
          let '(res, t) := listing_from n' (attempt + 1) page_url replies in
          (res, ListingGet page_url :: Sleep (attempt + 1) :: t)
      end
  end.

Definition _extract_car_urls_and_next_page (page_url : str)
    (replies : Z -> fetch_reply) : (list str * option str) * list effect :=
  listing_from (Z.to_nat max_retries) 0 page_url replies.

(** ** The table [cars] *)

Record car_row := { row_data : car_data; datetime_found : Z }.

(** The [Database] object: whether [pool] is set, and the rows of [cars]
    in the order of their insertion. *)
Record database := { pool : bool; cars : list car_row }.

(** What one call of [save_car] meets: whether [connect] succeeds when it
    is needed, whether the statement runs without a database error, and
    the clock. *)
Record db_call := { connect_ok : bool; execute_ok : bool; now : Z }.

(** How a coroutine ends. *)
Inductive outcome (A : Type) :=
| Returned (a : A)
| Raised.
Global Arguments Returned {A} a.
Global Arguments Raised {A}.

(** The column types of [init_db]: [INTEGER] and [BIGINT]. *)
Definition fits_integer (z : Z) : bool := (- 2 ^ 31 <=? z) && (z <? 2 ^ 31).
Definition fits_bigint (z : Z) : bool := (- 2 ^ 63 <=? z) && (z <? 2 ^ 63).

Definition columns_fit (cd : car_data) : bool :=
  fits_integer (price_usd cd) && fits_integer (odometer cd) &&
  fits_bigint (phone_number cd) && fits_integer (images_count cd).

Definition has_url (u : str) (rows : list car_row) : bool :=
  bool_decide (u ∈ (url ∘ row_data) <$> rows).

(** [INSERT ... ON CONFLICT (url) DO NOTHING RETURNING id] and the test
    [result is not None]. *)
Definition insert_or_ignore (rows : list car_row) (cd : car_data) (now : Z)
    : list car_row * bool :=
  if has_url (url cd) rows then (rows, false)
  else (rows ++ [{| row_data := cd; datetime_found := now |}], true).

Definition save_car (d : database) (cd : car_data) (c : db_call)
    : database * outcome bool :=
  if negb (pool d) && negb (connect_ok c) then (d, Raised)
  else
    if execute_ok c && columns_fit cd then
      let '(rows, inserted) := insert_or_ignore (cars d) cd (now c) in
      ({| pool := true; cars := rows |}, Returned inserted)
    else ({| pool := true; cars := cars d |}, Returned false).

(** ** A batch of tasks *)

(** Where a task of [_process_car_page_with_semaphore] is suspended. *)
Inductive task_status :=
| Pending                      (* created, the semaphore not yet acquired *)
| Backoff (attempt : Z)        (* asleep after the failed attempt [attempt] *)
| Saving (cd : car_data)       (* awaiting [db.save_car(cd)] *)
| Finished (r : outcome bool).

Record scraper := {
  processed_urls : gset str;
  sem_value : Z;                        (* free permits of the page's semaphore *)
  tasks : list (str * task_status);
  db : database;
  trace : list effect }.

Definition log (s : scraper) (t : list effect) : scraper :=
  {| processed_urls := processed_urls s; sem_value := sem_value s;
     tasks := tasks s; db := db s; trace := trace s ++ t |}.

Definition set_task (s : scraper) (i : nat) (u : str) (st : task_status)
    : scraper :=
  {| processed_urls := processed_urls s; sem_value := sem_value s;
     tasks := <[i := (u, st)]> (tasks s); db := db s; trace := trace s |}.

Definition acquire (s : scraper) : scraper :=
  {| processed_urls := processed_urls s; sem_value := sem_value s - 1;
     tasks := tasks s; db := db s; trace := trace s |}.

Definition release (s : scraper) : scraper :=
  {| processed_urls := processed_urls s; sem_value := sem_value s + 1;
     tasks := tasks s; db := db s; trace := trace s |}.

Definition mark (s : scraper) (u : str) : scraper :=
  {| processed_urls := {[u]} ∪ processed_urls s; sem_value := sem_value s;
     tasks := tasks s; db := db s; trace := trace s |}.

Definition set_db (s : scraper) (d : database) : scraper :=
  {| processed_urls := processed_urls s; sem_value := sem_value s;
     tasks := tasks s; db := d; trace := trace s |}.

(** The task leaves the [async with] block with result [r]. *)
Definition finish (s : scraper) (i : nat) (u : str) (r : outcome bool)
    : scraper :=
  release (set_task s i u (Finished r)).

(** Iteration [attempt] of the loop of [_extract_car_data] inside task
    [i], and what the task does after it up to its next suspension. *)
Definition run_attempt (s : scraper) (i : nat) (u : str) (attempt : Z)
    (ld : page_load) : scraper :=
  match attempt_page u ld with
  | Some cd => set_task (mark (log s [DetailGet u]) u) i u (Saving cd)
  | None =>
      if attempt <? max_retries - 1
      then set_task (log s [DetailGet u; Sleep (attempt + 1)]) i u (Backoff attempt)
      else finish (log s [DetailGet u]) i u (Returned false)
  end.

(** What resumes a task, with what the resumed segment meets. *)
Inductive event :=
| Start (i : nat) (ld : page_load)    (* the semaphore lets the task in *)
| Wake (i : nat) (ld : page_load)     (* the backoff sleep is over *)
| Saved (i : nat) (c : db_call).      (* [db.save_car] completes *)

Definition task_of (e : event) : nat :=
  match e with Start i _ | Wake i _ | Saved i _ => i end.

(** One segment of one task; [None] when the event is not enabled. *)
Definition step (s : scraper) (e : event) : option scraper :=
  match e with
  | Start i ld =>
      match tasks s !! i with
      | Some (u, Pending) =>
          if 0 <? sem_value s then
            let s1 := acquire s in
            if bool_decide (u ∈ processed_urls s1)
            then Some (finish s1 i u (Returned false))
            else
              let s2 := log s1 [Extracting u] in
              if 0 <? max_retries then Some (run_attempt s2 i u 0 ld)
              else Some (finish s2 i u (Returned false))
          else None
      | _ => None
      end
  | Wake i ld =>
      match tasks s !! i with
      | Some (u, Backoff a) => Some (run_attempt s i u (a + 1) ld)
      | _ => None
      end
  | Saved i c =>
      match tasks s !! i with
      | Some (u, Saving cd) =>
          let '(d, r) := save_car (db s) cd c in
          Some (finish (set_db s d) i u r)
      | _ => None
      end
  end.

Fixpoint run (s : scraper) (evs : list event) : option scraper :=
  match evs with
  | [] => Some s
  | e :: evs' =>
      match step s e with
      | Some s' => run s' evs'
      | None => None
      end
  end.

(** The state of a batch after the segments of [evs] that ran: [evs] is
    followed to its end, or to its first event that is not enabled. *)
Fixpoint run_prefix (s : scraper) (evs : list event) : scraper :=
  match evs with
  | [] => s
  | e :: evs' =>
      match step s e with
      | Some s' => run_prefix s' evs'
      | None => s
      end
  end.

Definition is_finished (st : task_status) : bool :=
  match st with Finished _ => true | _ => false end.

Definition all_finished (s : scraper) : bool :=
  forallb (fun t => is_finished t.2) (tasks s).

(** The list [asyncio.gather] returns with [return_exceptions=True]. *)
Definition results (s : scraper) : list (outcome bool) :=
  omap (fun t => match t.2 with Finished r => Some r | _ => None end) (tasks s).

(** [isinstance(r, bool) and r] and [isinstance(r, Exception)] *)
Definition is_success (r : outcome bool) : bool :=
  match r with Returned true => true | _ => false end.
Definition is_error (r : outcome bool) : bool :=
  match r with Raised => true | _ => false end.

Definition success_count (rs : list (outcome bool)) : nat :=
  length (List.filter is_success rs).

Definition error_count (rs : list (outcome bool)) : nat :=
  length (List.filter is_error rs).

(** [await asyncio.gather(...)] under the schedule [evs]: the state after
    the segments that ran, when every task is done by then; [None] when a
    task is left unfinished. *)
Definition gather (s : scraper) (evs : list event) : option scraper :=
  let s' := run_prefix s evs in
  if all_finished s' then Some s' else None.

(** The tasks of a page: one per URL not yet in [processed_urls], behind
    a new semaphore. *)
Definition spawn (s : scraper) (car_urls : list str) : scraper :=
  {| processed_urls := processed_urls s; sem_value := concurrency;
     tasks := (fun u => (u, Pending)) <$>
              filter (fun u => u ∉ processed_urls s) car_urls;
     db := db s; trace := trace s |}.

(** The batch of one page: nothing is awaited when no task was made. *)
Definition process_batch (s : scraper) (car_urls : list str)
    (evs : list event) : option scraper :=
  let s2 := spawn s car_urls in
  if bool_decide (tasks s2 = []) then Some s2 else gather s2 evs.

(** ** The page loop *)

(** What a run meets: the replies to the fetches of each listing page
    and, for the batch of each page, the resumptions of its tasks in
    order.  The batch follows them to the end of the list or to the first
    one that cannot happen; a list that ends while a task can still be
    resumed shows the batch at that moment. *)
Record world := {
  listing_replies : Z -> Z -> fetch_reply;
  schedules : Z -> list event }.

Inductive crawl_result :=
| Done (s : scraper)        (* the loop is left *)
| Failed (s : scraper)      (* an exception leaves [process_listing_pages] *)
| Stuck (s : scraper)       (* [gather] has not returned under the schedule *)
| OutOfFuel (s : scraper).

Fixpoint process_listing_pages (fuel : nat) (w : world) (page_num : Z)
    (current_page_url : str) (s : scraper) : crawl_result :=
  match fuel with
  | O => OutOfFuel s
  | S fuel' =>
      if is_empty current_page_url then Done s
      else
        let '((car_urls, next_page_url), t) :=
          _extract_car_urls_and_next_page current_page_url
            (listing_replies w page_num) in
        let s1 := log s (ProcessingPage page_num current_page_url :: t) in
        if bool_decide (car_urls = []) then Done s1
        else if concurrency <? 0 then Failed s1
        else
          match process_batch s1 car_urls (schedules w page_num) with
          | None =>
              Stuck (run_prefix (spawn s1 car_urls) (schedules w page_num))
          | Some s3 =>
              match next_page_url with
              | Some (c :: n) =>
                  process_listing_pages fuel' w (page_num + 1) (c :: n)
                    (log s3 [Sleep 1])
              | _ => Done s3
              end
          end
  end.

(** ** The rest of the database object *)

(** [connect]: nothing to do when the pool is set; else the pool is made,
    or the failure is raised again. *)
Definition connect (d : database) (ok : bool) : database * outcome unit :=
  if pool d then (d, Returned tt)
  else if ok then ({| pool := true; cars := cars d |}, Returned tt)
  else (d, Raised).

(** What one call of [save_cars_batch] meets: whether [connect] succeeds
    when it is needed, whether the connection is acquired and the
    transaction opened and committed, and for the statement of each record
    of the batch (counted from 0) whether it runs without a database error,
    and the clock at that moment. *)
Record batch_call := {
  batch_connect_ok : bool;
  transaction_ok : bool;
  statement_ok : nat -> bool;
  statement_now : nat -> Z }.

(** The loop inside the transaction, from the record of index [i] on:
    the rows and the count when every statement ran, [None] when one of
    them raised. *)
Fixpoint insert_all (rows : list car_row) (cars_data : list car_data) (i : nat)
    (c : batch_call) (saved_count : Z) : option (list car_row * Z) :=
  match cars_data with
  | [] => Some (rows, saved_count)
  | cd :: rest =>
      if statement_ok c i && columns_fit cd then
        let '(rows', inserted) := insert_or_ignore rows cd (statement_now c i) in
        insert_all rows' rest (S i) c
          (if inserted then saved_count + 1 else saved_count)
      else None
  end.

(** [save_cars_batch]: an exception inside the transaction rolls it back
    and is answered with 0. *)
Definition save_cars_batch (d : database) (cars_data : list car_data)
    (c : batch_call) : database * outcome Z :=
  match cars_data with
  | [] => (d, Returned 0)
  | _ =>
      if negb (pool d) && negb (batch_connect_ok c) then (d, Raised)
      else
        match (if transaction_ok c then insert_all (cars d) cars_data 0 c 0
               else None) with
        | Some (rows, saved_count) =>
            ({| pool := true; cars := rows |}, Returned saved_count)
        | None => ({| pool := true; cars := cars d |}, Returned 0)
        end
  end.

(** ** The scraper object and [run_scraper] *)

(** [CONFIG["scraper"]["start_url"]] *)
Variable start_url : str.

(** The handles of the scraper object: [session] is [None], or a session
    that is open ([Some true]) or closed ([Some false]); [selenium_driver]
    is [None] ([false]) or a driver. *)
Record handles := {
  session : option bool;
  selenium_driver : bool }.

(** What the object does to its handles, in order. *)
Inductive resource_event :=
| SessionOpened
| SessionClosed
| DriverStarted
| DriverQuit.

(** The module's singletons: the scraper with its database, its handles,
    and what was done to the handles so far. *)
Record app := {
  app_scraper : scraper;
  app_handles : handles;
  app_events : list resource_event }.

(** What [initialize] meets: whether the browser starts, and whether the
    pool can be made when it is not set. *)
Record startup := { driver_ok : bool; pool_ok : bool }.

(** How a call on the object ends: it returns, it raises, or it is still
    waiting (a batch that does not finish, or the fuel of the page loop
    used up). *)
Inductive app_result :=
| AppReturned (a : app)
| AppRaised (a : app)
| AppWaiting (a : app).

Definition app_of (r : app_result) : app :=
  match r with AppReturned a | AppRaised a | AppWaiting a => a end.

Definition with_scraper (a : app) (s : scraper) : app :=
  {| app_scraper := s; app_handles := app_handles a; app_events := app_events a |}.

Definition initialize (a : app) (st : startup) : app_result :=
  let a1 :=
    {| app_scraper := app_scraper a;
       app_handles := {| session := Some true;
                         selenium_driver := selenium_driver (app_handles a) |};
       app_events := app_events a ++ [SessionOpened] |} in
  if driver_ok st then
    let a2 :=
      {| app_scraper := app_scraper a1;
         app_handles := {| session := Some true; selenium_driver := true |};
         app_events := app_events a1 ++ [DriverStarted] |} in
    match connect (db (app_scraper a2)) (pool_ok st) with
    | (d, Returned _) => AppReturned (with_scraper a2 (set_db (app_scraper a2) d))
    | (_, Raised) => AppRaised a2
    end
  else AppRaised a1.

Definition cleanup (a : app) : app :=
  let h := app_handles a in
  let closes := match session h with Some true => true | _ => false end in
  {| app_scraper := app_scraper a;
     app_handles :=
       {| session := if closes then Some false else session h;
          selenium_driver := selenium_driver h |};
     app_events :=
       app_events a ++ (if closes then [SessionClosed] else []) ++
       (if selenium_driver h then [DriverQuit] else []) |}.

(** [scrape]: the page loop from page 1 of the start URL; an exception of
    the loop is logged, and [cleanup] runs in either case. *)
Definition scrape (fuel : nat) (w : world) (a : app) : app_result :=
  match process_listing_pages fuel w 1 start_url (app_scraper a) with
  | Done s | Failed s => AppReturned (cleanup (with_scraper a s))
  | Stuck s | OutOfFuel s => AppWaiting (with_scraper a s)
  end.

(** [run_scraper]: [async with scraper: await scraper.scrape()].  When
    [initialize] raises the block is not entered and nothing is cleaned
    up; else [cleanup] runs once more when the block is left. *)
Definition run_scraper (fuel : nat) (w : world) (st : startup) (a : app)
    : app_result :=
  match initialize a st with
  | AppReturned a1 =>
      match scrape fuel w a1 with
      | AppReturned a2 => AppReturned (cleanup a2)
      | r => r
      end
  | r => r
  end.

(** ** Vocabulary of the properties *)

(** A float that is not a negative finite number. *)
Definition signless (f : spec_float) : Prop :=
  match f with S754_finite true _ _ => False | _ => True end.

(** The odometer rule in words: the float nearest to the decimal numeral
    with digits [m], [k] of them after the separator, times the float
    1000, truncated; 0 when the product has no integer value. *)
Definition km_of_decimal (m : Z) (k : nat) : Z :=
  default 0 (Float.to_int (Float.mul (Float.of_decimal m k) (Float.of_int 1000))).

Definition all_decimal (s : str) : Prop := Forall (fun c => is_decimal c = true) s.
Definition no_decimal (s : str) : Prop := Forall (fun c => is_decimal c = false) s.

(** The text does not go on with a decimal digit. *)
Definition digits_end (s : str) : Prop :=
  match s with [] => True | c :: _ => is_decimal c = false end.

Definition is_separator (c : N) : bool := ((c =? 46) || (c =? 44))%N.

(** The fetches and sleeps of [n] failed attempts on a listing page, the
    first of them attempt [first]: after the failed attempt [a] the code
    sleeps [request_delay * (a + 1)]. *)
Fixpoint failed_attempts (n : nat) (first : Z) (page_url : str) : list effect :=
  match n with
  | O => []
  | S n' =>
      ListingGet page_url :: Sleep (first + 1) ::
      failed_attempts n' (first + 1) page_url
  end.

Definition is_listing_get (e : effect) : bool :=
  match e with ListingGet _ => true | _ => false end.

(** How many fetches of listing pages a trace holds. *)
Definition listing_gets (t : list effect) : nat :=
  length (List.filter is_listing_get t).

(** The sentence of the specification on accepted replies, as it is
    written: a reply with a status from 200 to 299 ends the retries. *)
Definition accepts_every_2xx : Prop :=
  forall page_url replies status body,
    0 < max_retries -> 200 <= status < 300 ->
    replies 0 = FetchStatus status (Some body) ->
    _extract_car_urls_and_next_page page_url replies =
      (parse_listing page_url body, [ListingGet page_url]).

(** How many rows of the table carry the URL. *)
Definition rows_with (u : str) (rows : list car_row) : nat :=
  length (filter (fun r => url (row_data r) = u) rows).

(** The sentence of the specification on [upsert], as it is written: on
    every record and every table with no row of its URL the first call
    inserts, the second does not. *)
Definition upsert_inserts_every_record : Prop :=
  forall d cd c1 c2,
    has_url (url cd) (cars d) = false ->
    let '(d1, r1) := save_car d cd c1 in
    let '(d2, r2) := save_car d1 cd c2 in
    r1 = Returned true /\ r2 = Returned false /\ cars d2 = cars d1 /\
    rows_with (url cd) (cars d2) = 1%nat.

(** ** Sample data *)

(** The detail pages "a/1" and "a/2", the listing pages "a/?0" and "a/?1". *)
Definition sample_car1 : str := [97; 47; 49]%N.
Definition sample_car2 : str := [97; 47; 50]%N.
Definition sample_listing1 : str := [97; 47; 63; 48]%N.
Definition sample_listing2 : str := [97; 47; 63; 49]%N.

(** A page with every element: title "Audi", price "250 000 $",
    odometer "95 тис. км", phone "+38 (067) 123-45-67". *)
Definition sample_full_page : detail_page :=
  {| title_text := Some [65; 117; 100; 105]%N;
     price_text := Some [50; 53; 48; 32; 48; 48; 48; 32; 36]%N;
     odometer_text := Some [57; 53; 32; 1090; 1080; 1089; 46; 32; 1082; 1084]%N;
     username_text := Some [73; 118; 97; 110]%N;
     phone_revealed := true;
     phone_texts := [[43; 51; 56; 32; 40; 48; 54; 55; 41; 32; 49; 50; 51;
                      45; 52; 53; 45; 54; 55]%N];
     image_srcset := Some (Some [105; 46; 106; 112; 103]%N);
     preview_items := Some 3%nat;
     state_num_text := None;
     vin_text := None |}.

(** The same page without its title element. *)
Definition sample_untitled_page : detail_page :=
  {| title_text := None;
     price_text := price_text sample_full_page;
     odometer_text := odometer_text sample_full_page;
     username_text := username_text sample_full_page;
     phone_revealed := true;
     phone_texts := phone_texts sample_full_page;
     image_srcset := image_srcset sample_full_page;
     preview_items := preview_items sample_full_page;
     state_num_text := None;
     vin_text := None |}.

(** A page with a title and a price and nothing else. *)
Definition sample_bare_page : detail_page :=
  {| title_text := Some [65; 117; 100; 105]%N;
     price_text := Some [36]%N;
     odometer_text := None;
     username_text := None;
     phone_revealed := false;
     phone_texts := [];
     image_srcset := None;
     preview_items := None;
     state_num_text := None;
     vin_text := None |}.

Definition sample_record1 : car_data :=
  {| url := sample_car1; title := [65; 117; 100; 105]%N; price_usd := 250000;
     odometer := 95000; username := [73; 118; 97; 110]%N;
     phone_number := 380671234567;
     image_url := Some [105; 46; 106; 112; 103]%N; images_count := 3;
     car_number := []; car_vin := [] |}.

(** [sample_record1] with a price of 2^31 dollars. *)
Definition sample_dear_record : car_data :=
  {| url := sample_car1; title := title sample_record1; price_usd := 2147483648;
     odometer := 95000; username := username sample_record1;
     phone_number := 380671234567;
     image_url := image_url sample_record1; images_count := 3;
     car_number := []; car_vin := [] |}.

Definition sample_two_cars : listing_page :=
  {| car_hrefs := [Some sample_car1; Some sample_car2]; next_link := None |}.

Definition sample_twice_car1 : listing_page :=
  {| car_hrefs := [Some sample_car1; Some sample_car1]; next_link := None |}.

Definition sample_db_up : db_call :=
  {| connect_ok := true; execute_ok := true; now := 0 |}.
Definition sample_db_down : db_call :=
  {| connect_ok := false; execute_ok := false; now := 0 |}.

Definition sample_empty_db : database := {| pool := true; cars := [] |}.
Definition sample_closed_db : database := {| pool := false; cars := [] |}.

Definition sample_idle : scraper :=
  {| processed_urls := ∅; sem_value := 0; tasks := [];
     db := sample_empty_db; trace := [] |}.

(** ** Vocabulary of the batch *)

(** The task is inside the [async with] block: it holds a permit. *)
Definition holds (st : task_status) : Z :=
  match st with Backoff _ | Saving _ => 1 | _ => 0 end.

(** The task is inside [_extract_car_data]. *)
Definition extracts (st : task_status) : Z :=
  match st with Backoff _ => 1 | _ => 0 end.

(** A bound on the segments the task still has to run. *)
Definition weight (st : task_status) : Z :=
  match st with
  | Pending => 3 + Z.max 0 max_retries
  | Backoff a => 2 + Z.max 0 (max_retries - 1 - a)
  | Saving _ => 1
  | Finished _ => 0
  end.

Fixpoint total (f : task_status -> Z) (ts : list (str * task_status)) : Z :=
  match ts with
  | [] => 0
  | t :: ts' => f t.2 + total f ts'
  end.

(** How many tasks hold a permit, and how many of them are extracting. *)
Definition in_flight (s : scraper) : Z := total holds (tasks s).
Definition extracting (s : scraper) : Z := total extracts (tasks s).

(** How often the trace enters the extraction of [u], and how often it
    loads the page of [u]. *)
Definition claims (u : str) (t : list effect) : nat :=
  length (List.filter
            (fun e => match e with Extracting v => bool_decide (v = u) | _ => false end) t).

Definition page_loads (u : str) (t : list effect) : nat :=
  length (List.filter
            (fun e => match e with DetailGet v => bool_decide (v = u) | _ => false end) t).

(** The sentence of the specification on the deduplication check, as it
    is written: in a run that starts with nothing processed, the check
    lets no URL through twice. *)
Definition claims_each_url_once : Prop :=
  forall car_urls evs s u,
    run (spawn sample_idle car_urls) evs = Some s ->
    (claims u (trace s) <= 1)%nat.

(** The step function as a relation.  [moves s e u st st' P d t]: in
    state [s] the event [e] takes its task, of URL [u], from [st] to
    [st'], leaves [P] as the processed set and [d] as the database, and
    appends [t] to the trace.  One rule per branch of the code. *)
Inductive moves (s : scraper) :
    event -> str -> task_status -> task_status ->
    gset str -> database -> list effect -> Prop :=
| mv_skip i ld u :
    u ∈ processed_urls s ->
    moves s (Start i ld) u Pending (Finished (Returned false))
      (processed_urls s) (db s) []
| mv_no_attempt i ld u :
    u ∉ processed_urls s -> max_retries <= 0 ->
    moves s (Start i ld) u Pending (Finished (Returned false))
      (processed_urls s) (db s) [Extracting u]
| mv_first_record i ld u cd :
    u ∉ processed_urls s -> 0 < max_retries ->
    attempt_page u ld = Some cd ->
    moves s (Start i ld) u Pending (Saving cd)
      ({[u]} ∪ processed_urls s) (db s) [Extracting u; DetailGet u]
| mv_first_backoff i ld u :
    u ∉ processed_urls s -> 0 < max_retries ->
    attempt_page u ld = None -> 0 < max_retries - 1 ->
    moves s (Start i ld) u Pending (Backoff 0)
      (processed_urls s) (db s) [Extracting u; DetailGet u; Sleep 1]
| mv_first_fail i ld u :
    u ∉ processed_urls s -> 0 < max_retries ->
    attempt_page u ld = None -> max_retries - 1 <= 0 ->
    moves s (Start i ld) u Pending (Finished (Returned false))
      (processed_urls s) (db s) [Extracting u; DetailGet u]
| mv_retry_record i ld u a cd :
    attempt_page u ld = Some cd ->
    moves s (Wake i ld) u (Backoff a) (Saving cd)
      ({[u]} ∪ processed_urls s) (db s) [DetailGet u]
| mv_retry_backoff i ld u a :
    attempt_page u ld = None -> a + 1 < max_retries - 1 ->
    moves s (Wake i ld) u (Backoff a) (Backoff (a + 1))
      (processed_urls s) (db s) [DetailGet u; Sleep (a + 1 + 1)]
| mv_retry_fail i ld u a :
    attempt_page u ld = None -> max_retries - 1 <= a + 1 ->
    moves s (Wake i ld) u (Backoff a) (Finished (Returned false))
      (processed_urls s) (db s) [DetailGet u]
| mv_saved i c u cd :
    moves s (Saved i c) u (Saving cd) (Finished (save_car (db s) cd c).2)
      (processed_urls s) (save_car (db s) cd c).1 [].

(** What holds of the tasks of a batch all along: a task that awaits the
    database carries the record of its own URL, and the URL is marked; a
    task that returned true has its URL in the table. *)
Definition batch_inv (s : scraper) : Prop :=
  (forall i u cd, tasks s !! i = Some (u, Saving cd) ->
     url cd = u /\ u ∈ processed_urls s) /\
  (forall i u, tasks s !! i = Some (u, Finished (Returned true)) ->
     has_url u (cars (db s)) = true).

(** The state a run of the page loop ends in. *)
Definition state_of (r : crawl_result) : scraper :=
  match r with Done s | Failed s | Stuck s | OutOfFuel s => s end.

(** The pages a trace begins to process, in order. *)
Definition pages_of (t : list effect) : list (Z * str) :=
  omap (fun e => match e with ProcessingPage n u => Some (n, u) | _ => None end) t.

(** The pagination order in words: the start page, then for each page
    that lists a car the page its next link names, until a page lists no
    car or names no next page. *)
Fixpoint pagination (fuel : nat) (w : world) (page_num : Z) (page_url : str)
    : list (Z * str) :=
  match fuel with
  | O => []
  | S fuel' =>
      if is_empty page_url then []
      else
        (page_num, page_url) ::
        match (_extract_car_urls_and_next_page page_url
                 (listing_replies w page_num)).1 with
        | (_ :: _, Some (c :: n)) => pagination fuel' w (page_num + 1) (c :: n)
        | _ => []
        end
  end.

(** An interpreter whose only decimal digits are the ASCII ones, and a
    [urljoin] for absolute references, which it returns as they are. *)
Definition sample_nd_table : N -> option N := fun _ => None.
Definition sample_urljoin : str -> str -> str := fun _ ref => ref.

(** The first fetch is answered 204 with the body of a listing page, the
    later ones 200 with the same body. *)
Definition sample_replies_204 (attempt : Z) : fetch_reply :=
  if attempt =? 0 then FetchStatus 204 (Some sample_two_cars)
  else FetchStatus 200 (Some sample_two_cars).

(** A listing page answered 200 that lists one car twice. *)
Definition sample_world : world :=
  {| listing_replies := fun _ _ => FetchStatus 200 (Some sample_twice_car1);
     schedules := fun _ =>
       [Start 0 LoadFailed; Start 1 (Loaded sample_full_page);
        Wake 0 (Loaded sample_full_page);
        Saved 1 sample_db_up; Saved 0 sample_db_up] |}.

(** A scraper whose database pool is not set. *)
Definition sample_idle_closed : scraper :=
  {| processed_urls := ∅; sem_value := 0; tasks := [];
     db := sample_closed_db; trace := [] |}.

(** Two listing pages: the first lists one car and names the second, the
    second lists nothing. *)
Definition sample_first_page : listing_page :=
  {| car_hrefs := [Some sample_car1]; next_link := Some (Some sample_listing2) |}.
Definition sample_last_page : listing_page :=
  {| car_hrefs := []; next_link := None |}.

Definition sample_two_pages : world :=
  {| listing_replies := fun page_num _ =>
       if page_num =? 1 then FetchStatus 200 (Some sample_first_page)
       else FetchStatus 200 (Some sample_last_page);
     schedules := fun _ =>
       [Start 0 (Loaded sample_full_page); Saved 0 sample_db_up] |}.



(** ** Vocabulary of the further properties *)

(** The ASCII decimal numeral of [n], most significant digit first. *)
Fixpoint numeral_from (fuel : nat) (n : N) (acc : str) : str :=
  let acc' := (48 + n mod 10)%N :: acc in
  match fuel with
  | O => acc'
  | S fuel' => if (n <? 10)%N then acc' else numeral_from fuel' (n / 10) acc'
  end.

Definition numeral (n : N) : str := numeral_from (N.to_nat (N.size n)) n [].

(** The digit string is within the conversion limit of [int()]. *)
Definition within_limit (digits : str) : Prop :=
  int_max_str_digits = 0%N \/
  (N.of_nat (length digits) <= int_max_str_digits)%N.

(** A text [str.strip()] leaves nothing of. *)
Definition blank (t : str) : Prop := strip t = [].

(** The loads and sleeps of [n] failed attempts on a detail page, the
    first of them attempt [first], each followed by its backoff sleep. *)
Fixpoint failed_loads (n : nat) (first : Z) (car_url : str) : list effect :=
  match n with
  | O => []
  | S n' =>
      DetailGet car_url :: Sleep (first + 1) ::
      failed_loads n' (first + 1) car_url
  end.

Definition is_detail_get (e : effect) : bool :=
  match e with DetailGet _ => true | _ => false end.

(** How many page loads a trace holds. *)
Definition detail_gets (t : list effect) : Z :=
  Z.of_nat (length (List.filter is_detail_get t)).

(** The page loads a task may still make. *)
Definition loads_left (st : task_status) : Z :=
  match st with
  | Pending => Z.max 0 max_retries
  | Backoff a => max_retries - 1 - a
  | Saving _ | Finished _ => 0
  end.

(** The task returned true. *)
Definition saved (st : task_status) : Z :=
  match st with Finished (Returned true) => 1 | _ => 0 end.

(** The task ended with an exception. *)
Definition raised (st : task_status) : Z :=
  match st with Finished Raised => 1 | _ => 0 end.

(** The URLs of the rows of the table, in order. *)
Definition urls_of (rows : list car_row) : list str := (url ∘ row_data) <$> rows.

(** What holds of a batch whose tasks sleep only when an attempt is left. *)
Definition backoff_inv (s : scraper) : Prop :=
  forall i u a, tasks s !! i = Some (u, Backoff a) -> 0 <= a < max_retries - 1.

(** The rows of [s] are those of [s0] followed by rows of URLs that are
    marked in [s], and no URL has two rows. *)
Definition table_inv (s0 s : scraper) : Prop :=
  NoDup (urls_of (cars (db s))) /\
  exists rows,
    cars (db s) = cars (db s0) ++ rows /\
    forall r, r ∈ rows -> url (row_data r) ∈ processed_urls s.

(** ** More sample data *)

(** The price text "250 000 $" and the numeral "250000". *)
Definition sample_price_text : str := [50; 53; 48; 32; 48; 48; 48; 32; 36]%N.

Definition sample_record2 : car_data :=
  {| url := sample_car2; title := []; price_usd := 1; odometer := 0;
     username := []; phone_number := 0; image_url := None; images_count := 0;
     car_number := []; car_vin := [] |}.

(** [sample_record2] with a phone number of 2^63. *)
Definition sample_long_phone : car_data :=
  {| url := sample_car2; title := []; price_usd := 1; odometer := 0;
     username := []; phone_number := 9223372036854775808; image_url := None;
     images_count := 0; car_number := []; car_vin := [] |}.

Definition sample_batch_up : batch_call :=
  {| batch_connect_ok := true; transaction_ok := true;
     statement_ok := fun _ => true; statement_now := fun _ => 0 |}.

(** A batch call whose first statement runs and whose later ones raise. *)
Definition sample_batch_second_fails : batch_call :=
  {| batch_connect_ok := true; transaction_ok := true;
     statement_ok := fun i => (i =? 0)%nat; statement_now := fun _ => 0 |}.

(** The full page with three elements of class [phone], of texts " ",
    "067" and "1". *)
Definition sample_three_phones : detail_page :=
  {| title_text := title_text sample_full_page;
     price_text := price_text sample_full_page;
     odometer_text := odometer_text sample_full_page;
     username_text := username_text sample_full_page;
     phone_revealed := true;
     phone_texts := [[32]; [48; 54; 55]; [49]]%N;
     image_srcset := image_srcset sample_full_page;
     preview_items := preview_items sample_full_page;
     state_num_text := None;
     vin_text := None |}.

(** The first load of the page fails, the later ones give the full page. *)
Definition sample_loads_second (attempt : Z) : page_load :=
  if attempt =? 0 then LoadFailed else Loaded sample_full_page.

Definition sample_app : app :=
  {| app_scraper := sample_idle_closed;
     app_handles := {| session := None; selenium_driver := false |};
     app_events := [] |}.

(** The module's objects after an earlier run that processed the first
    car. *)
Definition sample_app_marked : app :=
  {| app_scraper :=
       {| processed_urls := {[ sample_car1 ]}; sem_value := 0; tasks := [];
          db := sample_empty_db; trace := [] |};
     app_handles := {| session := Some false; selenium_driver := true |};
     app_events := [] |}.

Definition sample_startup_ok : startup := {| driver_ok := true; pool_ok := true |}.
Definition sample_no_browser : startup := {| driver_ok := false; pool_ok := true |}.
Definition sample_no_pool : startup := {| driver_ok := true; pool_ok := false |}.

(** A listing page that lists one car and names itself as the next page,
    whatever is asked. *)
Definition sample_loop_page : listing_page :=
  {| car_hrefs := [Some sample_car1]; next_link := Some (Some sample_listing1) |}.

Definition sample_looping : world :=
  {| listing_replies := fun _ _ => FetchStatus 200 (Some sample_loop_page);
     schedules := fun _ =>
       [Start 0 (Loaded sample_full_page); Saved 0 sample_db_up] |}.

(** A page that lists three cars; the schedule runs the first task to
    its end, lets the second in, which reads its record, and stops there:
    the second task awaits the database and the third was not let in. *)
Definition sample_car3 : str := [97; 47; 51]%N.

Definition sample_three_cars : listing_page :=
  {| car_hrefs := [Some sample_car1; Some sample_car2; Some sample_car3];
     next_link := None |}.

Definition sample_stalling : world :=
  {| listing_replies := fun _ _ => FetchStatus 200 (Some sample_three_cars);
     schedules := fun _ =>
       [Start 0 (Loaded sample_full_page); Saved 0 sample_db_up;
        Start 1 (Loaded sample_full_page)] |}.

(** The database call that the statement of index [i] of a batch amounts
    to when it is made on its own. *)
Definition call_of (c : batch_call) (i : nat) : db_call :=
  {| connect_ok := batch_connect_ok c; execute_ok := statement_ok c i;
     now := statement_now c i |}.

(** The records of a batch saved one by one with [save_car], from the
    record of index [i] on: the database and how many calls returned
    true. *)
Fixpoint save_each (d : database) (cars_data : list car_data) (i : nat)
    (c : batch_call) : database * Z :=
  match cars_data with
  | [] => (d, 0)
  | cd :: rest =>
      let '(d1, r) := save_car d cd (call_of c i) in
      let '(d2, n) := save_each d1 rest (S i) c in
      (d2, (match r with Returned true => 1 | _ => 0 end) + n)
  end.

(** Every statement of the batch runs and every record fits its columns. *)
Definition batch_clean (cars_data : list car_data) (i : nat) (c : batch_call) : Prop :=
  forall k cd, cars_data !! k = Some cd ->
    statement_ok c (i + k) = true /\ columns_fit cd = true.

(** The effects of the page loop itself: fetches of listing pages, sleeps
    and the beginning of a page. *)
Definition page_effects (t : list effect) : Prop :=
  Forall (fun e => match e with
                   | ListingGet _ | Sleep _ | ProcessingPage _ _ => True
                   | DetailGet _ | Extracting _ => False
                   end) t.

(** * Properties *)

(** Drops from the context what the goal does not mention, so that the
    arithmetic tactics do not pick up the configuration. *)
Ltac tidy := repeat match goal with v : _ |- _ => clear v end.

(** ** The odometer parser *)

Lemma binary_round_aux_signless prec emax mx ex lx :
  signless (binary_round_aux prec emax false mx ex lx).
Proof.
  unfold binary_round_aux.
  destruct (shr_fexp prec emax mx ex lx) as [mrs' e'].
  destruct (shr_fexp prec emax _ e' loc_Exact) as [mrs'' e''].
  destruct (shr_m mrs''); simpl; auto.
  destruct (Z.leb _ _); simpl; auto.
Qed.

Lemma of_decimal_signless m k : signless (Float.of_decimal m k).
Proof.
  unfold Float.of_decimal. destruct m; simpl; auto.
  destruct (SFdiv_core_binary _ _ _ _ _ _) as [[mz ez] lz].
  apply binary_round_aux_signless.
Qed.

Lemma mul_signless x y : signless x -> signless y -> signless (Float.mul x y).
Proof.
  unfold Float.mul.
  destruct x as [sx|sx| |sx mx ex], y as [sy|sy| |sy my ey]; simpl; auto;
    try (destruct sx; simpl; auto; destruct sy; simpl; auto; fail).
  destruct sx, sy; simpl; intros Hx Hy; try contradiction.
  apply binary_round_aux_signless.
Qed.

Lemma to_int_signless x z : signless x -> Float.to_int x = Some z -> 0 <= z.
Proof.
  tidy.
  destruct x as [s|s| |s m e]; simpl; try congruence.
  - intros _ [= <-]. lia.
  - destruct s; [tauto|]. intros _ [= <-].
    destruct e; [ | |apply Z.shiftr_nonneg]; try (apply Z.shiftl_nonneg); lia.
Qed.

Lemma km_of_decimal_nonneg m k : 0 <= km_of_decimal m k.
Proof.
  unfold km_of_decimal.
  destruct (Float.to_int _) as [z|] eqn:E; simpl; [|lia].
  eapply to_int_signless; [|exact E].
  apply mul_signless; [apply of_decimal_signless|].
  vm_compute. exact I.
Qed.

Lemma extract_odometer_km (t : str) :
  _extract_odometer t =
    match search_number t with
    | Some (whole, frac) =>
        km_of_decimal (digits_value (whole ++ default [] frac))
                      (length (default [] frac))
    | None => 0
    end.
Proof.
  unfold _extract_odometer, km_of_decimal, float_of_match.
  destruct t as [|c t]; [reflexivity|]. cbn [is_empty].
  destruct (search_number (c :: t)) as [[whole frac]|]; [|reflexivity].
  destruct (Float.to_int _); reflexivity.
Qed.

Lemma span_digits_run (whole rest : str) :
  all_decimal whole -> digits_end rest ->
  span_digits (whole ++ rest) = (whole, rest).
Proof.
  intros Hw Hr. induction Hw as [|c whole Hc _ IH]; simpl.
  - destruct rest as [|c r]; [reflexivity|]. simpl in Hr |- *. now rewrite Hr.
  - rewrite Hc, IH. reflexivity.
Qed.

Lemma search_number_skip (pre s : str) :
  no_decimal pre -> search_number (pre ++ s) = search_number s.
Proof.
  intros Hp. induction Hp as [|c pre Hc _ IH]; simpl; [reflexivity|].
  now rewrite Hc.
Qed.

Lemma search_number_none (t : str) : no_decimal t -> search_number t = None.
Proof.
  intros H. rewrite <- (app_nil_r t). now rewrite search_number_skip.
Qed.

Lemma search_number_whole (pre whole rest : str) :
  no_decimal pre -> all_decimal whole -> whole <> [] -> digits_end rest ->
  search_number (pre ++ whole ++ rest) =
    Some (whole,
          match rest with
          | sep :: rest' =>
              if is_separator sep then Some (fst (span_digits rest')) else None
          | [] => None
          end).
Proof.
  intros Hp Hw Hne Hr. rewrite search_number_skip by assumption.
  destruct whole as [|c whole]; [congruence|].
  pose proof (span_digits_run (c :: whole) rest Hw Hr) as Hs.
  inversion Hw as [|? ? Hc Hw']; subst.
  change ((c :: whole) ++ rest) with (c :: (whole ++ rest)) in *.
  cbn [search_number]. rewrite Hc, Hs.
  destruct rest as [|sep rest']; [reflexivity|].
  unfold is_separator. destruct (_ || _)%bool; reflexivity.
Qed.

(** C8. The odometer parser gives 95000 for the text "95 тис. км" and 0
    for the empty text and for a text with no decimal digit.  In general
    it takes the first run of decimal digits of the text, with the digits
    after one following point or comma, and returns the float value of
    that numeral times 1000, truncated to an integer; its result is never
    negative. *)
Theorem extract_odometer_thousand_km :
  _extract_odometer [57; 53; 32; 1090; 1080; 1089; 46; 32; 1082; 1084]%N = 95000
  /\ _extract_odometer [] = 0
  /\ (forall t, no_decimal t -> _extract_odometer t = 0)
  /\ (forall pre whole rest,
        no_decimal pre -> all_decimal whole -> whole <> [] ->
        digits_end rest -> hd_error rest <> Some 46%N ->
        hd_error rest <> Some 44%N ->
        _extract_odometer (pre ++ whole ++ rest) =
          km_of_decimal (digits_value whole) 0)
  /\ (forall pre whole sep frac rest,
        no_decimal pre -> all_decimal whole -> whole <> [] ->
        is_separator sep = true -> all_decimal frac -> digits_end rest ->
        _extract_odometer (pre ++ whole ++ sep :: frac ++ rest) =
          km_of_decimal (digits_value (whole ++ frac)) (length frac))
  /\ (forall t, 0 <= _extract_odometer t).
Proof.
  split; [vm_compute; reflexivity|].
  split; [reflexivity|].
  split.
  { intros t Ht. rewrite extract_odometer_km, search_number_none; auto. }
  split.
  { intros pre whole rest Hp Hw Hne Hr H46 H44.
    rewrite extract_odometer_km, search_number_whole by assumption.
    destruct rest as [|sep rest']; simpl; rewrite ?app_nil_r; [reflexivity|].
    unfold is_separator.
    destruct (N.eqb_spec sep 46) as [->|_]; [now elim H46|].
    destruct (N.eqb_spec sep 44) as [->|_]; [now elim H44|].
    simpl. rewrite app_nil_r. reflexivity. }
  split.
  { intros pre whole sep frac rest Hp Hw Hne Hsep Hf Hr.
    assert (Hd : is_decimal sep = false).
    { unfold is_separator in Hsep. unfold is_decimal, decimal_value.
      destruct (N.eqb_spec sep 46) as [->|_]; [reflexivity|].
      destruct (N.eqb_spec sep 44) as [->|_]; [reflexivity|discriminate]. }
    rewrite extract_odometer_km.
    rewrite (search_number_whole pre whole (sep :: frac ++ rest)); auto.
    rewrite Hsep, span_digits_run by assumption. reflexivity. }
  intros t. rewrite extract_odometer_km.
  destruct (search_number t) as [[whole frac]|]; [|lia].
  apply km_of_decimal_nonneg.
Qed.

(** ** The listing fetch *)

Lemma attempt_listing_accepts page_url r res :
  attempt_listing page_url r = Some res <->
  exists body, r = FetchStatus 200 (Some body) /\ res = parse_listing page_url body.
Proof.
  unfold attempt_listing. split.
  - destruct r as [|status [body|]]; try discriminate;
      destruct (Z.eqb_spec status 200) as [->|]; simpl; try discriminate.
    intros [= <-]. eauto.
  - intros (body & -> & ->). reflexivity.
Qed.

Lemma listing_from_fail page_url replies n a :
  (forall i : nat, (i < n)%nat ->
     attempt_listing page_url (replies (a + Z.of_nat i)) = None) ->
  listing_from n a page_url replies = (([], None), failed_attempts n a page_url).
Proof.
  revert a. induction n as [|n IH]; intros a Hfail; [reflexivity|].
  cbn [listing_from failed_attempts].
  pose proof (Hfail O ltac:(lia)) as H0. rewrite Z.add_0_r in H0. rewrite H0.
  rewrite IH; [reflexivity|].
  intros i Hi. specialize (Hfail (S i) ltac:(lia)).
  now replace (a + 1 + Z.of_nat i) with (a + Z.of_nat (S i)) by lia.
Qed.

Lemma listing_from_success page_url replies res j n a :
  (j < n)%nat ->
  (forall i : nat, (i < j)%nat ->
     attempt_listing page_url (replies (a + Z.of_nat i)) = None) ->
  attempt_listing page_url (replies (a + Z.of_nat j)) = Some res ->
  listing_from n a page_url replies =
    (res, failed_attempts j a page_url ++ [ListingGet page_url]).
Proof.
  revert n a. induction j as [|j IH]; intros n a Hlt Hfail Hok.
  - destruct n as [|n]; [lia|]. cbn [listing_from failed_attempts].
    rewrite Z.add_0_r in Hok. now rewrite Hok.
  - destruct n as [|n]; [lia|]. cbn [listing_from failed_attempts].
    pose proof (Hfail O ltac:(lia)) as H0. rewrite Z.add_0_r in H0. rewrite H0.
    rewrite (IH n (a + 1)); [reflexivity|lia| |].
    + intros i Hi. specialize (Hfail (S i) ltac:(lia)).
      now replace (a + 1 + Z.of_nat i) with (a + Z.of_nat (S i)) by lia.
    + now replace (a + 1 + Z.of_nat j) with (a + Z.of_nat (S j)) by lia.
Qed.

Lemma listing_from_gets page_url replies n a :
  (listing_gets (listing_from n a page_url replies).2 <= n)%nat.
Proof.
  unfold listing_gets.
  revert a. induction n as [|n IH]; intros a; [simpl; lia|].
  cbn [listing_from].
  destruct (attempt_listing _ _); [simpl; lia|].
  specialize (IH (a + 1)).
  destruct (listing_from n (a + 1) page_url replies) as [res t].
  simpl in *. lia.
Qed.

(** C3, amended.  The listing fetch takes a reply when its status is 200
    and its body is read and parsed without an error, and retries on
    every other reply (any other status, the 2xx ones too, or an error
    raised by the fetch, the read or the parse).  It makes at most
    [max_retries] fetches and sleeps [request_delay * (a + 1)] after the
    failed attempt [a] (counted from 0), also after the last one.  A reply
    that is taken ends the retries; when all [max_retries] attempts fail
    the result is the empty list and no next page. *)
Theorem listing_fetch_retries (page_url : str) (replies : Z -> fetch_reply) :
  (forall r res,
     attempt_listing page_url r = Some res <->
     exists body, r = FetchStatus 200 (Some body) /\
                  res = parse_listing page_url body)
  /\ (listing_gets (_extract_car_urls_and_next_page page_url replies).2
      <= Z.to_nat max_retries)%nat
  /\ (forall (j : nat) res,
        Z.of_nat j < max_retries ->
        (forall i : nat, (i < j)%nat ->
           attempt_listing page_url (replies (Z.of_nat i)) = None) ->
        attempt_listing page_url (replies (Z.of_nat j)) = Some res ->
        _extract_car_urls_and_next_page page_url replies =
          (res, failed_attempts j 0 page_url ++ [ListingGet page_url]))
  /\ ((forall i : nat, Z.of_nat i < max_retries ->
         attempt_listing page_url (replies (Z.of_nat i)) = None) ->
      _extract_car_urls_and_next_page page_url replies =
        (([], None), failed_attempts (Z.to_nat max_retries) 0 page_url)).
Proof.
  split; [apply attempt_listing_accepts|].
  split; [apply listing_from_gets|].
  split.
  - intros j res Hj Hfail Hok.
    apply listing_from_success; [lia| |]; simpl; auto.
  - intros Hfail. apply listing_from_fail.
    intros i Hi. simpl. apply Hfail. lia.
Qed.

(** ** The detail extraction *)

Lemma extract_from_all_fail car_url loads n a :
  (forall b, attempt_page car_url (loads b) = None) ->
  (extract_from n a car_url loads).1 = None.
Proof.
  intros Hfail. revert a. induction n as [|n IH]; intros a; [reflexivity|].
  cbn [extract_from]. rewrite Hfail.
  destruct (a <? max_retries - 1); [|reflexivity].
  specialize (IH (a + 1)).
  destruct (extract_from n (a + 1) car_url loads) as [r t]. exact IH.
Qed.

(** The fields read in a [try] of their own take the default of their
    handler when their element is absent. *)
Lemma read_fields_defaults car_url p t price :
  title_text p = Some t ->
  (strip <$> price_text p) ≫= _extract_price = Some price ->
  odometer_text p = None -> username_text p = None ->
  phone_revealed p = false -> image_srcset p = None ->
  preview_items p = None -> state_num_text p = None -> vin_text p = None ->
  read_fields car_url p =
    Some {| url := car_url; title := strip t; price_usd := price;
            odometer := 0; username := []; phone_number := 0;
            image_url := Some []; images_count := 0;
            car_number := []; car_vin := [] |}.
Proof.
  intros Ht Hp Ho Hu Hph Hi Hn Hs Hv. unfold read_fields, phone_of.
  rewrite Ht, Ho, Hu, Hph, Hi, Hn, Hs, Hv. simpl. rewrite Hp. reflexivity.
Qed.

(** C1, on the failing input.  A detail page that loads at every attempt
    and has no title element gives no record: the lookup of the title is
    outside every [try] of a field, so its exception ends the attempt like
    a failed page load. *)
Theorem extract_car_data_title_absent (car_url : str) (p : detail_page) :
  title_text p = None ->
  (_extract_car_data car_url (fun _ => Loaded p)).1 = None.
Proof.
  intros Ht. unfold _extract_car_data.
  pose proof (extract_from_all_fail car_url (fun _ => Loaded p)
                (Z.to_nat max_retries) 0) as H.
  destruct (extract_from _ _ _ _) as [r t]. apply H.
  intros _. simpl. unfold read_fields. now rewrite Ht.
Qed.

(** ** The table *)

Lemma rows_with_app u rows1 rows2 :
  rows_with u (rows1 ++ rows2) = (rows_with u rows1 + rows_with u rows2)%nat.
Proof. unfold rows_with. now rewrite filter_app, length_app. Qed.

Lemma has_url_false_rows u rows : has_url u rows = false -> rows_with u rows = 0%nat.
Proof.
  unfold has_url, rows_with. intros H. apply bool_decide_eq_false in H.
  induction rows as [|r rows IH]; [reflexivity|].
  rewrite fmap_cons, not_elem_of_cons in H. destruct H as [Hne Hrest].
  rewrite filter_cons_False by (simpl in Hne; congruence). auto.
Qed.

Lemma has_url_inserted cd rows now0 :
  has_url (url cd) (rows ++ [{| row_data := cd; datetime_found := now0 |}]) = true.
Proof.
  unfold has_url. apply bool_decide_eq_true.
  rewrite fmap_app. apply elem_of_app. right. simpl. apply list_elem_of_here.
Qed.

(** A call on a URL the table holds changes no row and returns false, or
    raises when the pool cannot be set up. *)
Lemma save_car_present d cd c :
  has_url (url cd) (cars d) = true ->
  cars (save_car d cd c).1 = cars d /\
  ((save_car d cd c).2 = Returned false \/ (save_car d cd c).2 = Raised).
Proof.
  intros H. unfold save_car, insert_or_ignore.
  destruct (negb (pool d) && negb (connect_ok c)); [simpl; auto|].
  destruct (execute_ok c && columns_fit cd); [|simpl; auto].
  rewrite H. simpl. auto.
Qed.

(** C7, amended.  For a record whose integers fit the columns of the
    table, on a table with no row of its URL, a call whose statement runs
    without a database error (the pool being set, or set up by the call)
    appends the record and returns true; a second call with the same URL,
    whatever its record and whatever it meets, returns false and leaves
    the rows as they are, and the table holds exactly one row of the
    URL. *)
Theorem save_car_insert_once (d : database) (cd cd' : car_data) (c1 c2 : db_call) :
  has_url (url cd) (cars d) = false ->
  columns_fit cd = true ->
  execute_ok c1 = true ->
  pool d = true \/ connect_ok c1 = true ->
  url cd' = url cd ->
  let d1 := (save_car d cd c1).1 in
  let d2 := (save_car d1 cd' c2).1 in
  (save_car d cd c1).2 = Returned true
  /\ cars d1 = cars d ++ [{| row_data := cd; datetime_found := now c1 |}]
  /\ (save_car d1 cd' c2).2 = Returned false
  /\ cars d2 = cars d1
  /\ rows_with (url cd) (cars d2) = 1%nat.
Proof.
  intros Hnew Hfit Hexec Hpool Hurl.
  assert (E1 : save_car d cd c1 =
               ({| pool := true;
                   cars := cars d ++ [{| row_data := cd; datetime_found := now c1 |}] |},
                Returned true)).
  { unfold save_car, insert_or_ignore.
    replace (negb (pool d) && negb (connect_ok c1)) with false
      by (destruct Hpool as [-> | ->]; simpl; now rewrite ?andb_false_r).
    now rewrite Hexec, Hfit, Hnew. }
  rewrite E1. cbn [fst snd cars].
  set (d1 := {| pool := true; cars := _ |}).
  assert (Hin : has_url (url cd') (cars d1) = true)
    by (rewrite Hurl; apply has_url_inserted).
  assert (E2 : save_car d1 cd' c2 = ({| pool := true; cars := cars d1 |}, Returned false)).
  { unfold save_car, insert_or_ignore. cbn [pool negb andb].
    destruct (execute_ok c2 && columns_fit cd'); [|reflexivity].
    now rewrite Hin. }
  rewrite E2. cbn [fst snd cars].
  repeat split; try reflexivity.
  subst d1. cbn [cars]. rewrite rows_with_app, (has_url_false_rows _ _ Hnew).
  unfold rows_with. simpl. now rewrite filter_cons_True, filter_nil by reflexivity.
Qed.

(** ** The batch: shape of a step *)

Lemma total_insert f ts i u st u' st' :
  ts !! i = Some (u, st) ->
  total f (<[i := (u', st')]> ts) = total f ts - f st + f st'.
Proof.
  revert i. induction ts as [|t ts IH]; intros [|i] H; try discriminate.
  - injection H as ->. simpl. lia.
  - simpl in *. rewrite (IH i H). lia.
Qed.

Lemma total_nonneg f ts : (forall st, 0 <= f st) -> 0 <= total f ts.
Proof.
  intros Hf. induction ts as [|t ts IH]; simpl; [lia|].
  specialize (Hf t.2). lia.
Qed.

Lemma total_le f g ts : (forall st, f st <= g st) -> total f ts <= total g ts.
Proof.
  intros Hfg. induction ts as [|t ts IH]; simpl; [lia|].
  specialize (Hfg t.2). lia.
Qed.

Lemma weight_nonneg st : 0 <= weight st.
Proof. destruct st; simpl; lia. Qed.

(** Every step is one of the moves, on the task the event names; the
    permits follow the task as it enters and leaves the block. *)
Lemma step_moves s e s' :
  step s e = Some s' ->
  exists u st st' P d t,
    tasks s !! task_of e = Some (u, st) /\
    (st = Pending -> 0 < sem_value s) /\
    moves s e u st st' P d t /\
    s' = {| processed_urls := P;
            sem_value := sem_value s + holds st - holds st';
            tasks := <[task_of e := (u, st')]> (tasks s);
            db := d;
            trace := trace s ++ t |}.
Proof.
  destruct s as [P0 sem ts d0 t0].
  destruct e as [i ld|i ld|i c]; cbn [step task_of tasks];
    destruct (ts !! i) as [[u [ |a|cd|r]]|] eqn:Hi; try discriminate.
  - cbn [sem_value]. destruct (Z.ltb_spec 0 sem) as [Hs|]; [|discriminate].
    cbn [acquire processed_urls]. case_bool_decide as Hu.
    + intros [= <-]. exists u, Pending, (Finished (Returned false)), P0, d0, [].
      split; [reflexivity|]. split; [auto|]. split; [now constructor|].
      unfold finish, release, set_task. simpl. rewrite app_nil_r. f_equal. lia.
    + destruct (Z.ltb_spec 0 max_retries) as [Hm|Hm].
      * unfold run_attempt. destruct (attempt_page u ld) as [cd|] eqn:Ha.
        { intros [= <-]. exists u, Pending, (Saving cd), ({[u]} ∪ P0), d0,
            [Extracting u; DetailGet u].
          split; [reflexivity|]. split; [auto|]. split; [now constructor|].
          unfold set_task, mark, log. simpl. rewrite <- app_assoc. f_equal. lia. }
        destruct (Z.ltb_spec 0 (max_retries - 1)) as [Hr|Hr].
        { intros [= <-]. exists u, Pending, (Backoff 0), P0, d0,
            [Extracting u; DetailGet u; Sleep 1].
          split; [reflexivity|]. split; [auto|]. split; [now constructor|].
          unfold set_task, log. simpl. rewrite <- app_assoc. f_equal. lia. }
        intros [= <-]. exists u, Pending, (Finished (Returned false)), P0, d0,
          [Extracting u; DetailGet u].
        split; [reflexivity|]. split; [auto|]. split; [now constructor|].
        unfold finish, release, set_task, log. simpl. rewrite <- app_assoc. f_equal. lia.
      * intros [= <-]. exists u, Pending, (Finished (Returned false)), P0, d0,
          [Extracting u].
        split; [reflexivity|]. split; [auto|]. split; [now constructor|].
        unfold finish, release, set_task, log. simpl. f_equal. lia.
  - unfold run_attempt. destruct (attempt_page u ld) as [cd|] eqn:Ha.
    { intros [= <-]. exists u, (Backoff a), (Saving cd), ({[u]} ∪ P0), d0, [DetailGet u].
      split; [reflexivity|]. split; [discriminate|]. split; [now constructor|].
      unfold set_task, mark, log. simpl. f_equal. lia. }
    destruct (Z.ltb_spec (a + 1) (max_retries - 1)) as [Hr|Hr].
    { intros [= <-]. exists u, (Backoff a), (Backoff (a + 1)), P0, d0,
        [DetailGet u; Sleep (a + 1 + 1)].
      split; [reflexivity|]. split; [discriminate|]. split; [now constructor|].
      unfold set_task, log. simpl. f_equal. lia. }
    intros [= <-]. exists u, (Backoff a), (Finished (Returned false)), P0, d0, [DetailGet u].
    split; [reflexivity|]. split; [discriminate|]. split; [now constructor|].
    unfold finish, release, set_task, log. simpl. f_equal. lia.
  - cbn [db]. destruct (save_car d0 cd c) as [d r] eqn:E. intros [= <-].
    exists u, (Saving cd), (Finished r), P0, d, [].
    split; [reflexivity|]. split; [discriminate|]. split.
    { replace d with (save_car (db {| processed_urls := P0; sem_value := sem;
                                      tasks := ts; db := d0; trace := t0 |}) cd c).1
        by (simpl; now rewrite E).
      replace r with (save_car (db {| processed_urls := P0; sem_value := sem;
                                      tasks := ts; db := d0; trace := t0 |}) cd c).2
        by (simpl; now rewrite E).
      constructor. }
    unfold finish, release, set_task, set_db. simpl. rewrite app_nil_r. f_equal. lia.
Qed.

Lemma moves_weight s e u st st' P d t :
  moves s e u st st' P d t -> weight st' < weight st /\ st' <> Pending.
Proof. intros H; destruct H; simpl; split; try lia; discriminate. Qed.

Lemma step_shape s e s' :
  step s e = Some s' ->
  exists u st st',
    tasks s !! task_of e = Some (u, st) /\
    tasks s' = <[task_of e := (u, st')]> (tasks s) /\
    sem_value s' = sem_value s + holds st - holds st' /\
    weight st' < weight st /\
    (st = Pending -> 0 < sem_value s).
Proof.
  intros H. destruct (step_moves _ _ _ H) as (u & st & st' & P & d & t & Hi & Hp & Hm & ->).
  exists u, st, st'. destruct (moves_weight _ _ _ _ _ _ _ _ Hm). auto.
Qed.

(** A property every step keeps holds along every run. *)
Lemma run_invariant (P : scraper -> Prop) :
  (forall s e s', P s -> step s e = Some s' -> P s') ->
  forall evs s s', P s -> run s evs = Some s' -> P s'.
Proof.
  intros Hstep. induction evs as [|e evs IH]; intros s s' HP Hrun.
  - injection Hrun as <-. exact HP.
  - simpl in Hrun. destruct (step s e) as [s1|] eqn:E; [|discriminate].
    eapply IH; [|exact Hrun]. eapply Hstep; eauto.
Qed.

(** ** Bounded concurrency *)

(** The segments that ran are an execution of a prefix of the schedule. *)
Lemma run_prefix_run evs s :
  exists evs1, evs1 `prefix_of` evs /\ run s evs1 = Some (run_prefix s evs).
Proof.
  revert s. induction evs as [|e evs IH]; intros s.
  - exists []. split; [reflexivity|reflexivity].
  - cbn [run_prefix]. destruct (step s e) as [s1|] eqn:E.
    + destruct (IH s1) as (evs1 & Hp & Hr). exists (e :: evs1).
      split; [now apply prefix_cons|]. cbn [run]. now rewrite E.
    + exists []. split; [apply prefix_nil|reflexivity].
Qed.

Lemma run_prefix_invariant (P : scraper -> Prop) :
  (forall s e s', P s -> step s e = Some s' -> P s') ->
  forall evs s, P s -> P (run_prefix s evs).
Proof.
  intros Hstep evs s HP. destruct (run_prefix_run evs s) as (evs1 & _ & Hr).
  exact (run_invariant P Hstep _ _ _ HP Hr).
Qed.

Lemma run_app evs1 evs2 s s1 :
  run s evs1 = Some s1 -> run s (evs1 ++ evs2) = run s1 evs2.
Proof.
  revert s. induction evs1 as [|e evs1 IH]; intros s H.
  - now injection H as <-.
  - rewrite <- app_comm_cons. cbn [run] in *.
    destruct (step s e); [auto|discriminate].
Qed.


Lemma step_no_task s e : tasks s = [] -> step s e = None.
Proof. intros H. destruct e; cbn [step]; rewrite H; reflexivity. Qed.

(** The batch of a page returns exactly when the segments that ran leave
    every task done, and then with the state they leave. *)
Lemma process_batch_run_prefix s car_urls evs :
  process_batch s car_urls evs =
  if all_finished (run_prefix (spawn s car_urls) evs)
  then Some (run_prefix (spawn s car_urls) evs) else None.
Proof.
  unfold process_batch. case_bool_decide as Ht; [|reflexivity].
  assert (run_prefix (spawn s car_urls) evs = spawn s car_urls) as ->.
  { destruct evs as [|e evs]; [reflexivity|].
    cbn [run_prefix]. now rewrite step_no_task. }
  unfold all_finished. now rewrite Ht.
Qed.

Lemma process_batch_some s car_urls evs s3 :
  process_batch s car_urls evs = Some s3 ->
  all_finished s3 = true /\
  s3 = run_prefix (spawn s car_urls) evs /\
  exists evs1, evs1 `prefix_of` evs /\ run (spawn s car_urls) evs1 = Some s3.
Proof.
  rewrite process_batch_run_prefix.
  destruct (all_finished _) eqn:Hf; [|discriminate]. intros [= <-].
  split; [exact Hf|]. split; [reflexivity|]. apply run_prefix_run.
Qed.

Lemma spawn_in_flight s car_urls : in_flight (spawn s car_urls) = 0.
Proof.
  unfold in_flight, spawn. cbn [tasks].
  induction (filter _ car_urls) as [|u us IH]; [reflexivity|].
  rewrite fmap_cons. cbn [total]. simpl. exact IH.
Qed.

Lemma step_balance s e s' :
  step s e = Some s' ->
  in_flight s' + sem_value s' = in_flight s + sem_value s /\
  (0 <= sem_value s -> 0 <= sem_value s').
Proof.
  intros H. destruct (step_shape _ _ _ H) as (u & st & st' & Hi & Ht & Hs & Hw & Hp).
  unfold in_flight. rewrite Ht, (total_insert holds _ _ _ _ _ st' Hi), Hs.
  split; [lia|]. intros Hs0. pose proof (weight_nonneg st') as Hw'.
  destruct st; simpl in *; try specialize (Hp eq_refl);
    destruct st'; simpl in *; lia.
Qed.

Lemma run_balance evs s s' :
  run s evs = Some s' -> 0 <= sem_value s ->
  in_flight s' + sem_value s' = in_flight s + sem_value s /\ 0 <= sem_value s'.
Proof.
  intros Hrun Hs.
  apply (run_invariant
           (fun x => in_flight x + sem_value x = in_flight s + sem_value s /\
                     0 <= sem_value x)) with (evs := evs) (s := s); auto.
  intros x e x' [Hb Hx] Hstep. destruct (step_balance _ _ _ Hstep) as [Hb' Hx'].
  split; [lia|auto].
Qed.

(** C6.  In every state a batch reaches, under every interleaving and
    for every list of URLs, the tasks inside the [async with] block are at
    most [concurrency], the free permits make up the difference, the
    tasks inside the extraction are among them, and a task is let in only
    while fewer than [concurrency] are inside. *)
Theorem in_flight_bounded (s0 : scraper) (car_urls : list str)
    (evs : list event) (s : scraper) :
  0 <= concurrency ->
  run (spawn s0 car_urls) evs = Some s ->
  in_flight s + sem_value s = concurrency
  /\ 0 <= extracting s <= in_flight s
  /\ in_flight s <= concurrency
  /\ (forall i ld s', step s (Start i ld) = Some s' -> in_flight s < concurrency).
Proof.
  intros Hc Hrun.
  destruct (run_balance _ _ _ Hrun) as [Hb Hs]; [exact Hc|].
  rewrite spawn_in_flight in Hb. cbn [spawn sem_value] in Hb.
  split; [lia|]. split.
  { split; [apply total_nonneg|apply total_le]; intros []; simpl; lia. }
  split; [lia|].
  intros i ld s' Hstep.
  destruct (step_moves _ _ _ Hstep) as (u & st & st' & P & d & t & _ & Hp & Hm & _).
  inversion Hm; subst; specialize (Hp eq_refl); lia.
Qed.

(** ** Isolation of the tasks of a batch *)

Lemma step_others s e s' j :
  step s e = Some s' -> j <> task_of e -> tasks s' !! j = tasks s !! j.
Proof.
  intros H Hj. destruct (step_shape _ _ _ H) as (u & st & st' & _ & -> & _).
  now apply list_lookup_insert_ne.
Qed.

Lemma step_own s e s' :
  step s e = Some s' ->
  exists u st st' P d t,
    tasks s !! task_of e = Some (u, st) /\ moves s e u st st' P d t /\
    tasks s' !! task_of e = Some (u, st') /\
    processed_urls s' = P /\ db s' = d /\ trace s' = trace s ++ t.
Proof.
  intros H. destruct (step_moves _ _ _ H) as (u & st & st' & P & d & t & Hi & _ & Hm & ->).
  exists u, st, st', P, d, t. cbn. repeat split; auto.
  apply list_lookup_insert_eq. eapply lookup_lt_Some; eauto.
Qed.

Lemma step_length s e s' :
  step s e = Some s' -> length (tasks s') = length (tasks s).
Proof.
  intros H. destruct (step_shape _ _ _ H) as (u & st & st' & _ & -> & _).
  apply length_insert.
Qed.

Lemma step_measure s e s' :
  step s e = Some s' -> total weight (tasks s') < total weight (tasks s).
Proof.
  intros H. destruct (step_shape _ _ _ H) as (u & st & st' & Hi & -> & _ & Hw & _).
  rewrite (total_insert weight _ _ _ _ _ st' Hi). lia.
Qed.

Lemma run_measure evs s s' :
  run s evs = Some s' ->
  Z.of_nat (length evs) <= total weight (tasks s) - total weight (tasks s').
Proof.
  revert s. induction evs as [|e evs IH]; intros s Hrun.
  - injection Hrun as <-. simpl. lia.
  - simpl in Hrun. destruct (step s e) as [s1|] eqn:E; [|discriminate].
    specialize (IH _ Hrun). apply step_measure in E. simpl length. lia.
Qed.

Lemma unfinished_cases (ts : list (str * task_status)) :
  forallb (fun t => is_finished t.2) ts = false ->
  (exists i u st, ts !! i = Some (u, st) /\ holds st = 1) \/
  (total holds ts = 0 /\ exists i u, ts !! i = Some (u, Pending)).
Proof.
  induction ts as [|[u st] ts IH]; [discriminate|].
  cbn [forallb total]. intros H. apply andb_false_iff in H.
  destruct st as [ |a|cd|r].
  - destruct (forallb (fun t => is_finished t.2) ts) eqn:Hts.
    + assert (Hz : total holds ts = 0).
      { clear -Hts. induction ts as [|[v st] ts IH]; [reflexivity|].
        cbn in Hts. apply andb_prop in Hts as [Hst Hts].
        destruct st; try discriminate. cbn. auto. }
      right. split; [simpl; lia|]. exists O, u. reflexivity.
    + destruct (IH eq_refl) as [(i & v & st & Hi & Hh)|(Hz & i & v & Hi)].
      * left. exists (S i), v, st. auto.
      * right. split; [simpl; lia|]. exists O, u. reflexivity.
  - left. exists O, u, (Backoff a). auto.
  - left. exists O, u, (Saving cd). auto.
  - destruct H as [H|H]; [discriminate|].
    destruct (IH H) as [(i & v & st & Hi & Hh)|(Hz & i & v & Hi)].
    + left. exists (S i), v, st. auto.
    + right. split; [simpl; lia|]. exists (S i), v. auto.
Qed.

(** While a task is unfinished and the permits add up to a positive
    number, some task can run its next segment. *)
Lemma batch_progress s :
  0 < in_flight s + sem_value s ->
  all_finished s = false ->
  exists e s', step s e = Some s'.
Proof.
  intros Hn Hu. unfold in_flight in Hn.
  destruct (unfinished_cases _ Hu) as [(i & u & st & Hi & Hh)|(Hz & i & u & Hi)].
  - destruct st as [ |a|cd|r]; try discriminate.
    + exists (Wake i LoadFailed). simpl. rewrite Hi. eauto.
    + exists (Saved i sample_db_up). simpl. rewrite Hi.
      destruct (save_car _ _ _). eauto.
  - exists (Start i LoadFailed). simpl. rewrite Hi.
    destruct (Z.ltb_spec 0 (sem_value s)); [|lia].
    destruct (bool_decide _); [eauto|]. destruct (0 <? max_retries); eauto.
Qed.

(** Every state of a batch whose permits add up to a positive number has
    a run to the end of all the tasks. *)
Lemma batch_completes s :
  0 < in_flight s + sem_value s ->
  exists evs s', gather s evs = Some s'.
Proof.
  pose proof (total_nonneg weight (tasks s) weight_nonneg) as Hw.
  remember (Z.to_nat (total weight (tasks s))) as n eqn:En.
  revert s Hw En. induction n as [n IH] using lt_wf_ind. intros s Hw En Hn.
  destruct (all_finished s) eqn:Hf.
  - exists [], s. unfold gather. simpl. now rewrite Hf.
  - destruct (batch_progress s Hn Hf) as (e & s1 & Hstep).
    pose proof (step_measure _ _ _ Hstep) as Hlt.
    pose proof (total_nonneg weight (tasks s1) weight_nonneg) as Hw1.
    destruct (step_balance _ _ _ Hstep) as [Hb _].
    destruct (IH (Z.to_nat (total weight (tasks s1))) ltac:(lia) s1 Hw1 eq_refl
                ltac:(lia)) as (evs & s' & Hg).
    exists (e :: evs), s'. unfold gather in *. simpl. now rewrite Hstep.
Qed.


Lemma attempt_page_url u ld cd : attempt_page u ld = Some cd -> url cd = u.
Proof.
  destruct ld as [|p]; [discriminate|]. unfold attempt_page, read_fields.
  destruct (title_text p); [|discriminate]. cbn.
  destruct ((strip <$> price_text p) ≫= _extract_price); [|discriminate].
  cbn. now intros [= <-].
Qed.

Lemma has_url_app u rows1 rows2 :
  has_url u rows1 = true -> has_url u (rows1 ++ rows2) = true.
Proof.
  unfold has_url. intros H. apply bool_decide_eq_true in H.
  apply bool_decide_eq_true. rewrite fmap_app. apply elem_of_app. now left.
Qed.

(** A call removes no row, and a call that returns true leaves a row of
    the record's URL. *)
Lemma save_car_rows d cd c :
  (exists rows, cars (save_car d cd c).1 = cars d ++ rows) /\
  ((save_car d cd c).2 = Returned true ->
   has_url (url cd) (cars (save_car d cd c).1) = true).
Proof.
  unfold save_car, insert_or_ignore.
  destruct (negb (pool d) && negb (connect_ok c)).
  { split; [exists []; now rewrite app_nil_r|discriminate]. }
  destruct (execute_ok c && columns_fit cd).
  - destruct (has_url (url cd) (cars d)) eqn:Hu; cbn.
    + split; [exists []; now rewrite app_nil_r|discriminate].
    + split; [eauto|]. intros _. apply has_url_inserted.
  - cbn. split; [exists []; now rewrite app_nil_r|discriminate].
Qed.

Lemma spawn_pending s car_urls i u st :
  tasks (spawn s car_urls) !! i = Some (u, st) -> st = Pending.
Proof.
  unfold spawn. cbn [tasks]. rewrite list_lookup_fmap.
  destruct (_ !! i); cbn; congruence.
Qed.

Lemma batch_inv_spawn s car_urls : batch_inv (spawn s car_urls).
Proof.
  split; intros i u; intros; match goal with
    | H : tasks _ !! _ = Some _ |- _ => apply spawn_pending in H; discriminate end.
Qed.

(** What the moves do to the processed set and to the table. *)
Lemma moves_saving s e u st cd P d t :
  moves s e u st (Saving cd) P d t ->
  url cd = u /\ P = {[u]} ∪ processed_urls s /\ d = db s /\
  exists ld, attempt_page u ld = Some cd.
Proof.
  intros H. inversion H; subst;
    (split; [eapply attempt_page_url; eauto|]); eauto.
Qed.

Lemma moves_processed s e u st st' P d t :
  moves s e u st st' P d t ->
  P = processed_urls s \/ (P = {[u]} ∪ processed_urls s /\ exists cd, st' = Saving cd).
Proof. intros H. inversion H; subst; eauto. Qed.

Lemma moves_db s e u st st' P d t :
  moves s e u st st' P d t ->
  d = db s \/
  exists cd c, st = Saving cd /\ d = (save_car (db s) cd c).1 /\
               st' = Finished (save_car (db s) cd c).2.
Proof. intros H. inversion H; subst; eauto 6. Qed.

Lemma moves_true s e u st P d t :
  moves s e u st (Finished (Returned true)) P d t ->
  exists cd c, st = Saving cd /\ d = (save_car (db s) cd c).1 /\
               (save_car (db s) cd c).2 = Returned true.
Proof. intros H. inversion H; subst. eauto. Qed.

Lemma moves_rows s e u st st' P d t :
  moves s e u st st' P d t -> exists rows, cars d = cars (db s) ++ rows.
Proof.
  intros H. destruct (moves_db _ _ _ _ _ _ _ _ H) as [->|(cd & c & _ & -> & _)].
  - exists []. now rewrite app_nil_r.
  - apply save_car_rows.
Qed.

Lemma moves_subset s e u st st' P d t :
  moves s e u st st' P d t -> processed_urls s ⊆ P.
Proof.
  intros H. destruct (moves_processed _ _ _ _ _ _ _ _ H) as [->|[-> _]];
    [reflexivity|apply union_subseteq_r].
Qed.

Lemma batch_inv_step s e s' : batch_inv s -> step s e = Some s' -> batch_inv s'.
Proof.
  intros [Hsav Hfin] H.
  destruct (step_own _ _ _ H) as (u & st & st' & P & d & t & Hi & Hm & Hi' & HP & Hd & _).
  pose proof (moves_subset _ _ _ _ _ _ _ _ Hm) as HPsub.
  destruct (moves_rows _ _ _ _ _ _ _ _ Hm) as [rows Hrows].
  rewrite <- HP in HPsub. rewrite <- Hd in Hrows.
  split.
  - intros j v cd Hj. destruct (decide (j = task_of e)) as [->|Hne].
    + rewrite Hi' in Hj. injection Hj as Hv Hst. subst v st'.
      destruct (moves_saving _ _ _ _ _ _ _ _ Hm) as (Hu & HP' & _).
      split; [exact Hu|]. rewrite HP, HP'.
      apply elem_of_union_l. now apply elem_of_singleton.
    + rewrite (step_others _ _ _ _ H Hne) in Hj.
      destruct (Hsav _ _ _ Hj). split; [auto|]. now apply HPsub.
  - intros j v Hj. destruct (decide (j = task_of e)) as [->|Hne].
    + rewrite Hi' in Hj. injection Hj as Hv Hst. subst v st'.
      destruct (moves_true _ _ _ _ _ _ _ Hm) as (cd & c & -> & Hd' & Hr).
      destruct (Hsav _ _ _ Hi) as [<- _].
      rewrite Hd, Hd'. now apply save_car_rows.
    + rewrite (step_others _ _ _ _ H Hne) in Hj.
      rewrite Hrows. apply has_url_app. eauto.
Qed.

(** ** The deduplication check *)

Lemma claims_app u t1 t2 : claims u (t1 ++ t2) = (claims u t1 + claims u t2)%nat.
Proof. unfold claims. now rewrite List.filter_app, length_app. Qed.

Lemma page_loads_app u t1 t2 :
  page_loads u (t1 ++ t2) = (page_loads u t1 + page_loads u t2)%nat.
Proof. unfold page_loads. now rewrite List.filter_app, length_app. Qed.

(** Only a task let in on an unmarked URL enters the extraction. *)
Lemma moves_claims_marked s e u st st' P d t v :
  moves s e u st st' P d t -> v ∈ processed_urls s -> claims v t = 0%nat.
Proof.
  intros H Hv. inversion H; subst; try reflexivity;
    unfold claims; cbn [List.filter];
    rewrite bool_decide_eq_false_2 by congruence; reflexivity.
Qed.

Lemma moves_claims_start s i ld u st st' P d t :
  moves s (Start i ld) u st st' P d t ->
  st = Pending /\
  (((u ∈ processed_urls s) /\ t = [] /\ st' = Finished (Returned false) /\
    P = processed_urls s /\ d = db s)
   \/ ((u ∉ processed_urls s) /\ claims u t = 1%nat /\
       (0 < max_retries -> page_loads u t = 1%nat))).
Proof.
  intros H. inversion H; subst; (split; [reflexivity|]); [left; auto|right..];
    (split; [assumption|]); unfold claims, page_loads; cbn [List.filter];
    rewrite ?bool_decide_eq_true_2 by reflexivity; split; try reflexivity; lia.
Qed.

Lemma step_subset s e s' : step s e = Some s' -> processed_urls s ⊆ processed_urls s'.
Proof.
  intros H. destruct (step_own _ _ _ H) as (u & st & st' & P & d & t & _ & Hm & _ & <- & _).
  eapply moves_subset; eauto.
Qed.

Lemma run_subset evs s s' : run s evs = Some s' -> processed_urls s ⊆ processed_urls s'.
Proof.
  intros Hrun.
  apply (run_invariant (fun x => processed_urls s ⊆ processed_urls x)) with evs s;
    [|reflexivity|assumption].
  intros x e x' Hx Hstep. etransitivity; [exact Hx|]. eapply step_subset; eauto.
Qed.

Lemma step_claims_marked s e s' v :
  step s e = Some s' -> v ∈ processed_urls s ->
  claims v (trace s') = claims v (trace s).
Proof.
  intros H Hv.
  destruct (step_own _ _ _ H) as (u & st & st' & P & d & t & _ & Hm & _ & _ & _ & ->).
  rewrite claims_app, (moves_claims_marked _ _ _ _ _ _ _ _ _ Hm Hv). lia.
Qed.

Lemma run_claims_marked evs s s' v :
  run s evs = Some s' -> v ∈ processed_urls s ->
  claims v (trace s') = claims v (trace s).
Proof.
  revert s. induction evs as [|e evs IH]; intros s Hrun Hv.
  - now injection Hrun as <-.
  - simpl in Hrun. destruct (step s e) as [s1|] eqn:E; [|discriminate].
    rewrite (IH _ Hrun), (step_claims_marked _ _ _ _ E Hv); [reflexivity|].
    eapply step_subset; eauto.
Qed.

Lemma listing_from_claims v page_url replies n a :
  claims v (listing_from n a page_url replies).2 = 0%nat.
Proof.
  revert a. induction n as [|n IH]; intros a; [reflexivity|].
  cbn [listing_from]. destruct (attempt_listing _ _); [reflexivity|].
  specialize (IH (a + 1)).
  destruct (listing_from n (a + 1) page_url replies) as [res t]. exact IH.
Qed.

(** Along the page loop a marked URL stays marked and is let through by
    no later check. *)
Lemma crawl_claims_marked fuel w page_num page_url s v :
  v ∈ processed_urls s ->
  let s' := state_of (process_listing_pages fuel w page_num page_url s) in
  (v ∈ processed_urls s') /\ claims v (trace s') = claims v (trace s).
Proof.
  revert page_num page_url s.
  induction fuel as [|fuel IH]; intros page_num page_url s Hv; [cbn; auto|].
  cbn [process_listing_pages].
  destruct (is_empty page_url); [cbn; auto|].
  pose proof (listing_from_claims v page_url (listing_replies w page_num)
                (Z.to_nat max_retries) 0) as Hl.
  unfold _extract_car_urls_and_next_page.
  destruct (listing_from _ _ _ _) as [[car_urls next_page_url] t]. cbn [snd] in Hl.
  set (s1 := log s (ProcessingPage page_num page_url :: t)).
  assert (H1 : (v ∈ processed_urls s1) /\ claims v (trace s1) = claims v (trace s)).
  { split; [exact Hv|]. subst s1. cbn [log trace]. rewrite claims_app.
    change (claims v (ProcessingPage page_num page_url :: t)) with (claims v t). lia. }
  case_bool_decide; [cbn [state_of]; exact H1|].
  destruct (concurrency <? 0); [cbn [state_of]; exact H1|].
  assert (H3 : forall s3,
             process_batch s1 car_urls (schedules w page_num) = Some s3 ->
             (v ∈ processed_urls s3) /\ claims v (trace s3) = claims v (trace s)).
  { intros s3 Hb.
    apply process_batch_some in Hb as (_ & _ & evs1 & _ & Hrun).
    split; [eapply run_subset; eauto; apply H1|].
    rewrite (run_claims_marked _ _ _ _ Hrun); apply H1. }
  destruct (process_batch s1 car_urls _) as [s3|].
  2:{ cbn [state_of].
      destruct (run_prefix_run (schedules w page_num) (spawn s1 car_urls))
        as (evs1 & _ & Hr).
      split; [eapply run_subset; eauto; apply H1|].
      rewrite (run_claims_marked _ _ _ _ Hr); apply H1. }
  destruct (H3 s3 eq_refl) as [Hv3 Hc3].
  destruct next_page_url as [[|c n]|]; cbn [state_of]; auto.
  destruct (IH (page_num + 1) (c :: n) (log s3 [Sleep 1]) Hv3) as [Hv' Hc'].
  split; [exact Hv'|]. rewrite Hc'. cbn [log trace]. rewrite claims_app.
  change (claims v [Sleep 1]) with 0%nat. lia.
Qed.

Lemma spawn_unmarked s car_urls i u st :
  tasks (spawn s car_urls) !! i = Some (u, st) ->
  (u ∉ processed_urls s) /\ u ∈ car_urls.
Proof.
  unfold spawn. cbn [tasks]. rewrite list_lookup_fmap.
  destruct (filter _ car_urls !! i) as [v|] eqn:E; [|discriminate].
  cbn. intros [= <- _]. apply list_elem_of_lookup_2 in E.
  now apply list_elem_of_filter in E.
Qed.

(** C2, amended.  A processing attempt passes the deduplication check
    exactly when its URL is not in [processed_urls] at the moment of the
    check.  A URL in the set gets no task when a batch is made, and a task
    of it that is let in is skipped: it returns false, extracts nothing
    and leaves the table as it is.  From the moment a URL is marked no
    check lets it through again, under every interleaving of the batch
    and on every later page of the run.  A URL that is not marked (its
    extraction failed, or is still going on in another task) passes the
    check again. *)
Theorem dedup_check_follows_mark (s : scraper) :
  (forall car_urls i u st,
     tasks (spawn s car_urls) !! i = Some (u, st) ->
     (u ∉ processed_urls s) /\ u ∈ car_urls)
  /\ (forall i ld s',
        step s (Start i ld) = Some s' ->
        exists u,
          tasks s !! i = Some (u, Pending) /\
          (((u ∈ processed_urls s) /\
            tasks s' !! i = Some (u, Finished (Returned false)) /\
            trace s' = trace s /\ db s' = db s /\
            processed_urls s' = processed_urls s)
           \/ ((u ∉ processed_urls s) /\
               claims u (trace s') = S (claims u (trace s)))))
  /\ (forall evs s' u,
        run s evs = Some s' -> u ∈ processed_urls s ->
        (u ∈ processed_urls s') /\ claims u (trace s') = claims u (trace s))
  /\ (forall fuel w page_num page_url u,
        u ∈ processed_urls s ->
        let s' := state_of (process_listing_pages fuel w page_num page_url s) in
        (u ∈ processed_urls s') /\ claims u (trace s') = claims u (trace s)).
Proof.
  split; [apply spawn_unmarked|].
  split.
  - intros i ld s' H.
    destruct (step_own _ _ _ H) as (u & st & st' & P & d & t & Hi & Hm & Hi' & HP & Hd & Ht).
    cbn [task_of] in *.
    destruct (moves_claims_start _ _ _ _ _ _ _ _ _ Hm)
      as [-> [(Hu & -> & -> & -> & ->)|(Hu & Hc & _)]].
    + exists u. split; [assumption|]. left. rewrite app_nil_r in Ht. auto 6.
    + exists u. split; [assumption|]. right. split; [assumption|].
      rewrite Ht, claims_app, Hc. lia.
  - split.
    + intros evs s' u Hrun Hu. split; [eapply run_subset; eauto|].
      eapply run_claims_marked; eauto.
    + intros fuel w page_num page_url u Hu. now apply crawl_claims_marked.
Qed.

(** ** The page loop and the batch *)


Lemma all_finished_lookup s i u st :
  all_finished s = true -> tasks s !! i = Some (u, st) -> is_finished st = true.
Proof.
  unfold all_finished. intros H Hi.
  rewrite forallb_forall in H. apply (H (u, st)).
  apply list_elem_of_In. eapply list_elem_of_lookup_2; eauto.
Qed.


Lemma run_length evs s s' :
  run s evs = Some s' -> length (tasks s') = length (tasks s).
Proof.
  revert s. induction evs as [|e evs IH]; intros s Hrun.
  - now injection Hrun as <-.
  - simpl in Hrun. destruct (step s e) as [s1|] eqn:E; [|discriminate].
    rewrite (IH _ Hrun). eapply step_length; eauto.
Qed.

Lemma total_saved_results s :
  all_finished s = true ->
  total saved (tasks s) = Z.of_nat (success_count (results s)) /\
  total raised (tasks s) = Z.of_nat (error_count (results s)).
Proof.
  unfold all_finished, results, success_count, error_count.
  induction (tasks s) as [|[u st] ts IH]; [cbn; auto|].
  cbn [forallb snd]. intros H. apply andb_prop in H as [Hst Hts].
  destruct (IH Hts) as [IH1 IH2].
  destruct st as [ | | |[[|]|]]; try discriminate; cbn in *; lia.
Qed.

Lemma finished_no_step s e : all_finished s = true -> step s e = None.
Proof.
  intros Hf. destruct (step s e) as [s'|] eqn:E; [|reflexivity].
  destruct (step_shape _ _ _ E) as (u & st & st' & Hi & _ & _ & Hw & _).
  pose proof (all_finished_lookup _ _ _ _ Hf Hi) as Hst.
  destruct st; try discriminate. pose proof (weight_nonneg st'). cbn in Hw. lia.
Qed.











(** ** Marking a URL as processed *)




(** ** A task and the sequential extraction *)

Lemma extract_from_success car_url loads cd j n a :
  (j < n)%nat ->
  Z.of_nat j + a < max_retries ->
  (forall i : nat, (i < j)%nat ->
     attempt_page car_url (loads (a + Z.of_nat i)) = None) ->
  attempt_page car_url (loads (a + Z.of_nat j)) = Some cd ->
  (extract_from n a car_url loads).1 = Some cd.
Proof.
  revert n a. induction j as [|j IH]; intros n a Hlt Hr Hfail Hok.
  - destruct n as [|n]; [lia|]. cbn [extract_from].
    rewrite Z.add_0_r in Hok. now rewrite Hok.
  - destruct n as [|n]; [lia|]. cbn [extract_from].
    pose proof (Hfail O ltac:(lia)) as H0. rewrite Z.add_0_r in H0. rewrite H0.
    destruct (Z.ltb_spec a (max_retries - 1)); [|lia].
    specialize (IH n (a + 1) ltac:(lia) ltac:(lia)).
    destruct (extract_from n (a + 1) car_url loads) as [r t]. apply IH.
    + intros i Hi. specialize (Hfail (S i) ltac:(lia)).
      now replace (a + 1 + Z.of_nat i) with (a + Z.of_nat (S i)) by lia.
    + now replace (a + 1 + Z.of_nat j) with (a + Z.of_nat (S j)) by lia.
Qed.

(** The segments of one task, from its attempt [a] on, do what the loop of
    [_extract_car_data] does from its iteration [a] on. *)
Lemma attempts_refine loads i u n a s :
  (i < length (tasks s))%nat ->
  Z.of_nat n = max_retries - a -> (0 < n)%nat ->
  exists evs s',
    run (run_attempt s i u a (loads a)) evs = Some s' /\
    trace s' = trace s ++ (extract_from n a u loads).2 /\
    db s' = db s /\
    match (extract_from n a u loads).1 with
    | Some cd =>
        tasks s' !! i = Some (u, Saving cd) /\
        processed_urls s' = {[u]} ∪ processed_urls s
    | None =>
        tasks s' !! i = Some (u, Finished (Returned false)) /\
        processed_urls s' = processed_urls s
    end.
Proof.
  revert a s. induction n as [|n IH]; intros a s Hi Hn Hpos; [lia|].
  cbn [extract_from]. unfold run_attempt.
  destruct (attempt_page u (loads a)) as [cd|] eqn:Ha.
  - eexists [], _. split; [reflexivity|]. cbn.
    repeat split; auto. now apply list_lookup_insert_eq.
  - destruct (Z.ltb_spec a (max_retries - 1)) as [Hr|Hr].
    + set (s1 := set_task (log s [DetailGet u; Sleep (a + 1)]) i u (Backoff a)).
      assert (Hi1 : tasks s1 !! i = Some (u, Backoff a))
        by (subst s1; cbn; now apply list_lookup_insert_eq).
      destruct (IH (a + 1) s1) as (evs & s' & Hrun & Ht & Hd & Hres).
      { subst s1. cbn. now rewrite length_insert. }
      { lia. }
      { lia. }
      exists (Wake i (loads (a + 1)) :: evs), s'.
      split; [cbn [run step]; now rewrite Hi1|].
      destruct (extract_from n (a + 1) u loads) as [r t]. cbn [fst snd] in *.
      split; [rewrite Ht; subst s1; cbn; now rewrite <- app_assoc|].
      split; [exact Hd|exact Hres].
    + eexists [], _. split; [reflexivity|]. cbn.
      repeat split; auto. now apply list_lookup_insert_eq.
Qed.

(** A task that is let in on an unmarked URL and runs to its next wait for
    the database, or to its end, loads and sleeps as [_extract_car_data]
    does, marks the URL when a record comes back and returns false when
    none does. *)
Lemma task_runs_extraction loads i u s :
  tasks s !! i = Some (u, Pending) -> 0 < sem_value s -> u ∉ processed_urls s ->
  exists evs s',
    run s evs = Some s' /\
    trace s' = trace s ++ (_extract_car_data u loads).2 /\
    db s' = db s /\
    match (_extract_car_data u loads).1 with
    | Some cd =>
        tasks s' !! i = Some (u, Saving cd) /\
        processed_urls s' = {[u]} ∪ processed_urls s
    | None =>
        tasks s' !! i = Some (u, Finished (Returned false)) /\
        processed_urls s' = processed_urls s
    end.
Proof.
  intros Hi Hs Hu.
  assert (Hlen : (i < length (tasks s))%nat) by (eapply lookup_lt_Some; eauto).
  assert (Hstep : step s (Start i (loads 0)) =
            Some (if 0 <? max_retries
                  then run_attempt (log (acquire s) [Extracting u]) i u 0 (loads 0)
                  else finish (log (acquire s) [Extracting u]) i u (Returned false))).
  { cbn [step]. rewrite Hi. destruct (Z.ltb_spec 0 (sem_value s)); [|lia].
    cbn [acquire processed_urls]. rewrite bool_decide_eq_false_2 by assumption.
    now destruct (0 <? max_retries). }
  unfold _extract_car_data.
  destruct (Z.ltb_spec 0 max_retries) as [Hr|Hr].
  - destruct (attempts_refine loads i u (Z.to_nat max_retries) 0
                (log (acquire s) [Extracting u]))
      as (evs & s' & Hrun & Ht & Hd & Hres); [exact Hlen|lia|lia|].
    exists (Start i (loads 0) :: evs), s'.
    split; [cbn [run]; now rewrite Hstep|].
    destruct (extract_from _ 0 u loads) as [r t]. cbn [fst snd log trace] in *.
    split; [rewrite Ht; now rewrite <- app_assoc|]. split; [exact Hd|exact Hres].
  - exists [Start i (loads 0)], (finish (log (acquire s) [Extracting u]) i u (Returned false)).
    split; [cbn [run]; now rewrite Hstep|].
    replace (Z.to_nat max_retries) with O by lia. cbn.
    repeat split; auto. now apply list_lookup_insert_eq.
Qed.

(** ** The page loop *)

Lemma pages_of_app t1 t2 : pages_of (t1 ++ t2) = pages_of t1 ++ pages_of t2.
Proof. apply omap_app. Qed.

Lemma listing_gets_app t1 t2 :
  listing_gets (t1 ++ t2) = (listing_gets t1 + listing_gets t2)%nat.
Proof. unfold listing_gets. now rewrite List.filter_app, length_app. Qed.

Lemma listing_from_pages page_url replies n a :
  pages_of (listing_from n a page_url replies).2 = [].
Proof.
  revert a. induction n as [|n IH]; intros a; [reflexivity|].
  cbn [listing_from]. destruct (attempt_listing _ _); [reflexivity|].
  specialize (IH (a + 1)).
  destruct (listing_from n (a + 1) page_url replies) as [res t]. exact IH.
Qed.

(** The tasks fetch no listing page and begin no page. *)
Lemma moves_no_listing s e u st st' P d t :
  moves s e u st st' P d t -> listing_gets t = 0%nat /\ pages_of t = [].
Proof. intros H. inversion H; subst; split; reflexivity. Qed.

Lemma run_no_listing evs s s' :
  run s evs = Some s' ->
  listing_gets (trace s') = listing_gets (trace s) /\
  pages_of (trace s') = pages_of (trace s).
Proof.
  revert s. induction evs as [|e evs IH]; intros s Hrun.
  - now injection Hrun as <-.
  - simpl in Hrun. destruct (step s e) as [s1|] eqn:E; [|discriminate].
    destruct (IH _ Hrun) as [-> ->].
    destruct (step_own _ _ _ E) as (u & st & st' & P & d & t & _ & Hm & _ & _ & _ & ->).
    destruct (moves_no_listing _ _ _ _ _ _ _ _ Hm) as [Hg Hp].
    rewrite listing_gets_app, pages_of_app, Hg, Hp, app_nil_r. split; [lia|reflexivity].
Qed.

Lemma run_prefix_no_listing evs s :
  listing_gets (trace (run_prefix s evs)) = listing_gets (trace s) /\
  pages_of (trace (run_prefix s evs)) = pages_of (trace s).
Proof.
  destruct (run_prefix_run evs s) as (evs1 & _ & Hr).
  exact (run_no_listing _ _ _ Hr).
Qed.

Lemma process_batch_no_listing s car_urls evs s3 :
  process_batch s car_urls evs = Some s3 ->
  listing_gets (trace s3) = listing_gets (trace s) /\
  pages_of (trace s3) = pages_of (trace s).
Proof.
  intros Hb. apply process_batch_some in Hb as (_ & _ & evs1 & _ & Hrun).
  apply (run_no_listing _ _ _ Hrun).
Qed.

Lemma crawl_pages fuel w page_num page_url s :
  exists visited,
    pages_of (trace (state_of (process_listing_pages fuel w page_num page_url s))) =
      pages_of (trace s) ++ visited /\
    visited `prefix_of` pagination fuel w page_num page_url /\
    match process_listing_pages fuel w page_num page_url s with
    | Done _ | OutOfFuel _ => visited = pagination fuel w page_num page_url
    | _ => True
    end.
Proof.
  revert page_num page_url s.
  induction fuel as [|fuel IH]; intros page_num page_url s.
  { exists []. cbn. rewrite app_nil_r. auto. }
  cbn [process_listing_pages pagination].
  destruct (is_empty page_url).
  { exists []. cbn. rewrite app_nil_r. auto. }
  pose proof (listing_from_pages page_url (listing_replies w page_num)
                (Z.to_nat max_retries) 0) as Hl.
  unfold _extract_car_urls_and_next_page.
  destruct (listing_from _ _ _ _) as [[car_urls next_page_url] t]. cbn [snd fst] in *.
  set (s1 := log s (ProcessingPage page_num page_url :: t)).
  assert (H1 : pages_of (trace s1) = pages_of (trace s) ++ [(page_num, page_url)]).
  { subst s1. cbn [log trace]. rewrite pages_of_app. f_equal.
    change (pages_of (ProcessingPage page_num page_url :: t))
      with ((page_num, page_url) :: pages_of t). now rewrite Hl. }
  case_bool_decide as Hc.
  { subst car_urls. exists [(page_num, page_url)]. cbn [state_of]. auto. }
  destruct car_urls as [|u0 car_urls]; [congruence|].
  assert (Hpre : forall l, [(page_num, page_url)] `prefix_of` (page_num, page_url) :: l)
    by (intros l; now exists l).
  destruct (concurrency <? 0).
  { exists [(page_num, page_url)]. cbn [state_of]. auto. }
  destruct (process_batch s1 (u0 :: car_urls) _) as [s3|] eqn:Hb.
  2:{ exists [(page_num, page_url)]. cbn [state_of].
      destruct (run_prefix_no_listing (schedules w page_num)
                  (spawn s1 (u0 :: car_urls))) as [_ ->].
      cbn [spawn trace]. auto. }
  destruct (process_batch_no_listing _ _ _ _ Hb) as [_ H3].
  destruct next_page_url as [[|c n]|].
  - exists [(page_num, page_url)]. cbn [state_of]. rewrite H3. auto.
  - destruct (IH (page_num + 1) (c :: n) (log s3 [Sleep 1])) as (visited & Hv & Hp & Hd).
    exists ((page_num, page_url) :: visited). split; [|split].
    + rewrite Hv. cbn [log trace]. rewrite pages_of_app, H3, H1, app_nil_r.
      now rewrite <- app_assoc.
    + now apply prefix_cons.
    + destruct (process_listing_pages fuel w _ _ _); auto; now rewrite Hd.
  - exists [(page_num, page_url)]. cbn [state_of]. rewrite H3. auto.
Qed.

(** C5.  With a semaphore of at least one permit.  On a page whose
    fetch returns no car the loop is left at once.  On a page that lists
    cars the batch is finite: every execution of it has a bounded number
    of segments and goes on to one after which no task can be resumed.
    When the schedule of the page is such an execution, [gather] returns;
    the loop is then left, if the fetch returned no next page, and no
    listing page is fetched after this one; otherwise the loop goes on,
    after one sleep of [request_delay], with the next page the fetch
    returned.  (A schedule that stops while a task can still be resumed
    shows the loop waiting for the batch.)  The pages a run begins are
    therefore a prefix of the pagination order, and the whole of it for a
    run that ends or runs out of fuel. *)
Theorem page_loop_follows_pagination (fuel : nat) (w : world) (page_num : Z)
    (page_url : str) (s : scraper) (car_urls : list str)
    (next_page_url : option str) (t : list effect) :
  page_url <> [] ->
  0 < concurrency ->
  _extract_car_urls_and_next_page page_url (listing_replies w page_num) =
    ((car_urls, next_page_url), t) ->
  let s1 := log s (ProcessingPage page_num page_url :: t) in
  let s3 := run_prefix (spawn s1 car_urls) (schedules w page_num) in
  (car_urls = [] ->
     process_listing_pages (S fuel) w page_num page_url s = Done s1)
  /\ (forall evs s',
        run (spawn s1 car_urls) evs = Some s' ->
        Z.of_nat (length evs) <= total weight (tasks (spawn s1 car_urls)) /\
        exists evs' s'',
          run (spawn s1 car_urls) (evs ++ evs') = Some s'' /\
          forall e, step s'' e = None)
  /\ (car_urls <> [] ->
        (forall e, step s3 e = None) ->
        process_batch s1 car_urls (schedules w page_num) = Some s3 /\
        listing_gets (trace s3) = listing_gets (trace s1) /\
        (next_page_url = None \/ next_page_url = Some [] ->
           process_listing_pages (S fuel) w page_num page_url s = Done s3) /\
        (forall c n,
           next_page_url = Some (c :: n) ->
           process_listing_pages (S fuel) w page_num page_url s =
             process_listing_pages fuel w (page_num + 1) (c :: n)
               (log s3 [Sleep 1])))
  /\ (car_urls <> [] ->
        (exists e s', step s3 e = Some s') ->
        process_listing_pages (S fuel) w page_num page_url s = Stuck s3)
  /\ (exists visited,
        pages_of (trace (state_of (process_listing_pages fuel w page_num page_url s))) =
          pages_of (trace s) ++ visited /\
        visited `prefix_of` pagination fuel w page_num page_url /\
        match process_listing_pages fuel w page_num page_url s with
        | Done _ | OutOfFuel _ => visited = pagination fuel w page_num page_url
        | _ => True
        end).
Proof.
  intros Hne Hc Hp s1 s3.
  assert (He : is_empty page_url = false)
    by (destruct page_url; [now elim Hne|reflexivity]).
  assert (Hbal : forall evs s', run (spawn s1 car_urls) evs = Some s' ->
                   0 < in_flight s' + sem_value s').
  { intros evs s' Hrun. destruct (run_balance _ _ _ Hrun) as [Hb _]; [cbn; lia|].
    rewrite spawn_in_flight in Hb. cbn [spawn sem_value] in Hb. lia. }
  assert (Hloop : car_urls <> [] ->
            process_listing_pages (S fuel) w page_num page_url s =
            match process_batch s1 car_urls (schedules w page_num) with
            | None => Stuck s3
            | Some s4 =>
                match next_page_url with
                | Some (c :: n) =>
                    process_listing_pages fuel w (page_num + 1) (c :: n)
                      (log s4 [Sleep 1])
                | _ => Done s4
                end
            end).
  { intros Hcars. cbn [process_listing_pages]. rewrite He, Hp.
    rewrite bool_decide_eq_false_2 by assumption.
    destruct (Z.ltb_spec concurrency 0); [lia|]. reflexivity. }
  split; [|split; [|split; [|split]]].
  - intros ->. cbn [process_listing_pages]. rewrite He, Hp.
    now rewrite bool_decide_eq_true_2.
  - intros evs s' Hrun. split.
    { pose proof (run_measure _ _ _ Hrun) as Hm.
      pose proof (total_nonneg weight (tasks s') weight_nonneg). lia. }
    destruct (batch_completes s' (Hbal _ _ Hrun)) as (evs' & s'' & Hg).
    unfold gather in Hg. destruct (all_finished _) eqn:Hf; [|discriminate].
    injection Hg as <-.
    destruct (run_prefix_run evs' s') as (evs1 & _ & Hr1).
    exists evs1, (run_prefix s' evs'). split.
    + now rewrite (run_app _ evs1 _ _ Hrun).
    + intros e. now apply finished_no_step.
  - intros Hcars Hmax.
    destruct (run_prefix_run (schedules w page_num) (spawn s1 car_urls))
      as (evs1 & _ & Hr1). fold s3 in Hr1.
    assert (Hf : all_finished s3 = true).
    { destruct (all_finished s3) eqn:Hf; [reflexivity|].
      destruct (batch_progress s3 (Hbal _ _ Hr1) Hf) as (e & s' & Hstep).
      rewrite Hmax in Hstep. discriminate. }
    assert (Hb : process_batch s1 car_urls (schedules w page_num) = Some s3)
      by (rewrite process_batch_run_prefix; fold s3; now rewrite Hf).
    split; [exact Hb|].
    split; [apply (process_batch_no_listing _ _ _ _ Hb)|].
    rewrite (Hloop Hcars), Hb. split.
    + now intros [-> | ->].
    + now intros c n ->.
  - intros Hcars (e & s' & Hstep).
    assert (Hf : all_finished s3 = false).
    { destruct (all_finished s3) eqn:Hf; [|reflexivity].
      rewrite (finished_no_step _ e Hf) in Hstep. discriminate. }
    rewrite (Hloop Hcars), process_batch_run_prefix. fold s3. now rewrite Hf.
  - apply crawl_pages.
Qed.
(** ** Price and phone parsers *)

Lemma digits_fold_nonneg (s : str) (z : Z) :
  0 <= z ->
  0 <= fold_left (fun acc c => 10 * acc + Z.of_N (default 0%N (decimal_value c))) s z.
Proof.
  revert z. induction s as [|c s IH]; intros z Hz; [exact Hz|].
  cbn [fold_left]. apply IH. lia.
Qed.

Lemma digits_value_nonneg (s : str) : 0 <= digits_value s.
Proof. apply digits_fold_nonneg. lia. Qed.

Lemma extract_price_digits (s : str) :
  _extract_price s =
    if is_empty (digits_of s) then Some 0 else py_int (digits_of s).
Proof.
  unfold _extract_price. destruct s as [|c s]; [reflexivity|reflexivity].
Qed.

Lemma extract_price_nonneg (s : str) (z : Z) : _extract_price s = Some z -> 0 <= z.
Proof.
  rewrite extract_price_digits.
  destruct (is_empty (digits_of s)); [intros [= <-]; lia|].
  unfold py_int. destruct (_ && _); [discriminate|].
  intros [= <-]. apply digits_value_nonneg.
Qed.

(** X1.  The price parser and the phone parser are one function of the
    decimal digits of the text: two texts with the same digits give the
    same result, whatever else they hold.  The result is never negative,
    and the conversion raises exactly when the text holds more digits than
    a conversion limit that is switched on allows. *)
Theorem price_depends_on_digits (s1 s2 : str) :
  (digits_of s1 = digits_of s2 -> _extract_price s1 = _extract_price s2)
  /\ _extract_phone_number s1 = _extract_price s1
  /\ (forall z, _extract_price s1 = Some z -> 0 <= z)
  /\ (_extract_price s1 = None <->
      int_max_str_digits <> 0%N /\
      (int_max_str_digits < N.of_nat (length (digits_of s1)))%N).
Proof.
  split; [|split; [|split]].
  - intros H. now rewrite !extract_price_digits, H.
  - reflexivity.
  - intros z. apply extract_price_nonneg.
  - rewrite extract_price_digits. unfold py_int.
    destruct (digits_of s1) as [|c d] eqn:E.
    + cbn [is_empty length]. split; [discriminate|]. intros [_ H]. lia.
    + cbn [is_empty].
      destruct (N.eqb_spec int_max_str_digits 0) as [H0|H0];
        destruct (N.ltb_spec int_max_str_digits (N.of_nat (length (c :: d))));
        cbn [negb andb];
        (split; [try discriminate; intros _; split; assumption
                |intros [Hn Hl]; try reflexivity; try contradiction; lia]).
Qed.

Lemma decimal_value_digit (d : N) :
  (d < 10)%N -> decimal_value (48 + d) = Some d.
Proof.
  intros Hd. unfold decimal_value.
  destruct (N.leb_spec 48 (48 + d)); [|lia].
  destruct (N.leb_spec (48 + d) 57); [|lia].
  cbn. f_equal. lia.
Qed.

Lemma numeral_from_value fuel (n : N) (acc : str) :
  (n < 10 * 2 ^ N.of_nat fuel)%N ->
  fold_left (fun a c => 10 * a + Z.of_N (default 0%N (decimal_value c)))
    (numeral_from fuel n acc) 0 =
  fold_left (fun a c => 10 * a + Z.of_N (default 0%N (decimal_value c)))
    acc (Z.of_N n).
Proof.
  revert n acc. induction fuel as [|fuel IH]; intros n acc Hn.
  - cbn [numeral_from fold_left]. cbn in Hn.
    rewrite N.mod_small by lia. rewrite decimal_value_digit by lia.
    cbn. reflexivity.
  - cbn [numeral_from]. destruct (N.ltb_spec n 10) as [Hlt|Hge].
    + cbn [fold_left]. rewrite N.mod_small by lia.
      rewrite decimal_value_digit by lia. cbn. reflexivity.
    + pose proof (N.div_mod n 10 ltac:(lia)) as Hdm.
      assert (Hm : (n mod 10 < 10)%N) by (apply N.mod_lt; lia).
      remember (n / 10)%N as q eqn:Eq. remember (n mod 10)%N as m eqn:Em.
      rewrite IH.
      * cbn [fold_left]. rewrite decimal_value_digit by exact Hm.
        change (default 0%N (Some m)) with m. f_equal. lia.
      * replace (N.of_nat (S fuel)) with (N.succ (N.of_nat fuel)) in Hn by lia.
        rewrite N.pow_succ_r' in Hn. lia.
Qed.

Lemma numeral_value (n : N) : digits_value (numeral n) = Z.of_N n.
Proof.
  unfold digits_value, numeral. rewrite numeral_from_value; [reflexivity|].
  rewrite N2Nat.id. pose proof (N.size_gt n) as H.
  remember (2 ^ N.size n)%N as p. lia.
Qed.

Lemma numeral_from_nonempty fuel n acc : numeral_from fuel n acc <> [].
Proof.
  revert n acc. induction fuel as [|fuel IH]; intros n acc; cbn [numeral_from];
    [discriminate|]. destruct (n <? 10)%N; [discriminate|apply IH].
Qed.

(** X2.  Reading back a number: a text whose decimal digits are the
    numeral of [n], with any other characters before, between and after
    them, gives [n] as price and as phone number, as long as the numeral is
    within the conversion limit. *)
Theorem price_reads_numeral (n : N) (s : str) :
  digits_of s = numeral n ->
  within_limit (numeral n) ->
  _extract_price s = Some (Z.of_N n) /\
  _extract_phone_number s = Some (Z.of_N n).
Proof.
  intros Hd Hl.
  assert (H : _extract_price s = Some (Z.of_N n)); [|split; exact H].
  rewrite extract_price_digits, Hd.
  destruct (numeral n) as [|c d] eqn:E;
    [now destruct (numeral_from_nonempty (N.to_nat (N.size n)) n [])|].
  cbn [is_empty]. unfold py_int.
  replace (negb (int_max_str_digits =? 0)%N &&
           (int_max_str_digits <? N.of_nat (length (c :: d)))%N) with false.
  - rewrite <- E, numeral_value. reflexivity.
  - symmetry. destruct Hl as [-> | Hl]; [reflexivity|].
    destruct (N.ltb_spec int_max_str_digits (N.of_nat (length (c :: d))));
      [lia|apply andb_false_r].
Qed.

(** ** Reading a detail page *)

Lemma phone_filter_blanks (blanks : list str) :
  Forall blank blanks ->
  List.filter (fun t => negb (is_empty t))
    (map strip (List.filter (fun t => negb (is_empty t)) blanks)) = [].
Proof.
  induction 1 as [|b blanks Hb _ IH]; [reflexivity|].
  cbn [List.filter]. destruct b as [|c b]; [exact IH|].
  cbn [is_empty negb map List.filter]. unfold blank in Hb. rewrite Hb. exact IH.
Qed.

(** X3.  The phone number of a record comes from the first revealed
    element whose text is not blank: elements with blank text before it are
    skipped and every element after it is ignored.  Without the reveal, or
    with no element of class [phone], the field takes its default, and with
    only blank elements the number is 0. *)
Theorem phone_from_first_text (p : detail_page) :
  (forall blanks t rest,
     phone_revealed p = true ->
     phone_texts p = blanks ++ t :: rest ->
     Forall blank blanks -> ~ blank t ->
     phone_of p = _extract_phone_number (strip t))
  /\ (phone_revealed p = false \/ phone_texts p = [] -> phone_of p = None)
  /\ (phone_revealed p = true -> phone_texts p <> [] ->
      Forall blank (phone_texts p) -> phone_of p = Some 0).
Proof.
  unfold phone_of. split; [|split].
  - intros blanks t rest Hr Ht Hb Hn. rewrite Hr, Ht.
    assert (Hne : t <> []) by (intros ->; now apply Hn).
    destruct (blanks ++ t :: rest) as [|x xs] eqn:E;
      [now destruct blanks|]. rewrite <- E.
    rewrite List.filter_app, map_app, List.filter_app, phone_filter_blanks by assumption.
    rewrite app_nil_l. destruct t as [|c t]; [congruence|].
    cbn [is_empty negb map List.filter].
    destruct (strip (c :: t)) as [|c' t'] eqn:Es; [now elim Hn|]. reflexivity.
  - intros [-> | ->]; [reflexivity|]. now destruct (phone_revealed p).
  - intros -> Hne Hb. destruct (phone_texts p) as [|x xs] eqn:E; [congruence|].
    now rewrite phone_filter_blanks.
Qed.

(** The fields of a record, one by one. *)
Lemma read_fields_inv (car_url : str) (p : detail_page) (cd : car_data) :
  read_fields car_url p = Some cd ->
  exists t pt,
    title_text p = Some t /\ price_text p = Some pt /\
    _extract_price (strip pt) = Some (price_usd cd) /\
    url cd = car_url /\ title cd = strip t /\
    odometer cd = try_or 0 (_extract_odometer <$> (strip <$> odometer_text p)) /\
    phone_number cd = try_or 0 (phone_of p) /\
    images_count cd = try_or 0 (Z.of_nat <$> preview_items p).
Proof.
  unfold read_fields. destruct (title_text p) as [t|]; [|discriminate].
  destruct (price_text p) as [pt|]; [|discriminate]. cbn.
  destruct (_extract_price (strip pt)) as [z|] eqn:E; [|discriminate].
  cbn. intros [= <-]. exists t, pt. cbn. auto 10.
Qed.

Lemma phone_of_nonneg (p : detail_page) (z : Z) : phone_of p = Some z -> 0 <= z.
Proof.
  unfold phone_of. destruct (phone_revealed p); [|discriminate].
  destruct (phone_texts p); [discriminate|]. apply extract_price_nonneg.
Qed.

Lemma extract_odometer_nonneg (t : str) : 0 <= _extract_odometer t.
Proof.
  rewrite extract_odometer_km.
  destruct (search_number t) as [[whole frac]|]; [|lia].
  apply km_of_decimal_nonneg.
Qed.

Lemma read_fields_nonneg (car_url : str) (p : detail_page) (cd : car_data) :
  read_fields car_url p = Some cd ->
  url cd = car_url /\ 0 <= price_usd cd /\ 0 <= odometer cd /\
  0 <= phone_number cd /\ 0 <= images_count cd.
Proof.
  intros H. destruct (read_fields_inv _ _ _ H)
    as (t & pt & _ & _ & Hp & Hu & _ & Ho & Hph & Hi).
  split; [exact Hu|]. split; [eapply extract_price_nonneg; eauto|].
  rewrite Ho, Hph, Hi. unfold try_or. split; [|split].
  - destruct (odometer_text p); cbn; [apply extract_odometer_nonneg|lia].
  - destruct (phone_of p) as [z|] eqn:E; cbn; [eapply phone_of_nonneg; eauto|lia].
  - destruct (preview_items p); cbn; lia.
Qed.

(** X4.  A page that has loaded gives a record exactly when its title
    element and its price element are found and the price text is within
    the conversion limit; no other element of the page decides it. *)
Theorem read_fields_needs_title_and_price (car_url : str) (p : detail_page) :
  read_fields car_url p = None <->
  title_text p = None \/ price_text p = None \/
  exists pt, price_text p = Some pt /\ _extract_price (strip pt) = None.
Proof.
  unfold read_fields. split.
  - destruct (title_text p) as [t|]; [|auto].
    destruct (price_text p) as [pt|]; [|auto]. cbn.
    destruct (_extract_price (strip pt)) as [z|] eqn:E; [discriminate|].
    intros _. right. right. eauto.
  - intros [H|[H|(pt & H & E)]].
    + now rewrite H.
    + rewrite H. now destruct (title_text p).
    + rewrite H. destruct (title_text p); [|reflexivity]. cbn. now rewrite E.
Qed.

(** ** The retries of the detail extraction *)

Lemma extract_from_some car_url loads cd n a :
  (extract_from n a car_url loads).1 = Some cd ->
  exists j : nat, (j < n)%nat /\ attempt_page car_url (loads (a + Z.of_nat j)) = Some cd.
Proof.
  revert a. induction n as [|n IH]; intros a; [discriminate|].
  cbn [extract_from].
  destruct (attempt_page car_url (loads a)) as [cd'|] eqn:Ha.
  - cbn. intros [= ->]. exists O. rewrite Z.add_0_r. split; [lia|assumption].
  - destruct (a <? max_retries - 1); [|discriminate].
    specialize (IH (a + 1)).
    destruct (extract_from n (a + 1) car_url loads) as [r t]. cbn in *.
    intros H. destruct (IH H) as (j & Hj & Hok). exists (S j). split; [lia|].
    now replace (a + Z.of_nat (S j)) with (a + 1 + Z.of_nat j) by lia.
Qed.

(** X5.  A record that the detail extraction returns carries the URL it
    was asked for, and its price, odometer, phone number and image count
    are not negative; it was read at one of the attempts of the range. *)
Theorem extracted_record_well_formed (car_url : str) (loads : Z -> page_load)
    (cd : car_data) :
  (_extract_car_data car_url loads).1 = Some cd ->
  url cd = car_url /\ 0 <= price_usd cd /\ 0 <= odometer cd /\
  0 <= phone_number cd /\ 0 <= images_count cd /\
  exists a, 0 <= a < max_retries /\ attempt_page car_url (loads a) = Some cd.
Proof.
  unfold _extract_car_data.
  pose proof (extract_from_some car_url loads cd (Z.to_nat max_retries) 0) as H.
  destruct (extract_from _ _ _ _) as [r t]. cbn [fst] in *. intros Hr.
  destruct (H Hr) as (j & Hj & Hok). rewrite Z.add_0_l in Hok.
  assert (Hp : exists p, loads (Z.of_nat j) = Loaded p /\ read_fields car_url p = Some cd).
  { destruct (loads (Z.of_nat j)) as [|p]; [discriminate|]. eauto. }
  destruct Hp as (p & _ & Hf).
  destruct (read_fields_nonneg _ _ _ Hf) as (Hu & Hpr & Ho & Hph & Hi).
  repeat (split; [assumption|]). exists (Z.of_nat j). split; [lia|assumption].
Qed.

Lemma extract_from_success_trace car_url loads cd j n a :
  (j < n)%nat ->
  a + Z.of_nat j < max_retries ->
  (forall i : nat, (i < j)%nat ->
     attempt_page car_url (loads (a + Z.of_nat i)) = None) ->
  attempt_page car_url (loads (a + Z.of_nat j)) = Some cd ->
  extract_from n a car_url loads =
    (Some cd, failed_loads j a car_url ++ [DetailGet car_url]).
Proof.
  revert n a. induction j as [|j IH]; intros n a Hlt Hr Hfail Hok.
  - destruct n as [|n]; [lia|]. cbn [extract_from failed_loads].
    rewrite Z.add_0_r in Hok. now rewrite Hok.
  - destruct n as [|n]; [lia|]. cbn [extract_from failed_loads].
    pose proof (Hfail O ltac:(lia)) as H0. rewrite Z.add_0_r in H0. rewrite H0.
    destruct (Z.ltb_spec a (max_retries - 1)); [|lia].
    rewrite (IH n (a + 1)); [reflexivity|lia|lia| |].
    + intros i Hi. specialize (Hfail (S i) ltac:(lia)).
      now replace (a + 1 + Z.of_nat i) with (a + Z.of_nat (S i)) by lia.
    + now replace (a + 1 + Z.of_nat j) with (a + Z.of_nat (S j)) by lia.
Qed.

Lemma extract_from_fail_trace car_url loads n a :
  Z.of_nat (S n) = max_retries - a ->
  (forall i : nat, (i <= n)%nat ->
     attempt_page car_url (loads (a + Z.of_nat i)) = None) ->
  extract_from (S n) a car_url loads =
    (None, failed_loads n a car_url ++ [DetailGet car_url]).
Proof.
  revert a. induction n as [|n IH]; intros a Hn Hfail.
  - cbn [extract_from failed_loads].
    pose proof (Hfail O ltac:(lia)) as H0. rewrite Z.add_0_r in H0. rewrite H0.
    destruct (Z.ltb_spec a (max_retries - 1)); [lia|reflexivity].
  - remember (S n) as m. cbn [extract_from]. subst m. cbn [failed_loads].
    pose proof (Hfail O ltac:(lia)) as H0. rewrite Z.add_0_r in H0. rewrite H0.
    destruct (Z.ltb_spec a (max_retries - 1)); [|lia].
    rewrite (IH (a + 1)); [reflexivity|lia|].
    intros i Hi. specialize (Hfail (S i) ltac:(lia)).
    now replace (a + 1 + Z.of_nat i) with (a + Z.of_nat (S i)) by lia.
Qed.

Lemma extract_from_loads car_url loads n a :
  detail_gets (extract_from n a car_url loads).2 <= Z.of_nat n.
Proof.
  unfold detail_gets.
  revert a. induction n as [|n IH]; intros a; [simpl; lia|].
  cbn [extract_from].
  destruct (attempt_page _ _); [simpl; lia|].
  destruct (a <? max_retries - 1); [|simpl; lia].
  specialize (IH (a + 1)).
  destruct (extract_from n (a + 1) car_url loads) as [r t].
  simpl in *. lia.
Qed.

(** X6.  The detail extraction stops at the first attempt that gives a
    record; before it every failed attempt [a] (counted from 0) is followed
    by a sleep of [request_delay * (a + 1)].  When all [max_retries]
    attempts fail it returns no record, and, unlike the listing fetch, it
    does not sleep after the last one.  It never loads the page more than
    [max_retries] times. *)
Theorem detail_extraction_retries (car_url : str) (loads : Z -> page_load) :
  (forall (j : nat) cd,
     Z.of_nat j < max_retries ->
     (forall i : nat, (i < j)%nat ->
        attempt_page car_url (loads (Z.of_nat i)) = None) ->
     attempt_page car_url (loads (Z.of_nat j)) = Some cd ->
     _extract_car_data car_url loads =
       (Some cd, Extracting car_url :: failed_loads j 0 car_url ++ [DetailGet car_url]))
  /\ (0 < max_retries ->
      (forall i : nat, Z.of_nat i < max_retries ->
         attempt_page car_url (loads (Z.of_nat i)) = None) ->
      _extract_car_data car_url loads =
        (None, Extracting car_url ::
               failed_loads (Z.to_nat max_retries - 1) 0 car_url ++
               [DetailGet car_url]))
  /\ detail_gets (_extract_car_data car_url loads).2 <= Z.max 0 max_retries.
Proof.
  unfold _extract_car_data. split; [|split].
  - intros j cd Hj Hfail Hok.
    rewrite (extract_from_success_trace car_url loads cd j); auto; lia.
  - intros Hr Hfail.
    destruct (Z.to_nat max_retries) as [|n] eqn:E; [lia|].
    rewrite extract_from_fail_trace; [|lia|intros i Hi; apply Hfail; lia].
    now replace (S n - 1)%nat with n by lia.
  - pose proof (extract_from_loads car_url loads (Z.to_nat max_retries) 0) as H.
    destruct (extract_from _ _ _ _) as [r t]. cbn [snd] in *.
    unfold detail_gets in *. cbn [List.filter is_detail_get]. lia.
Qed.

(** ** The table under [save_car] and [save_cars_batch] *)

Lemma has_url_elem u rows : has_url u rows = true <-> u ∈ urls_of rows.
Proof. unfold has_url, urls_of. apply bool_decide_eq_true. Qed.

Lemma has_url_not_elem u rows : has_url u rows = false <-> u ∉ urls_of rows.
Proof. unfold has_url, urls_of. apply bool_decide_eq_false. Qed.

Lemma insert_or_ignore_spec rows cd t :
  exists new,
    (insert_or_ignore rows cd t).1 = rows ++ new /\
    ((insert_or_ignore rows cd t).2 = false /\ new = [] /\ url cd ∈ urls_of rows
     \/ (insert_or_ignore rows cd t).2 = true /\
        new = [{| row_data := cd; datetime_found := t |}] /\ url cd ∉ urls_of rows).
Proof.
  unfold insert_or_ignore. destruct (has_url (url cd) rows) eqn:E.
  - exists []. rewrite app_nil_r. apply has_url_elem in E. auto.
  - eexists. split; [reflexivity|]. apply has_url_not_elem in E. auto.
Qed.

Lemma insert_or_ignore_nodup rows cd t :
  NoDup (urls_of rows) -> NoDup (urls_of (insert_or_ignore rows cd t).1).
Proof.
  intros H. destruct (insert_or_ignore_spec rows cd t)
    as (new & -> & [(_ & -> & _)|(_ & -> & Hn)]).
  - now rewrite app_nil_r.
  - unfold urls_of in *. rewrite fmap_app. apply NoDup_app. split; [exact H|].
    split; [|apply NoDup_singleton].
    intros u Hu Hu'. cbn in Hu'. apply list_elem_of_singleton in Hu'. now subst u.
Qed.

Lemma insert_or_ignore_urls rows cd t u :
  u ∈ urls_of (insert_or_ignore rows cd t).1 <-> u ∈ urls_of rows \/ u = url cd.
Proof.
  destruct (insert_or_ignore_spec rows cd t)
    as (new & -> & [(_ & -> & Hin)|(_ & -> & _)]).
  - rewrite app_nil_r. split; [auto|]. intros [H| ->]; assumption.
  - unfold urls_of. rewrite fmap_app, elem_of_app. cbn.
    rewrite list_elem_of_singleton. reflexivity.
Qed.

(** X7.  [save_car] never removes or changes a row and never gives a URL
    a second row: the rows after a call are the rows before it, followed by
    at most one new row, which is the record of the call; the call returns
    true exactly when it added that row, and a call that raises changes
    nothing. *)
Theorem save_car_appends_once (d : database) (cd : car_data) (c : db_call) :
  NoDup (urls_of (cars d)) ->
  NoDup (urls_of (cars (save_car d cd c).1))
  /\ (exists new,
        cars (save_car d cd c).1 = cars d ++ new /\
        ((save_car d cd c).2 = Returned true /\
         new = [{| row_data := cd; datetime_found := now c |}] /\
         url cd ∉ urls_of (cars d)
         \/ (save_car d cd c).2 <> Returned true /\ new = []))
  /\ ((save_car d cd c).2 = Raised -> (save_car d cd c).1 = d).
Proof.
  intros Hnd. unfold save_car.
  destruct (negb (pool d) && negb (connect_ok c)).
  { cbn. split; [exact Hnd|]. split; [|reflexivity].
    exists []. rewrite app_nil_r. split; [reflexivity|]. right. split; [discriminate|reflexivity]. }
  destruct (execute_ok c && columns_fit cd).
  - pose proof (insert_or_ignore_nodup (cars d) cd (now c) Hnd) as Hnd'.
    destruct (insert_or_ignore_spec (cars d) cd (now c)) as (new & Hrows & Hcase).
    destruct (insert_or_ignore (cars d) cd (now c)) as [rows inserted]. cbn in *.
    split; [exact Hnd'|]. split; [|discriminate].
    exists new. split; [exact Hrows|].
    destruct Hcase as [(-> & -> & _)|(-> & -> & Hn)]; [right|left]; auto.
  - cbn. split; [exact Hnd|]. split; [|discriminate].
    exists []. rewrite app_nil_r. split; [reflexivity|]. right. split; [discriminate|reflexivity].
Qed.

Lemma insert_all_fails rows cars_data i c n k cd :
  cars_data !! k = Some cd ->
  statement_ok c (i + k) = false \/ columns_fit cd = false ->
  insert_all rows cars_data i c n = None.
Proof.
  revert rows i n k. induction cars_data as [|cd0 rest IH]; intros rows i n k Hk Hbad;
    [discriminate|].
  cbn [insert_all]. destruct k as [|k].
  - injection Hk as ->. rewrite Nat.add_0_r in Hbad.
    destruct Hbad as [-> | ->]; [reflexivity|now rewrite andb_false_r].
  - destruct (statement_ok c i && columns_fit cd0); [|reflexivity].
    destruct (insert_or_ignore rows cd0 (statement_now c i)) as [rows' inserted].
    apply (IH _ _ _ k); [exact Hk|].
    now replace (S i + k)%nat with (i + S k)%nat by lia.
Qed.

(** X8.  [save_cars_batch] is all or nothing: when the statement of one
    record of the batch raises, or one record does not fit its columns, the
    call returns 0 (or raises, when the pool cannot be set up) and the rows
    are what they were, whatever the records before it would have
    inserted. *)
Theorem save_cars_batch_rolls_back (d : database) (cars_data : list car_data)
    (c : batch_call) (k : nat) (cd : car_data) :
  cars_data !! k = Some cd ->
  statement_ok c k = false \/ columns_fit cd = false ->
  cars (save_cars_batch d cars_data c).1 = cars d /\
  ((save_cars_batch d cars_data c).2 = Returned 0 \/
   (save_cars_batch d cars_data c).2 = Raised).
Proof.
  intros Hk Hbad. unfold save_cars_batch.
  destruct cars_data as [|cd0 rest]; [discriminate|].
  destruct (negb (pool d) && negb (batch_connect_ok c)); [cbn; auto|].
  destruct (transaction_ok c); [|cbn; auto].
  rewrite (insert_all_fails (cars d) (cd0 :: rest) 0 c 0 k cd Hk Hbad). cbn. auto.
Qed.

Lemma batch_clean_tail cd rest i c :
  batch_clean (cd :: rest) i c ->
  statement_ok c i = true /\ columns_fit cd = true /\ batch_clean rest (S i) c.
Proof.
  intros H. destruct (H O cd eq_refl) as [Hs Hf]. rewrite Nat.add_0_r in Hs.
  split; [exact Hs|]. split; [exact Hf|].
  intros k cd' Hk. specialize (H (S k) cd' Hk).
  now replace (S i + k)%nat with (i + S k)%nat by lia.
Qed.

(** Inside a transaction whose statements all run: the rows grow by the
    count, no URL gets a second row, and the URLs of the table are those it
    had and those of the batch. *)
Lemma insert_all_clean rows cars_data i c n :
  batch_clean cars_data i c ->
  NoDup (urls_of rows) ->
  exists new,
    insert_all rows cars_data i c n = Some (rows ++ new, n + Z.of_nat (length new)) /\
    NoDup (urls_of (rows ++ new)) /\
    (forall u, u ∈ urls_of (rows ++ new) <->
               u ∈ urls_of rows \/ u ∈ url <$> cars_data) /\
    (forall r, r ∈ new -> row_data r ∈ cars_data).
Proof.
  tidy. revert rows i n. induction cars_data as [|cd rest IH]; intros rows i n Hc Hnd.
  - exists []. cbn. rewrite app_nil_r, Z.add_0_r. split; [reflexivity|].
    split; [exact Hnd|]. split; [|intros r Hr; inversion Hr].
    intros u. split; [auto|]. intros [H|H]; [exact H|inversion H].
  - destruct (batch_clean_tail _ _ _ _ Hc) as (Hs & Hf & Hc').
    cbn [insert_all]. rewrite Hs, Hf. cbn [andb].
    pose proof (insert_or_ignore_nodup rows cd (statement_now c i) Hnd) as Hnd1.
    pose proof (insert_or_ignore_urls rows cd (statement_now c i)) as Hu1.
    destruct (insert_or_ignore_spec rows cd (statement_now c i)) as (new1 & Hr1 & Hcase).
    destruct (insert_or_ignore rows cd (statement_now c i)) as [rows1 inserted].
    cbn [fst snd] in *. subst rows1.
    destruct (IH (rows ++ new1) (S i) (if inserted then n + 1 else n) Hc' Hnd1)
      as (new2 & Hins & Hnd2 & Hu2 & Hfrom).
    exists (new1 ++ new2). rewrite app_assoc. split; [|split; [exact Hnd2|split]].
    + rewrite Hins. f_equal. f_equal. rewrite length_app.
      destruct Hcase as [(-> & -> & _)|(-> & -> & _)]; cbn; lia.
    + intros u. rewrite Hu2, Hu1, fmap_cons, elem_of_cons. tauto.
    + intros r Hr. apply elem_of_app in Hr as [Hr|Hr].
      * destruct Hcase as [(_ & -> & _)|(_ & -> & _)]; [inversion Hr|].
        apply list_elem_of_singleton in Hr. subst r. cbn. apply list_elem_of_here.
      * apply list_elem_of_further. now apply Hfrom.
Qed.

(** X9.  A batch whose statements all run and whose transaction commits
    returns the number of rows it added.  The new rows follow the old ones,
    each holds a record of the batch, no URL has two rows afterwards (a URL
    that is twice in the batch or already in the table is counted once or
    not at all), and the URLs of the table are those it had and those of
    the batch. *)
Theorem save_cars_batch_commits (d : database) (cars_data : list car_data)
    (c : batch_call) :
  batch_clean cars_data 0 c ->
  transaction_ok c = true ->
  pool d = true \/ batch_connect_ok c = true ->
  NoDup (urls_of (cars d)) ->
  exists new,
    cars (save_cars_batch d cars_data c).1 = cars d ++ new /\
    (save_cars_batch d cars_data c).2 = Returned (Z.of_nat (length new)) /\
    NoDup (urls_of (cars d ++ new)) /\
    (forall u, u ∈ urls_of (cars d ++ new) <->
               u ∈ urls_of (cars d) \/ u ∈ url <$> cars_data) /\
    (forall r, r ∈ new -> row_data r ∈ cars_data).
Proof.
  intros Hc Ht Hp Hnd. unfold save_cars_batch.
  destruct cars_data as [|cd rest].
  { exists []. cbn. rewrite app_nil_r. split; [reflexivity|]. split; [reflexivity|].
    split; [exact Hnd|]. split; [|intros r Hr; inversion Hr].
    intros u. split; [auto|]. intros [H|H]; [exact H|inversion H]. }
  replace (negb (pool d) && negb (batch_connect_ok c)) with false
    by (destruct Hp as [-> | ->]; cbn; now rewrite ?andb_false_r).
  rewrite Ht.
  destruct (insert_all_clean (cars d) (cd :: rest) 0 c 0 Hc Hnd)
    as (new & -> & Hnd' & Hu & Hfrom).
  exists new. cbn. auto.
Qed.

Lemma insert_all_save_each d cars_data i c n :
  batch_clean cars_data i c ->
  pool d = true \/ batch_connect_ok c = true ->
  insert_all (cars d) cars_data i c n =
    Some (cars (save_each d cars_data i c).1, n + (save_each d cars_data i c).2).
Proof.
  revert d i n. induction cars_data as [|cd rest IH]; intros d i n Hc Hp.
  - cbn. now rewrite Z.add_0_r.
  - destruct (batch_clean_tail _ _ _ _ Hc) as (Hs & Hf & Hc').
    cbn [insert_all save_each]. rewrite Hs, Hf. cbn [andb].
    unfold save_car. cbn [call_of connect_ok execute_ok now].
    replace (negb (pool d) && negb (batch_connect_ok c)) with false
      by (destruct Hp as [-> | ->]; cbn; now rewrite ?andb_false_r).
    rewrite Hs, Hf. cbn [andb].
    destruct (insert_or_ignore (cars d) cd (statement_now c i)) as [rows inserted].
    specialize (IH {| pool := true; cars := rows |} (S i)
                  (if inserted then n + 1 else n) Hc' (or_introl eq_refl)).
    cbn [cars] in IH. rewrite IH.
    destruct (save_each {| pool := true; cars := rows |} rest (S i) c) as [d2 m].
    cbn [fst snd]. f_equal. f_equal. destruct inserted; lia.
Qed.

(** X10.  When every statement runs and the transaction commits, a batch
    leaves the rows that saving its records one by one with [save_car]
    leaves (each call meeting what its statement met), and returns the
    number of those calls that return true. *)
Theorem save_cars_batch_as_save_car (d : database) (cars_data : list car_data)
    (c : batch_call) :
  batch_clean cars_data 0 c ->
  transaction_ok c = true ->
  pool d = true \/ batch_connect_ok c = true ->
  cars (save_cars_batch d cars_data c).1 = cars (save_each d cars_data 0 c).1 /\
  (save_cars_batch d cars_data c).2 = Returned (save_each d cars_data 0 c).2.
Proof.
  intros Hc Ht Hp. unfold save_cars_batch.
  destruct cars_data as [|cd rest]; [cbn; auto|].
  replace (negb (pool d) && negb (batch_connect_ok c)) with false
    by (destruct Hp as [-> | ->]; cbn; now rewrite ?andb_false_r).
  rewrite Ht, (insert_all_save_each d (cd :: rest) 0 c 0 Hc Hp). cbn [fst snd cars].
  split; [reflexivity|]. f_equal.
Qed.

Lemma insert_all_present rows cars_data i c n :
  (forall cd, cd ∈ cars_data -> url cd ∈ urls_of rows) ->
  insert_all rows cars_data i c n = None \/
  insert_all rows cars_data i c n = Some (rows, n).
Proof.
  revert i. induction cars_data as [|cd rest IH]; intros i Hin; [right; reflexivity|].
  cbn [insert_all]. destruct (statement_ok c i && columns_fit cd); [|auto].
  unfold insert_or_ignore.
  assert (H : has_url (url cd) rows = true)
    by (apply has_url_elem, Hin, list_elem_of_here).
  rewrite H. apply IH. intros cd' Hcd'. apply Hin. now apply list_elem_of_further.
Qed.

(** A batch whose URLs are all in the table adds nothing and returns 0. *)
Lemma save_cars_batch_present d cars_data c :
  pool d = true \/ cars_data = [] ->
  (forall cd, cd ∈ cars_data -> url cd ∈ urls_of (cars d)) ->
  cars (save_cars_batch d cars_data c).1 = cars d /\
  (save_cars_batch d cars_data c).2 = Returned 0.
Proof.
  intros Hp Hin. unfold save_cars_batch.
  destruct cars_data as [|cd rest]; [cbn; auto|].
  destruct Hp as [Hp|Hp]; [|discriminate]. rewrite Hp. cbn [negb andb].
  destruct (transaction_ok c); [|cbn; auto].
  destruct (insert_all_present (cars d) (cd :: rest) 0 c 0 Hin) as [-> | ->]; cbn; auto.
Qed.

(** X11.  Saving a batch again: after a batch that committed, a second
    call with the same records returns 0 and leaves the rows as they are,
    whether its own statements run or not. *)
Theorem save_cars_batch_again (d : database) (cars_data : list car_data)
    (c1 c2 : batch_call) :
  batch_clean cars_data 0 c1 ->
  transaction_ok c1 = true ->
  pool d = true \/ batch_connect_ok c1 = true ->
  NoDup (urls_of (cars d)) ->
  let d1 := (save_cars_batch d cars_data c1).1 in
  cars (save_cars_batch d1 cars_data c2).1 = cars d1 /\
  (save_cars_batch d1 cars_data c2).2 = Returned 0.
Proof.
  intros Hc Ht Hp Hnd d1.
  destruct cars_data as [|cd rest]; [cbn; auto|].
  destruct (insert_all_clean (cars d) (cd :: rest) 0 c1 0 Hc Hnd)
    as (new & Hins & _ & Hu & _).
  assert (E : d1 = {| pool := true; cars := cars d ++ new |}).
  { subst d1. unfold save_cars_batch.
    replace (negb (pool d) && negb (batch_connect_ok c1)) with false
      by (destruct Hp as [-> | ->]; cbn; now rewrite ?andb_false_r).
    now rewrite Ht, Hins. }
  rewrite E. apply save_cars_batch_present; [now left|].
  intros cd' Hcd'. apply Hu. right. now apply list_elem_of_fmap_2.
Qed.

(** ** What a batch does to the table and to the network *)

Lemma save_car_length d cd c :
  Z.of_nat (length (cars (save_car d cd c).1)) =
  Z.of_nat (length (cars d)) + saved (Finished (save_car d cd c).2).
Proof.
  unfold save_car, insert_or_ignore.
  destruct (negb (pool d) && negb (connect_ok c)); [cbn; lia|].
  destruct (execute_ok c && columns_fit cd); [|cbn; lia].
  destruct (has_url (url cd) (cars d)); cbn; [lia|].
  rewrite length_app. cbn. lia.
Qed.

Lemma save_car_pool d cd c :
  pool d = true ->
  pool (save_car d cd c).1 = true /\ (save_car d cd c).2 <> Raised.
Proof.
  intros Hp. unfold save_car. rewrite Hp. cbn [negb andb].
  destruct (execute_ok c && columns_fit cd); [|cbn; split; [reflexivity|discriminate]].
  destruct (insert_or_ignore _ _ _). cbn. split; [reflexivity|discriminate].
Qed.

Lemma step_saved_rows s e s' :
  step s e = Some s' ->
  Z.of_nat (length (cars (db s'))) - total saved (tasks s') =
  Z.of_nat (length (cars (db s))) - total saved (tasks s).
Proof.
  intros H.
  destruct (step_moves _ _ _ H) as (u & st & st' & P & d & t & Hi & _ & Hm & ->).
  cbn [db tasks]. rewrite (total_insert saved _ _ _ _ _ st' Hi).
  inversion Hm; subst; cbn [saved]; try lia.
  rewrite save_car_length. cbn [saved]. lia.
Qed.

Lemma total_spawn f s car_urls :
  total f (tasks (spawn s car_urls)) =
  f Pending * Z.of_nat (length (tasks (spawn s car_urls))).
Proof.
  unfold spawn. cbn [tasks].
  induction (filter _ car_urls) as [|u us IH]; [cbn; lia|].
  rewrite fmap_cons. cbn [total length snd]. rewrite IH. lia.
Qed.

(** X12.  The count of successes of a batch is the number of rows the
    batch added: at every moment of a batch the table has grown by as many
    rows as tasks have returned true, and when the batch is done that is
    the [success_count] of the results. *)
Theorem successes_are_rows (s0 : scraper) (car_urls : list str)
    (evs : list event) (s : scraper) :
  run (spawn s0 car_urls) evs = Some s ->
  Z.of_nat (length (cars (db s))) =
    Z.of_nat (length (cars (db s0))) + total saved (tasks s)
  /\ (all_finished s = true ->
      length (cars (db s)) =
        (length (cars (db s0)) + success_count (results s))%nat).
Proof.
  intros Hrun.
  assert (H : Z.of_nat (length (cars (db s))) - total saved (tasks s) =
              Z.of_nat (length (cars (db s0)))).
  { apply (run_invariant
             (fun x => Z.of_nat (length (cars (db x))) - total saved (tasks x) =
                       Z.of_nat (length (cars (db s0)))))
      with evs (spawn s0 car_urls); [| |exact Hrun].
    - intros x e x' Hx Hstep. rewrite (step_saved_rows _ _ _ Hstep). exact Hx.
    - rewrite total_spawn. cbn [saved spawn db]. lia. }
  split; [lia|].
  intros Hf. destruct (total_saved_results s Hf) as [Hs _]. lia.
Qed.

Lemma step_raised_pool s e s' :
  step s e = Some s' -> pool (db s) = true ->
  pool (db s') = true /\ total raised (tasks s') = total raised (tasks s).
Proof.
  intros H Hp.
  destruct (step_moves _ _ _ H) as (u & st & st' & P & d & t & Hi & _ & Hm & ->).
  cbn [db tasks]. rewrite (total_insert raised _ _ _ _ _ st' Hi).
  inversion Hm; subst; cbn [raised]; try (split; [assumption|lia]).
  destruct (save_car_pool (db s) cd c Hp) as [Hp' Hr]. split; [exact Hp'|].
  destruct (save_car (db s) cd c).2 as [[|]|]; cbn; try lia. congruence.
Qed.

(** X13.  With the database pool set, as it is after [initialize], no
    task of a batch ends with an exception: the pool stays set, every
    result of the batch is a boolean, and the [error_count] that the page
    loop logs is 0. *)
Theorem no_errors_with_pool (s0 : scraper) (car_urls : list str)
    (evs : list event) (s : scraper) :
  pool (db s0) = true ->
  run (spawn s0 car_urls) evs = Some s ->
  pool (db s) = true
  /\ (forall i u r, tasks s !! i = Some (u, Finished r) -> exists b, r = Returned b)
  /\ (all_finished s = true -> error_count (results s) = 0%nat).
Proof.
  intros Hp Hrun.
  assert (H : pool (db s) = true /\ total raised (tasks s) = 0).
  { apply (run_invariant (fun x => pool (db x) = true /\ total raised (tasks x) = 0))
      with evs (spawn s0 car_urls); [| |exact Hrun].
    - intros x e x' [Hx Hr] Hstep.
      destruct (step_raised_pool _ _ _ Hstep Hx) as [Hx' Hr']. split; [exact Hx'|lia].
    - split; [exact Hp|]. rewrite total_spawn. cbn. lia. }
  destruct H as [Hp' Hr]. split; [exact Hp'|]. split.
  - intros i u r Hi. destruct r as [b|]; [eauto|].
    exfalso. clear -Hi Hr.
    assert (Hge : forall ts, 0 <= total raised ts)
      by (intros ts; apply total_nonneg; intros [ | | |[|]]; cbn; lia).
    revert i Hi Hr. induction (tasks s) as [|[v st] ts IH]; intros i Hi Hr;
      [discriminate|].
    cbn [total snd] in Hr. specialize (Hge ts). destruct i as [|i].
    + injection Hi as -> ->. cbn in Hr. lia.
    + apply (IH i Hi).
      assert (0 <= raised st) by (destruct st as [ | | |[|]]; cbn; lia). lia.
  - intros Hf. destruct (total_saved_results s Hf) as [_ He]. lia.
Qed.

Lemma detail_gets_app t1 t2 : detail_gets (t1 ++ t2) = detail_gets t1 + detail_gets t2.
Proof. unfold detail_gets. rewrite List.filter_app, length_app. lia. Qed.

Lemma backoff_inv_spawn s car_urls : backoff_inv (spawn s car_urls).
Proof. intros i u a Hi. apply spawn_pending in Hi. discriminate. Qed.

Lemma step_loads s e s' :
  backoff_inv s -> step s e = Some s' ->
  backoff_inv s' /\
  detail_gets (trace s') + total loads_left (tasks s') <=
  detail_gets (trace s) + total loads_left (tasks s).
Proof.
  intros Hinv H.
  destruct (step_own _ _ _ H) as (u & st & st' & P & d & t & Hi & Hm & Hi' & _ & _ & Ht).
  destruct (step_shape _ _ _ H) as (u2 & st2 & st2' & Hi2 & Htasks & _).
  rewrite Hi in Hi2. injection Hi2 as <- <-.
  assert (Hst' : tasks s' !! task_of e = Some (u, st2')).
  { rewrite Htasks. apply list_lookup_insert_eq. eapply lookup_lt_Some; eauto. }
  rewrite Hi' in Hst'. injection Hst' as <-.
  split.
  - intros j v a Hj. destruct (decide (j = task_of e)) as [->|Hne].
    + rewrite Hi' in Hj. injection Hj as <- ->.
      inversion Hm; subst; [lia|].
      match goal with Hb : tasks s !! _ = Some (_, Backoff _) |- _ =>
        pose proof (Hinv _ _ _ Hb) end. lia.
    + rewrite (step_others _ _ _ _ H Hne) in Hj. eauto.
  - rewrite Ht, Htasks, detail_gets_app, (total_insert loads_left _ _ _ _ _ st' Hi).
    inversion Hm; subst; cbn [loads_left]; unfold detail_gets; cbn; try lia;
      match goal with Hb : tasks s !! _ = Some (_, Backoff _) |- _ =>
        pose proof (Hinv _ _ _ Hb) end; lia.
Qed.

Lemma total_loads_left_nonneg s : backoff_inv s -> 0 <= total loads_left (tasks s).
Proof.
  unfold backoff_inv. induction (tasks s) as [|[u st] ts IH]; intros Hinv; [cbn; lia|].
  cbn [total snd].
  assert (0 <= total loads_left ts) by (apply IH; intros i v a Hi; apply (Hinv (S i) v a Hi)).
  assert (0 <= loads_left st).
  { destruct st as [ |a| | ]; cbn; try lia. pose proof (Hinv O u a eq_refl). lia. }
  lia.
Qed.

(** X14.  A batch loads no detail page more often than [max_retries]
    allows: under every interleaving the page loads of a batch are at most
    [max_retries] for each of its tasks, and a task sleeps only while an
    attempt is left to it. *)
Theorem batch_page_loads_bounded (s0 : scraper) (car_urls : list str)
    (evs : list event) (s : scraper) :
  run (spawn s0 car_urls) evs = Some s ->
  detail_gets (trace s) <=
    detail_gets (trace s0) + Z.max 0 max_retries * Z.of_nat (length (tasks s))
  /\ (forall i u a, tasks s !! i = Some (u, Backoff a) -> 0 <= a < max_retries - 1).
Proof.
  intros Hrun.
  assert (H : backoff_inv s /\
              detail_gets (trace s) + total loads_left (tasks s) <=
              detail_gets (trace s0) +
              Z.max 0 max_retries * Z.of_nat (length (tasks (spawn s0 car_urls)))).
  { apply (run_invariant
             (fun x => backoff_inv x /\
                detail_gets (trace x) + total loads_left (tasks x) <=
                detail_gets (trace s0) +
                Z.max 0 max_retries * Z.of_nat (length (tasks (spawn s0 car_urls)))))
      with evs (spawn s0 car_urls); [| |exact Hrun].
    - intros x e x' [Hx Hle] Hstep.
      destruct (step_loads _ _ _ Hx Hstep) as [Hx' Hle']. split; [exact Hx'|lia].
    - split; [apply backoff_inv_spawn|]. rewrite total_spawn. cbn [spawn trace loads_left]. lia. }
  destruct H as [Hinv Hle]. split; [|exact Hinv].
  pose proof (total_loads_left_nonneg s Hinv).
  rewrite <- (run_length _ _ _ Hrun) in Hle. lia.
Qed.

(** ** The page loop as a whole *)

Lemma listing_from_page_effects page_url replies n a :
  page_effects (listing_from n a page_url replies).2.
Proof.
  unfold page_effects. revert a. induction n as [|n IH]; intros a; [constructor|].
  cbn [listing_from]. destruct (attempt_listing _ _); [repeat constructor|].
  specialize (IH (a + 1)).
  destruct (listing_from n (a + 1) page_url replies) as [res t].
  cbn [snd] in *. repeat constructor. exact IH.
Qed.

(** A property of the scraper that the effects of the page loop keep, that
    making a batch turns into a property of the batch which every step
    keeps, holds when the page loop stops, wherever it stops. *)
Lemma crawl_invariant (I B : scraper -> Prop) :
  (forall s t, page_effects t -> I s -> I (log s t)) ->
  (forall s car_urls, I s -> B (spawn s car_urls)) ->
  (forall s e s', B s -> step s e = Some s' -> B s') ->
  (forall s, B s -> I s) ->
  forall fuel w page_num page_url s,
    I s -> I (state_of (process_listing_pages fuel w page_num page_url s)).
Proof.
  intros Hlog Hspawn Hstep HBI.
  assert (Hsleep : forall s, I s -> I (log s [Sleep 1]))
    by (intros s; apply Hlog; repeat constructor).
  induction fuel as [|fuel IH]; intros w page_num page_url s Hs; [exact Hs|].
  cbn [process_listing_pages].
  destruct (is_empty page_url); [exact Hs|].
  pose proof (listing_from_page_effects page_url (listing_replies w page_num)
                (Z.to_nat max_retries) 0) as Hl.
  unfold _extract_car_urls_and_next_page.
  destruct (listing_from _ _ _ _) as [[car_urls next_page_url] t]. cbn [snd] in Hl.
  assert (H1 : I (log s (ProcessingPage page_num page_url :: t)))
    by (apply Hlog; [constructor; [exact Logic.I|exact Hl]|exact Hs]).
  case_bool_decide; [exact H1|].
  destruct (concurrency <? 0); [exact H1|].
  pose proof (Hspawn _ car_urls H1) as H2.
  destruct (process_batch _ car_urls _) as [s3|] eqn:Hb.
  - assert (H3 : B s3).
    { apply process_batch_some in Hb as (_ & _ & evs1 & _ & Hrun).
      exact (run_invariant B Hstep _ _ _ H2 Hrun). }
    destruct next_page_url as [[|c n]|]; cbn [state_of]; auto.
  - cbn [state_of]. apply HBI. now apply run_prefix_invariant.
Qed.

Lemma table_inv_step s0 s e s' :
  table_inv s0 s /\ batch_inv s -> step s e = Some s' ->
  table_inv s0 s' /\ batch_inv s'.
Proof.
  intros [[Hnd (rows & Hrows & Hmarked)] Hinv] H.
  split; [|eapply batch_inv_step; eauto]. unfold table_inv.
  destruct (step_own _ _ _ H) as (u & st & st' & P & d & t & Hi & Hm & _ & HP & Hd & _).
  pose proof (moves_subset _ _ _ _ _ _ _ _ Hm) as Hsub. rewrite <- HP in Hsub.
  destruct (moves_db _ _ _ _ _ _ _ _ Hm) as [Hsame|(cd & c & -> & Hd' & _)].
  - rewrite Hd, Hsame. split; [exact Hnd|]. exists rows. split; [exact Hrows|].
    intros r Hr. apply Hsub. auto.
  - destruct Hinv as [Hsav _]. destruct (Hsav _ _ _ Hi) as [Hu Hmark].
    unfold save_car in Hd'. rewrite Hd, Hd'.
    destruct (negb (pool (db s)) && negb (connect_ok c)).
    { cbn. split; [exact Hnd|]. exists rows. split; [exact Hrows|].
      intros r Hr. apply Hsub. auto. }
    destruct (execute_ok c && columns_fit cd).
    2:{ cbn. split; [exact Hnd|]. exists rows. split; [exact Hrows|].
        intros r Hr. apply Hsub. auto. }
    pose proof (insert_or_ignore_nodup (cars (db s)) cd (now c) Hnd) as Hnd'.
    destruct (insert_or_ignore_spec (cars (db s)) cd (now c)) as (new & Hr1 & Hcase).
    destruct (insert_or_ignore (cars (db s)) cd (now c)) as [rows1 inserted].
    cbn [fst snd cars] in *. split; [exact Hnd'|].
    exists (rows ++ new). rewrite Hr1, Hrows, app_assoc. split; [reflexivity|].
    intros r Hr. apply Hsub. apply elem_of_app in Hr as [Hr|Hr]; [auto|].
    destruct Hcase as [(_ & -> & _)|(_ & -> & _)]; [inversion Hr|].
    apply list_elem_of_singleton in Hr. subst r. cbn. now rewrite Hu.
Qed.

(** X15.  The page loop only appends to the table: wherever it stops, the
    rows it found are still there in their order, the rows after them
    belong to URLs that are in [processed_urls], and no URL has two rows
    when none had before. *)
Theorem crawl_appends_marked_rows (fuel : nat) (w : world) (page_num : Z)
    (page_url : str) (s : scraper) :
  NoDup (urls_of (cars (db s))) ->
  let s' := state_of (process_listing_pages fuel w page_num page_url s) in
  NoDup (urls_of (cars (db s'))) /\
  exists rows,
    cars (db s') = cars (db s) ++ rows /\
    forall r, r ∈ rows -> url (row_data r) ∈ processed_urls s'.
Proof.
  intros Hnd.
  apply (crawl_invariant (table_inv s) (fun x => table_inv s x /\ batch_inv x)).
  - intros x t _ Hx. exact Hx.
  - intros x car_urls Hx. split; [exact Hx|apply batch_inv_spawn].
  - intros x e x'. apply table_inv_step.
  - intros x [Hx _]. exact Hx.
  - split; [exact Hnd|]. exists []. rewrite app_nil_r. split; [reflexivity|].
    intros r Hr. inversion Hr.
Qed.

Lemma step_pending_blocked s e :
  (forall i u st, tasks s !! i = Some (u, st) -> st = Pending) ->
  sem_value s <= 0 -> step s e = None.
Proof.
  intros Hall Hs. destruct e as [i ld|i ld|i c]; cbn [step];
    destruct (tasks s !! i) as [[u st]|] eqn:Hi; try reflexivity;
    rewrite (Hall _ _ _ Hi); [|reflexivity..].
  destruct (Z.ltb_spec 0 (sem_value s)); [lia|reflexivity].
Qed.

(** X16.  A semaphore of no permit lets no task in: with [concurrency = 0]
    a page that lists a URL not yet processed makes a batch that no
    interleaving finishes, so the page loop waits there for ever; it loads
    no detail page and reaches no later page. *)
Theorem zero_concurrency_blocks (fuel : nat) (w : world) (page_num : Z)
    (page_url : str) (s : scraper) (car_urls : list str)
    (next_page_url : option str) (t : list effect) (u : str) :
  concurrency = 0 ->
  page_url <> [] ->
  _extract_car_urls_and_next_page page_url (listing_replies w page_num) =
    ((car_urls, next_page_url), t) ->
  u ∈ car_urls -> u ∉ processed_urls s ->
  (forall evs,
     gather (spawn (log s (ProcessingPage page_num page_url :: t)) car_urls) evs = None)
  /\ process_listing_pages (S fuel) w page_num page_url s =
       Stuck (spawn (log s (ProcessingPage page_num page_url :: t)) car_urls).
Proof.
  intros Hc Hne Hp Hu Hnew.
  set (s2 := spawn (log s (ProcessingPage page_num page_url :: t)) car_urls).
  assert (Htask : tasks s2 <> []).
  { subst s2. unfold spawn. cbn [tasks log processed_urls].
    assert (Hin : u ∈ filter (fun v => v ∉ processed_urls s) car_urls)
      by (apply list_elem_of_filter; auto).
    destruct (filter _ car_urls); [inversion Hin|discriminate]. }
  assert (Hnf : all_finished s2 = false).
  { destruct (tasks s2) as [|[v st] ts] eqn:E; [congruence|].
    assert (st = Pending) as ->
      by (apply (spawn_pending (log s (ProcessingPage page_num page_url :: t))
                   car_urls O v); fold s2; now rewrite E).
    unfold all_finished. rewrite E. reflexivity. }
  assert (Hstay : forall evs, run_prefix s2 evs = s2).
  { intros [|e evs]; [reflexivity|].
    cbn [run_prefix]. rewrite step_pending_blocked; [reflexivity| |].
    - intros i v st Hi. eapply spawn_pending; eauto.
    - subst s2. cbn. lia. }
  assert (Hg : forall evs, gather s2 evs = None).
  { intros evs. unfold gather. now rewrite Hstay, Hnf. }
  split; [exact Hg|].
  assert (He : is_empty page_url = false)
    by (destruct page_url; [now elim Hne|reflexivity]).
  cbn [process_listing_pages]. rewrite He, Hp.
  rewrite bool_decide_eq_false_2 by (intros ->; inversion Hu).
  destruct (Z.ltb_spec concurrency 0); [lia|].
  unfold process_batch. fold s2.
  rewrite bool_decide_eq_false_2 by exact Htask. now rewrite Hg, Hstay.
Qed.

(** X17.  The page loop keeps no record of the listing pages it has
    seen: when a listing page always lists a car and names itself as the
    next page, the loop never ends, whatever fuel it is given; it begins
    the same page again and again. *)
Theorem pagination_cycle_never_ends (fuel : nat) (w : world) (page_num : Z)
    (page_url : str) (s : scraper) :
  page_url <> [] ->
  0 <= concurrency ->
  (forall n, exists car_urls t,
     car_urls <> [] /\
     _extract_car_urls_and_next_page page_url (listing_replies w n) =
       ((car_urls, Some page_url), t)) ->
  (forall s', process_listing_pages fuel w page_num page_url s <> Done s') /\
  (forall s', process_listing_pages fuel w page_num page_url s = OutOfFuel s' ->
     pages_of (trace s') =
       pages_of (trace s) ++
       map (fun k => (page_num + Z.of_nat k, page_url)) (seq 0 fuel)).
Proof.
  intros Hne Hc Hcycle.
  assert (He : is_empty page_url = false)
    by (destruct page_url; [now elim Hne|reflexivity]).
  revert page_num s. induction fuel as [|fuel IH]; intros page_num s.
  { split; [discriminate|]. intros s' [= <-]. cbn. now rewrite app_nil_r. }
  destruct (Hcycle page_num) as (car_urls & t & Hcars & Hp).
  pose proof (listing_from_pages page_url (listing_replies w page_num)
                (Z.to_nat max_retries) 0) as Hl.
  fold (_extract_car_urls_and_next_page page_url (listing_replies w page_num)) in Hl.
  rewrite Hp in Hl. cbn [snd] in Hl.
  cbn [process_listing_pages]. rewrite He, Hp.
  rewrite bool_decide_eq_false_2 by assumption.
  destruct (Z.ltb_spec concurrency 0); [lia|].
  destruct (process_batch _ car_urls _) as [s3|] eqn:Hb;
    [|split; [discriminate|discriminate]].
  destruct (process_batch_no_listing _ _ _ _ Hb) as [_ H3].
  destruct page_url as [|c n]; [now elim Hne|].
  destruct (IH (page_num + 1) (log s3 [Sleep 1])) as [Hnd Hpages].
  split; [exact Hnd|].
  intros s' Hs'. rewrite (Hpages s' Hs').
  cbn [log trace]. rewrite pages_of_app, H3. cbn [log trace].
  rewrite pages_of_app.
  change (pages_of (ProcessingPage page_num (c :: n) :: t))
    with ((page_num, c :: n) :: pages_of t).
  change (pages_of [Sleep 1]) with (@nil (Z * str)).
  rewrite Hl, app_nil_r.
  rewrite <- app_assoc. f_equal. cbn [seq map]. rewrite Z.add_0_r.
  change ([(page_num, c :: n)] ++ ?l) with ((page_num, c :: n) :: l).
  simpl. f_equal. rewrite <- seq_shift, map_map.
  apply map_ext. intros k. f_equal. lia.
Qed.

(** ** [run_scraper] *)

Lemma moves_loads_other s e v st st' P d t u :
  moves s e v st st' P d t -> v <> u -> page_loads u t = 0%nat.
Proof.
  intros H Hne. inversion H; subst; try reflexivity;
    unfold page_loads; cbn [List.filter];
    rewrite bool_decide_eq_false_2 by assumption; reflexivity.
Qed.

(** Along the page loop the page of a URL that is marked at the start is
    not loaded. *)
Lemma crawl_loads_marked fuel w page_num page_url s u :
  u ∈ processed_urls s ->
  page_loads u (trace (state_of (process_listing_pages fuel w page_num page_url s))) =
  page_loads u (trace s).
Proof.
  intros Hu.
  pose (I := fun x : scraper =>
               (u ∈ processed_urls x) /\ page_loads u (trace x) = page_loads u (trace s)).
  pose (B := fun x : scraper =>
               I x /\ forall i st, tasks x !! i <> Some (u, st)).
  cut (I (state_of (process_listing_pages fuel w page_num page_url s)));
    [intros [_ H]; exact H|].
  apply (crawl_invariant I B).
  - intros x t Ht [Hx Hl]. split; [exact Hx|]. cbn [log trace].
    rewrite page_loads_app, Hl.
    assert (H0 : page_loads u t = 0%nat); [|lia].
    clear -Ht. induction Ht as [|e t He _ IH]; [reflexivity|].
    destruct e; try contradiction; exact IH.
  - intros x car_urls [Hx Hl]. split; [split; assumption|].
    intros i st Hi. apply spawn_unmarked in Hi as [Hn _]. contradiction.
  - intros x e x' [[Hx Hl] Hno] Hstep.
    destruct (step_own _ _ _ Hstep) as (v & st & st' & P & d & t & Hi & Hm & Hi' & _ & _ & Ht).
    assert (Hne : v <> u) by (intros ->; exact (Hno _ _ Hi)).
    split; [split|].
    + eapply step_subset; eauto.
    + rewrite Ht, page_loads_app, (moves_loads_other _ _ _ _ _ _ _ _ u Hm Hne). lia.
    + intros j st2 Hj. destruct (decide (j = task_of e)) as [->|Hj'].
      * rewrite Hi' in Hj. congruence.
      * rewrite (step_others _ _ _ _ Hstep Hj') in Hj. exact (Hno _ _ Hj).
  - intros x [Hx _]. exact Hx.
  - split; [exact Hu|reflexivity].
Qed.


Lemma initialize_returned a st a1 :
  initialize a st = AppReturned a1 ->
  app_handles a1 = {| session := Some true; selenium_driver := true |} /\
  app_events a1 = app_events a ++ [SessionOpened; DriverStarted] /\
  pool (db (app_scraper a1)) = true /\
  cars (db (app_scraper a1)) = cars (db (app_scraper a)) /\
  processed_urls (app_scraper a1) = processed_urls (app_scraper a) /\
  trace (app_scraper a1) = trace (app_scraper a).
Proof.
  unfold initialize, connect. destruct (driver_ok st); [|discriminate].
  cbn [app_scraper app_events app_handles].
  destruct (pool (db (app_scraper a))) eqn:Hp; [|destruct (pool_ok st)];
    intros H; inversion H; subst a1; clear H;
    cbn; rewrite <- ?app_assoc; cbn; auto 10.
Qed.

Lemma scrape_returned fuel w a a2 :
  scrape fuel w a = AppReturned a2 ->
  exists s, a2 = cleanup (with_scraper a s).
Proof.
  unfold scrape. destruct (process_listing_pages _ _ _ _ _) as [s|s|s|s];
    intros H; inversion H; eauto.
Qed.

Lemma scrape_scraper fuel w a :
  app_scraper (app_of (scrape fuel w a)) =
  state_of (process_listing_pages fuel w 1 start_url (app_scraper a)).
Proof.
  unfold scrape. destruct (process_listing_pages _ _ _ _ _); reflexivity.
Qed.

(** X18.  A call of [run_scraper] that returns has opened one session and
    started one browser, in this order, and has then closed the session
    once and quit the browser twice: [cleanup] runs at the end of [scrape]
    and again when the [async with] block is left, the second time it
    finds the session closed and the driver still set.  This is so also
    when the page loop ended on an exception. *)
Theorem run_scraper_cleans_up_twice fuel w st a a' :
  run_scraper fuel w st a = AppReturned a' ->
  app_handles a' = {| session := Some false; selenium_driver := true |} /\
  app_events a' =
    app_events a ++
    [SessionOpened; DriverStarted; SessionClosed; DriverQuit; DriverQuit].
Proof.
  unfold run_scraper.
  destruct (initialize a st) as [a1|a1|a1] eqn:Hi; try discriminate.
  destruct (scrape fuel w a1) as [a2|a2|a2] eqn:Hs; try discriminate.
  intros H. inversion H; subst a'; clear H.
  apply initialize_returned in Hi as (Hh & He & _).
  apply scrape_returned in Hs as [s ->].
  unfold cleanup, with_scraper. cbn [app_handles app_events app_scraper].
  rewrite Hh, He. cbn. rewrite <- !app_assoc. cbn. auto.
Qed.

(** X19.  When [initialize] raises, [run_scraper] raises with what was
    acquired so far still held: the block of the [async with] is not
    entered and [cleanup] is not called.  When the browser does not start
    the session stays open; when the pool cannot be made the session stays
    open and the browser is not quit.  The scraper and its database are
    as before. *)
Theorem run_scraper_failed_startup_leaks fuel w st a :
  driver_ok st = false \/
  (pool (db (app_scraper a)) = false /\ pool_ok st = false) ->
  exists a',
    run_scraper fuel w st a = AppRaised a' /\
    app_scraper a' = app_scraper a /\
    session (app_handles a') = Some true /\
    selenium_driver (app_handles a') =
      (driver_ok st || selenium_driver (app_handles a)) /\
    app_events a' =
      app_events a ++ SessionOpened :: (if driver_ok st then [DriverStarted] else []).
Proof.
  intros H. unfold run_scraper, initialize, connect.
  destruct (driver_ok st) eqn:Hd.
  - destruct H as [H|[Hp Ho]]; [discriminate|].
    cbn [app_scraper]. rewrite Hp, Ho.
    eexists. split; [reflexivity|]. cbn. rewrite <- app_assoc. auto.
  - eexists. split; [reflexivity|]. cbn. auto.
Qed.

(** X20.  The set of processed URLs belongs to the module's scraper object
    and is not reset by [run_scraper]: a URL that is marked when the call
    begins is marked when it ends, and during the call it passes no check
    against the set and its page is not loaded. *)
Theorem run_scraper_skips_marked fuel w st a u :
  u ∈ processed_urls (app_scraper a) ->
  let s := app_scraper a in
  let s' := app_scraper (app_of (run_scraper fuel w st a)) in
  (u ∈ processed_urls s') /\
  claims u (trace s') = claims u (trace s) /\
  page_loads u (trace s') = page_loads u (trace s).
Proof.
  intros Hu. cbn zeta. unfold run_scraper.
  destruct (initialize a st) as [a1|a1|a1] eqn:Hi.
  - apply initialize_returned in Hi as (_ & _ & _ & _ & Hp & Ht).
    assert (Hu1 : u ∈ processed_urls (app_scraper a1)) by (rewrite Hp; exact Hu).
    assert (Hs : app_scraper (app_of
                   match scrape fuel w a1 with
                   | AppReturned a2 => AppReturned (cleanup a2)
                   | r => r
                   end) = app_scraper (app_of (scrape fuel w a1)))
      by (destruct (scrape fuel w a1); reflexivity).
    rewrite Hs, scrape_scraper, <- Ht.
    pose proof (crawl_claims_marked fuel w 1 start_url _ u Hu1) as [H1 H2].
    pose proof (crawl_loads_marked fuel w 1 start_url _ u Hu1) as H3.
    auto.
  - unfold initialize, connect in Hi.
    destruct (driver_ok st); [|inversion Hi; subst a1; cbn; auto].
    cbn [app_scraper] in Hi.
    destruct (pool (db (app_scraper a))); [discriminate|].
    destruct (pool_ok st); [discriminate|].
    inversion Hi; subst a1; cbn; auto.
  - unfold initialize, connect in Hi.
    destruct (driver_ok st); [|discriminate].
    cbn [app_scraper] in Hi.
    destruct (pool (db (app_scraper a))); [discriminate|].
    destruct (pool_ok st); discriminate.
Qed.
End Scraper.

(** ** No retries configured *)

(** C10.  With [max_retries = 0] the listing fetch returns the empty list
    and no next page without a fetch, the detail extraction returns no
    record without a page load, and the page loop ends in its first
    iteration: it fetches no listing page, loads no detail page and leaves
    the table and the processed set as they were. *)
Theorem zero_retries_no_fetch (nd_table : N -> option N) (int_max_str_digits : N)
    (urljoin : str -> str -> str) (concurrency : Z) (fuel : nat) (w : world)
    (page_num : Z) (start_url page_url car_url : str)
    (replies : Z -> fetch_reply) (loads : Z -> page_load) (s : scraper) :
  let r := process_listing_pages nd_table int_max_str_digits urljoin 0
             concurrency (S fuel) w page_num start_url s in
  _extract_car_urls_and_next_page urljoin 0 page_url replies = (([], None), [])
  /\ _extract_car_data nd_table int_max_str_digits 0 car_url loads =
       (None, [Extracting car_url])
  /\ r = Done (if is_empty start_url then s
               else log s [ProcessingPage page_num start_url])
  /\ db (state_of r) = db s
  /\ processed_urls (state_of r) = processed_urls s
  /\ listing_gets (trace (state_of r)) = listing_gets (trace s)
  /\ (forall u, page_loads u (trace (state_of r)) = page_loads u (trace s)).
Proof.
  intros r.
  assert (E : r = Done (if is_empty start_url then s
                        else log s [ProcessingPage page_num start_url])).
  { subst r. cbn [process_listing_pages]. destruct (is_empty start_url); reflexivity. }
  split; [reflexivity|]. split; [reflexivity|]. split; [exact E|].
  rewrite E. destruct (is_empty start_url); cbn [state_of log db processed_urls trace].
  - repeat split; reflexivity.
  - repeat split; try reflexivity.
    + rewrite listing_gets_app. cbn. lia.
    + intros u. rewrite page_loads_app. cbn. lia.
Qed.

(** ** The properties on the sample data *)

(** The odometer theorem on "95 тис. км" and on " 1,001.5". *)
Lemma extract_odometer_thousand_km_witness :
  no_decimal sample_nd_table [] /\
  all_decimal sample_nd_table [57; 53]%N /\
  digits_end sample_nd_table [32; 1090; 1080; 1089; 46; 32; 1082; 1084]%N /\
  _extract_odometer sample_nd_table
    ([] ++ [57; 53] ++ [32; 1090; 1080; 1089; 46; 32; 1082; 1084])%N =
    km_of_decimal 95 0 /\
  _extract_odometer sample_nd_table
    ([32] ++ [49] ++ 44 :: [48; 48; 49] ++ [46; 53])%N = km_of_decimal 1001 3 /\
  km_of_decimal 95 0 = 95000 /\ km_of_decimal 1001 3 = 1000.
Proof.
  assert (Hn : no_decimal sample_nd_table []) by constructor.
  assert (Hs : no_decimal sample_nd_table [32]%N) by (repeat constructor).
  assert (H95 : all_decimal sample_nd_table [57; 53]%N) by (repeat constructor).
  assert (H1 : all_decimal sample_nd_table [49]%N) by (repeat constructor).
  assert (H001 : all_decimal sample_nd_table [48; 48; 49]%N) by (repeat constructor).
  assert (He : digits_end sample_nd_table [32; 1090; 1080; 1089; 46; 32; 1082; 1084]%N)
    by reflexivity.
  assert (He' : digits_end sample_nd_table [46; 53]%N) by reflexivity.
  destruct (extract_odometer_thousand_km sample_nd_table)
    as (_ & _ & _ & Hwhole & Hfrac & _).
  split; [exact Hn|]. split; [exact H95|]. split; [exact He|].
  split.
  { apply (Hwhole [] [57; 53]%N); auto; discriminate. }
  split.
  { apply (Hfrac [32]%N [49]%N 44%N [48; 48; 49]%N [46; 53]%N); auto; discriminate. }
  split; vm_compute; reflexivity.
Defined.

(** C3, as written, fails: with two attempts allowed, a first reply of
    status 204 is not taken; the code sleeps and fetches again. *)
Lemma listing_204_is_retried : ~ accepts_every_2xx sample_urljoin 2.
Proof.
  intros H.
  specialize (H sample_listing1 sample_replies_204 204 sample_two_cars
                ltac:(lia) ltac:(lia) eq_refl).
  vm_compute in H. discriminate H.
Qed.

(** The listing fetch on a 204 followed by a 200. *)
Lemma listing_fetch_retries_witness :
  attempt_listing sample_urljoin sample_listing1 (sample_replies_204 0) = None /\
  attempt_listing sample_urljoin sample_listing1 (sample_replies_204 1) =
    Some ([sample_car1; sample_car2], None) /\
  _extract_car_urls_and_next_page sample_urljoin 2 sample_listing1 sample_replies_204 =
    (([sample_car1; sample_car2], None),
     [ListingGet sample_listing1; Sleep 1; ListingGet sample_listing1]).
Proof.
  split; [reflexivity|]. split; [reflexivity|].
  destruct (listing_fetch_retries sample_urljoin 2 sample_listing1 sample_replies_204)
    as (_ & _ & Hok & _).
  apply (Hok 1%nat ([sample_car1; sample_car2], None)); [lia| |reflexivity].
  intros i Hi. assert (i = 0%nat) as -> by lia. reflexivity.
Defined.

(** A page with a title, the price "$" and nothing else gives a record of
    defaults. *)
Example read_fields_bare_page :
  read_fields sample_nd_table 0 sample_car1 sample_bare_page =
    Some {| url := sample_car1; title := [65; 117; 100; 105]%N; price_usd := 0;
            odometer := 0; username := []; phone_number := 0;
            image_url := Some []; images_count := 0;
            car_number := []; car_vin := [] |}.
Proof.
  apply (read_fields_defaults sample_nd_table 0 sample_car1 sample_bare_page
           [65; 117; 100; 105]%N 0); reflexivity.
Qed.

(** A page that loads at each of three attempts without its title. *)
Lemma extract_car_data_title_absent_witness :
  title_text sample_untitled_page = None /\
  _extract_car_data sample_nd_table 0 3 sample_car1
    (fun _ => Loaded sample_untitled_page) =
    (None, [Extracting sample_car1; DetailGet sample_car1; Sleep 1;
            DetailGet sample_car1; Sleep 2; DetailGet sample_car1]).
Proof.
  split; [reflexivity|].
  pose proof (extract_car_data_title_absent sample_nd_table 0 3 sample_car1
                sample_untitled_page eq_refl) as H.
  destruct (_extract_car_data _ _ _ _ _) as [r t] eqn:E. cbn [fst] in H. subst r.
  vm_compute in E. injection E as <-. reflexivity.
Defined.

(** C7, as written, fails: a record with a price of 2^31 dollars is not
    inserted into an empty table; the call returns false. *)
Lemma save_car_rejects_big_price : ~ upsert_inserts_every_record.
Proof.
  intros H.
  specialize (H sample_empty_db sample_dear_record sample_db_up sample_db_up eq_refl).
  vm_compute in H. destruct H as [H _]. discriminate H.
Qed.

(** Two calls with the sample record on the empty table. *)
Lemma save_car_insert_once_witness :
  has_url (url sample_record1) (cars sample_empty_db) = false /\
  columns_fit sample_record1 = true /\
  (save_car sample_empty_db sample_record1 sample_db_up).2 = Returned true /\
  (save_car (save_car sample_empty_db sample_record1 sample_db_up).1
     sample_record1 sample_db_up).2 = Returned false /\
  rows_with sample_car1
    (cars (save_car (save_car sample_empty_db sample_record1 sample_db_up).1
             sample_record1 sample_db_up).1) = 1%nat.
Proof.
  split; [reflexivity|]. split; [reflexivity|].
  destruct (save_car_insert_once sample_empty_db sample_record1 sample_record1
              sample_db_up sample_db_up eq_refl eq_refl eq_refl
              (or_introl eq_refl) eq_refl) as (H1 & _ & H2 & _ & H3).
  split; [exact H1|]. split; [exact H2|exact H3].
Defined.

(** One permit, two cars: while the first task sleeps between attempts the
    second is not let in. *)
Lemma in_flight_bounded_witness :
  0 <= 1 /\
  exists s,
    run sample_nd_table 0 3 (spawn 1 sample_idle [sample_car1; sample_car2])
      [Start 0 LoadFailed] = Some s /\
    in_flight s + sem_value s = 1 /\ in_flight s <= 1 /\
    in_flight s = 1 /\
    step sample_nd_table 0 3 s (Start 1 LoadFailed) = None.
Proof.
  split; [lia|].
  destruct (run sample_nd_table 0 3 (spawn 1 sample_idle [sample_car1; sample_car2])
              [Start 0 LoadFailed]) as [s|] eqn:E; [|vm_compute in E; discriminate E].
  exists s. split; [reflexivity|].
  destruct (in_flight_bounded sample_nd_table 0 3 1 sample_idle
              [sample_car1; sample_car2] [Start 0 LoadFailed] s ltac:(lia) E)
    as (Hb & _ & Hle & _).
  split; [exact Hb|]. split; [exact Hle|].
  vm_compute in E. injection E as <-. split; reflexivity.
Defined.


(** C2, as written, fails: a listing page names one car twice, the first
    attempt of the first task fails and the task sleeps, the second task
    passes the check meanwhile; both enter the extraction. *)
Lemma dedup_claims_twice : ~ claims_each_url_once sample_nd_table 0 3 5.
Proof.
  intros H.
  destruct (run sample_nd_table 0 3 (spawn 5 sample_idle [sample_car1; sample_car1])
              (schedules sample_world 1)) as [s|] eqn:E;
    [|vm_compute in E; discriminate E].
  specialize (H _ _ s sample_car1 E).
  vm_compute in E. injection E as <-. vm_compute in H. lia.
Qed.

(** The check of a second task on a URL the first task has marked. *)
Lemma dedup_check_follows_mark_witness :
  exists s s',
    run sample_nd_table 0 3 (spawn 5 sample_idle [sample_car1; sample_car1])
      [Start 0 (Loaded sample_full_page)] = Some s /\
    step sample_nd_table 0 3 s (Start 1 LoadFailed) = Some s' /\
    (sample_car1 ∈ processed_urls s) /\
    tasks s' !! 1%nat = Some (sample_car1, Finished (Returned false)) /\
    trace s' = trace s /\ db s' = db s.
Proof.
  destruct (run sample_nd_table 0 3 (spawn 5 sample_idle [sample_car1; sample_car1])
              [Start 0 (Loaded sample_full_page)]) as [s|] eqn:E;
    [|vm_compute in E; discriminate E].
  destruct (step sample_nd_table 0 3 s (Start 1 LoadFailed)) as [s'|] eqn:E';
    [|vm_compute in E; injection E as <-; vm_compute in E'; discriminate E'].
  exists s, s'. split; [reflexivity|]. split; [exact E'|].
  destruct (dedup_check_follows_mark sample_nd_table 0 sample_urljoin 3 5 s)
    as (_ & Hcheck & _).
  destruct (Hcheck 1%nat LoadFailed s' E') as (u & Hu & Hcase).
  assert (Hin : sample_car1 ∈ processed_urls s).
  { assert (Hb : bool_decide (sample_car1 ∈ processed_urls s) = true)
      by (vm_compute in E; injection E as <-; vm_compute; reflexivity).
    now apply bool_decide_eq_true in Hb. }
  assert (u = sample_car1) as ->.
  { vm_compute in E. injection E as <-. vm_compute in Hu.
    injection Hu as <-. reflexivity. }
  split; [exact Hin|].
  destruct Hcase as [(_ & Ht & Htr & Hd & _)|(Hnot & _)]; [auto|contradiction].
Defined.


(** Two pages: the first lists a car and names the second, which lists
    nothing; the schedule runs the one task to its end, the loop goes from
    the first page to the second and ends there. *)
Lemma page_loop_follows_pagination_witness :
  sample_listing1 <> [] /\ 0 < 1 /\
  _extract_car_urls_and_next_page sample_urljoin 1 sample_listing1
    (listing_replies sample_two_pages 1) =
    (([sample_car1], Some sample_listing2), [ListingGet sample_listing1]) /\
  exists s3,
    s3 = run_prefix sample_nd_table 0 1
           (spawn 1 (log sample_idle [ProcessingPage 1 sample_listing1;
                                      ListingGet sample_listing1]) [sample_car1])
           (schedules sample_two_pages 1) /\
    (forall e, step sample_nd_table 0 1 s3 e = None) /\
    process_batch sample_nd_table 0 1 1
      (log sample_idle [ProcessingPage 1 sample_listing1; ListingGet sample_listing1])
      [sample_car1] (schedules sample_two_pages 1) = Some s3 /\
    process_listing_pages sample_nd_table 0 sample_urljoin 1 1 2 sample_two_pages
      1 sample_listing1 sample_idle =
      process_listing_pages sample_nd_table 0 sample_urljoin 1 1 1 sample_two_pages
        2 sample_listing2 (log s3 [Sleep 1]) /\
    pages_of (trace (state_of
      (process_listing_pages sample_nd_table 0 sample_urljoin 1 1 2 sample_two_pages
         1 sample_listing1 sample_idle))) =
      [(1, sample_listing1); (2, sample_listing2)] /\
    pagination sample_urljoin 1 2 sample_two_pages 1 sample_listing1 =
      [(1, sample_listing1); (2, sample_listing2)].
Proof.
  assert (Hne : sample_listing1 <> []) by discriminate.
  assert (Hp : _extract_car_urls_and_next_page sample_urljoin 1 sample_listing1
                 (listing_replies sample_two_pages 1) =
               (([sample_car1], Some sample_listing2), [ListingGet sample_listing1]))
    by reflexivity.
  split; [exact Hne|]. split; [lia|]. split; [exact Hp|].
  eexists. split; [reflexivity|].
  assert (Hmax : forall e,
             step sample_nd_table 0 1
               (run_prefix sample_nd_table 0 1
                  (spawn 1 (log sample_idle [ProcessingPage 1 sample_listing1;
                                             ListingGet sample_listing1])
                     [sample_car1])
                  (schedules sample_two_pages 1)) e = None)
    by (intros e; apply finished_no_step; vm_compute; reflexivity).
  split; [exact Hmax|].
  destruct (page_loop_follows_pagination sample_nd_table 0 sample_urljoin 1 1
              1%nat sample_two_pages 1 sample_listing1 sample_idle
              [sample_car1] (Some sample_listing2) [ListingGet sample_listing1]
              Hne ltac:(lia) Hp) as (_ & _ & Hnext & _).
  destruct (Hnext ltac:(discriminate) Hmax) as (Hb & _ & _ & Hgo).
  split; [exact Hb|].
  split; [apply (Hgo 97%N [47; 63; 49]%N); reflexivity|].
  split; vm_compute; reflexivity.
Defined.

(** ** The further properties on the sample data *)

(** "250 000 $" and "250000" hold the same digits. *)
Lemma price_depends_on_digits_witness :
  digits_of sample_nd_table sample_price_text =
    digits_of sample_nd_table [50; 53; 48; 48; 48; 48]%N /\
  _extract_price sample_nd_table 4300 sample_price_text =
    _extract_price sample_nd_table 4300 [50; 53; 48; 48; 48; 48]%N /\
  0 <= 250000.
Proof.
  destruct (price_depends_on_digits sample_nd_table 4300 sample_price_text
              [50; 53; 48; 48; 48; 48]%N) as (Heq & _ & Hpos & _).
  split; [reflexivity|]. split; [exact (Heq eq_refl)|].
  apply Hpos. reflexivity.
Defined.

(** "250 000 $" reads as 250000. *)
Lemma price_reads_numeral_witness :
  digits_of sample_nd_table sample_price_text = numeral 250000 /\
  within_limit 4300 (numeral 250000) /\
  _extract_price sample_nd_table 4300 sample_price_text = Some 250000 /\
  _extract_phone_number sample_nd_table 4300 sample_price_text = Some 250000.
Proof.
  assert (Hl : within_limit 4300 (numeral 250000))
    by (right; vm_compute; discriminate).
  split; [reflexivity|]. split; [exact Hl|].
  exact (price_reads_numeral sample_nd_table 4300 250000 sample_price_text eq_refl Hl).
Defined.

(** Of the texts " ", "067" and "1" the second gives the number. *)
Lemma phone_from_first_text_witness :
  Forall blank [[32]%N] /\ ~ blank [48; 54; 55]%N /\
  phone_of sample_nd_table 4300 sample_three_phones =
    _extract_phone_number sample_nd_table 4300 (strip [48; 54; 55]%N) /\
  phone_of sample_nd_table 4300 sample_bare_page = None.
Proof.
  assert (Hb : Forall blank [[32]%N]) by (constructor; [reflexivity|constructor]).
  assert (Hn : ~ blank [48; 54; 55]%N) by (unfold blank; vm_compute; discriminate).
  split; [exact Hb|]. split; [exact Hn|].
  destruct (phone_from_first_text sample_nd_table 4300 sample_three_phones)
    as (Hfirst & _).
  split; [exact (Hfirst [[32]%N] [48; 54; 55]%N [[49]%N] eq_refl eq_refl Hb Hn)|].
  destruct (phone_from_first_text sample_nd_table 4300 sample_bare_page)
    as (_ & Hnone & _).
  apply Hnone. left. reflexivity.
Defined.

(** The record of the full page. *)
Lemma extracted_record_well_formed_witness :
  (_extract_car_data sample_nd_table 0 3 sample_car1
     (fun _ => Loaded sample_full_page)).1 = Some sample_record1 /\
  url sample_record1 = sample_car1 /\ 0 <= price_usd sample_record1 /\
  0 <= odometer sample_record1 /\ 0 <= phone_number sample_record1 /\
  0 <= images_count sample_record1 /\
  exists a, 0 <= a < 3 /\
    attempt_page sample_nd_table 0 sample_car1 (Loaded sample_full_page) =
      Some sample_record1.
Proof.
  split; [reflexivity|].
  exact (extracted_record_well_formed sample_nd_table 0 3 sample_car1
           (fun _ => Loaded sample_full_page) sample_record1 eq_refl).
Defined.

(** A page that loads at the second attempt. *)
Lemma detail_extraction_retries_witness :
  attempt_page sample_nd_table 0 sample_car1 (sample_loads_second 0) = None /\
  attempt_page sample_nd_table 0 sample_car1 (sample_loads_second 1) =
    Some sample_record1 /\
  _extract_car_data sample_nd_table 0 3 sample_car1 sample_loads_second =
    (Some sample_record1,
     [Extracting sample_car1; DetailGet sample_car1; Sleep 1; DetailGet sample_car1]).
Proof.
  split; [reflexivity|]. split; [reflexivity|].
  destruct (detail_extraction_retries sample_nd_table 0 3 sample_car1
              sample_loads_second) as (Hok & _).
  apply (Hok 1%nat sample_record1); [lia| |reflexivity].
  intros i Hi. assert (i = 0%nat) as -> by lia. reflexivity.
Defined.

(** The sample record saved into the empty table. *)
Lemma save_car_appends_once_witness :
  NoDup (urls_of (cars sample_empty_db)) /\
  NoDup (urls_of (cars (save_car sample_empty_db sample_record1 sample_db_up).1)) /\
  ((save_car sample_empty_db sample_record1 sample_db_up).2 = Raised ->
   (save_car sample_empty_db sample_record1 sample_db_up).1 = sample_empty_db).
Proof.
  assert (H0 : NoDup (urls_of (cars sample_empty_db))) by constructor.
  destruct (save_car_appends_once sample_empty_db sample_record1 sample_db_up H0)
    as (H1 & _ & H2).
  split; [exact H0|]. split; [exact H1|exact H2].
Defined.

(** A batch whose second record has a phone number of 2^63 leaves the
    table empty. *)
Lemma save_cars_batch_rolls_back_witness :
  [sample_record1; sample_long_phone] !! 1%nat = Some sample_long_phone /\
  columns_fit sample_long_phone = false /\
  cars (save_cars_batch sample_empty_db [sample_record1; sample_long_phone]
          sample_batch_up).1 = cars sample_empty_db /\
  ((save_cars_batch sample_empty_db [sample_record1; sample_long_phone]
      sample_batch_up).2 = Returned 0 \/
   (save_cars_batch sample_empty_db [sample_record1; sample_long_phone]
      sample_batch_up).2 = Raised).
Proof.
  split; [reflexivity|]. split; [reflexivity|].
  exact (save_cars_batch_rolls_back sample_empty_db
           [sample_record1; sample_long_phone] sample_batch_up 1 sample_long_phone
           eq_refl (or_intror eq_refl)).
Defined.

Lemma sample_batch_clean :
  batch_clean [sample_record1; sample_record2; sample_record1] 0 sample_batch_up.
Proof.
  intros k cd H. destruct k as [|[|[|k]]]; cbn in H; inversion H; split; reflexivity.
Qed.

(** A batch of three records, the first and the third of the same URL. *)
Lemma save_cars_batch_commits_witness :
  batch_clean [sample_record1; sample_record2; sample_record1] 0 sample_batch_up /\
  NoDup (urls_of (cars sample_empty_db)) /\
  exists new,
    cars (save_cars_batch sample_empty_db
            [sample_record1; sample_record2; sample_record1] sample_batch_up).1 =
      cars sample_empty_db ++ new /\
    (save_cars_batch sample_empty_db
       [sample_record1; sample_record2; sample_record1] sample_batch_up).2 =
      Returned (Z.of_nat (length new)) /\
    NoDup (urls_of (cars sample_empty_db ++ new)) /\
    length new = 2%nat.
Proof.
  assert (H0 : NoDup (urls_of (cars sample_empty_db))) by constructor.
  split; [exact sample_batch_clean|]. split; [exact H0|].
  destruct (save_cars_batch_commits sample_empty_db
              [sample_record1; sample_record2; sample_record1] sample_batch_up
              sample_batch_clean eq_refl (or_introl eq_refl) H0)
    as (new & Hc & Hr & Hn & _).
  exists new. split; [exact Hc|]. split; [exact Hr|]. split; [exact Hn|].
  vm_compute in Hc. subst new. reflexivity.
Defined.

(** The same batch, and its records saved one by one. *)
Lemma save_cars_batch_as_save_car_witness :
  cars (save_cars_batch sample_empty_db
          [sample_record1; sample_record2; sample_record1] sample_batch_up).1 =
    cars (save_each sample_empty_db
            [sample_record1; sample_record2; sample_record1] 0 sample_batch_up).1 /\
  (save_cars_batch sample_empty_db
     [sample_record1; sample_record2; sample_record1] sample_batch_up).2 =
    Returned (save_each sample_empty_db
                [sample_record1; sample_record2; sample_record1] 0 sample_batch_up).2 /\
  (save_each sample_empty_db
     [sample_record1; sample_record2; sample_record1] 0 sample_batch_up).2 = 2.
Proof.
  destruct (save_cars_batch_as_save_car sample_empty_db
              [sample_record1; sample_record2; sample_record1] sample_batch_up
              sample_batch_clean eq_refl (or_introl eq_refl)) as (H1 & H2).
  split; [exact H1|]. split; [exact H2|reflexivity].
Defined.

(** The same batch saved a second time, its second statement failing. *)
Lemma save_cars_batch_again_witness :
  cars (save_cars_batch
          (save_cars_batch sample_empty_db
             [sample_record1; sample_record2; sample_record1] sample_batch_up).1
          [sample_record1; sample_record2; sample_record1]
          sample_batch_second_fails).1 =
    cars (save_cars_batch sample_empty_db
            [sample_record1; sample_record2; sample_record1] sample_batch_up).1 /\
  (save_cars_batch
     (save_cars_batch sample_empty_db
        [sample_record1; sample_record2; sample_record1] sample_batch_up).1
     [sample_record1; sample_record2; sample_record1]
     sample_batch_second_fails).2 = Returned 0.
Proof.
  exact (save_cars_batch_again sample_empty_db
           [sample_record1; sample_record2; sample_record1] sample_batch_up
           sample_batch_second_fails sample_batch_clean eq_refl (or_introl eq_refl)
           ltac:(constructor)).
Defined.

(** One car listed twice: both tasks extract the record, one row is added
    and one task returns true. *)
Lemma successes_are_rows_witness :
  exists s,
    run sample_nd_table 0 3 (spawn 5 sample_idle [sample_car1; sample_car1])
      (schedules sample_world 1) = Some s /\
    all_finished s = true /\
    length (cars (db s)) =
      (length (cars (db sample_idle)) + success_count (results s))%nat /\
    success_count (results s) = 1%nat.
Proof.
  destruct (run sample_nd_table 0 3 (spawn 5 sample_idle [sample_car1; sample_car1])
              (schedules sample_world 1)) as [s|] eqn:E;
    [|vm_compute in E; discriminate E].
  exists s. split; [reflexivity|].
  destruct (successes_are_rows sample_nd_table 0 3 5 sample_idle
              [sample_car1; sample_car1] _ s E) as (_ & Hdone).
  assert (Hf : all_finished s = true)
    by (vm_compute in E; injection E as <-; reflexivity).
  split; [exact Hf|]. split; [exact (Hdone Hf)|].
  vm_compute in E. injection E as <-. reflexivity.
Defined.

(** With the pool set a statement that fails gives false, not an
    exception. *)
Lemma no_errors_with_pool_witness :
  pool (db sample_idle) = true /\
  exists s,
    run sample_nd_table 0 3 (spawn 5 sample_idle [sample_car1])
      [Start 0 (Loaded sample_full_page); Saved 0 sample_db_down] = Some s /\
    all_finished s = true /\
    pool (db s) = true /\
    error_count (results s) = 0%nat /\
    results s = [Returned false].
Proof.
  split; [reflexivity|].
  destruct (run sample_nd_table 0 3 (spawn 5 sample_idle [sample_car1])
              [Start 0 (Loaded sample_full_page); Saved 0 sample_db_down])
    as [s|] eqn:E; [|vm_compute in E; discriminate E].
  exists s. split; [reflexivity|].
  destruct (no_errors_with_pool sample_nd_table 0 3 5 sample_idle
              [sample_car1] _ s eq_refl E) as (Hp & _ & Hdone).
  assert (Hf : all_finished s = true)
    by (vm_compute in E; injection E as <-; reflexivity).
  split; [exact Hf|]. split; [exact Hp|]. split; [exact (Hdone Hf)|].
  vm_compute in E. injection E as <-. reflexivity.
Defined.

(** A page that fails to load three times is loaded three times. *)
Lemma batch_page_loads_bounded_witness :
  exists s,
    run sample_nd_table 0 3 (spawn 5 sample_idle [sample_car1])
      [Start 0 LoadFailed; Wake 0 LoadFailed; Wake 0 LoadFailed] = Some s /\
    detail_gets (trace s) <=
      detail_gets (trace sample_idle) + Z.max 0 3 * Z.of_nat (length (tasks s)) /\
    detail_gets (trace s) = 3 /\ length (tasks s) = 1%nat.
Proof.
  destruct (run sample_nd_table 0 3 (spawn 5 sample_idle [sample_car1])
              [Start 0 LoadFailed; Wake 0 LoadFailed; Wake 0 LoadFailed])
    as [s|] eqn:E; [|vm_compute in E; discriminate E].
  exists s. split; [reflexivity|].
  destruct (batch_page_loads_bounded sample_nd_table 0 3 5 sample_idle
              [sample_car1] _ s E) as (Hle & _).
  split; [exact Hle|].
  vm_compute in E. injection E as <-. split; reflexivity.
Defined.

(** A batch that has not finished: the row of the first car is in the
    table and the second car is marked, its save still awaited. *)
Lemma crawl_appends_marked_rows_witness :
  NoDup (urls_of (cars (db sample_idle))) /\
  exists s',
    process_listing_pages sample_nd_table 0 sample_urljoin 3 2 2 sample_stalling
      1 sample_listing1 sample_idle = Stuck s' /\
    NoDup (urls_of (cars (db s'))) /\
    urls_of (cars (db s')) = [sample_car1] /\
    exists cd, tasks s' !! 1%nat = Some (sample_car2, Saving cd).
Proof.
  assert (H0 : NoDup (urls_of (cars (db sample_idle)))) by constructor.
  split; [exact H0|].
  pose proof (crawl_appends_marked_rows sample_nd_table 0 sample_urljoin 3 2 2
                sample_stalling 1 sample_listing1 sample_idle H0) as (H1 & _).
  destruct (process_listing_pages sample_nd_table 0 sample_urljoin 3 2 2
              sample_stalling 1 sample_listing1 sample_idle)
    as [s'|s'|s'|s'] eqn:E; try (vm_compute in E; discriminate E).
  exists s'. split; [reflexivity|]. split; [exact H1|].
  vm_compute in E. injection E as <-. split; [reflexivity|].
  eexists. reflexivity.
Defined.

(** The first sample page with a semaphore of no permit. *)
Lemma zero_concurrency_blocks_witness :
  _extract_car_urls_and_next_page sample_urljoin 1 sample_listing1
    (listing_replies sample_two_pages 1) =
    (([sample_car1], Some sample_listing2), [ListingGet sample_listing1]) /\
  (forall evs,
     gather sample_nd_table 0 1
       (spawn 0 (log sample_idle [ProcessingPage 1 sample_listing1;
                                  ListingGet sample_listing1]) [sample_car1])
       evs = None) /\
  process_listing_pages sample_nd_table 0 sample_urljoin 1 0 1 sample_two_pages
    1 sample_listing1 sample_idle =
    Stuck (spawn 0 (log sample_idle [ProcessingPage 1 sample_listing1;
                                     ListingGet sample_listing1]) [sample_car1]).
Proof.
  split; [reflexivity|].
  apply (zero_concurrency_blocks sample_nd_table 0 sample_urljoin 1 0 0
           sample_two_pages 1 sample_listing1 sample_idle [sample_car1]
           (Some sample_listing2) [ListingGet sample_listing1] sample_car1).
  - reflexivity.
  - discriminate.
  - reflexivity.
  - apply list_elem_of_here.
  - apply not_elem_of_empty.
Defined.

(** A listing page that names itself as the next page. *)
Lemma pagination_cycle_never_ends_witness :
  (forall n, exists car_urls t,
     car_urls <> [] /\
     _extract_car_urls_and_next_page sample_urljoin 1 sample_listing1
       (listing_replies sample_looping n) =
       ((car_urls, Some sample_listing1), t)) /\
  (forall s',
     process_listing_pages sample_nd_table 0 sample_urljoin 1 1 3 sample_looping
       1 sample_listing1 sample_idle <> Done s') /\
  pages_of (trace (state_of
    (process_listing_pages sample_nd_table 0 sample_urljoin 1 1 3 sample_looping
       1 sample_listing1 sample_idle))) =
    [(1, sample_listing1); (2, sample_listing1); (3, sample_listing1)].
Proof.
  assert (Hl : forall n, exists car_urls t,
             car_urls <> [] /\
             _extract_car_urls_and_next_page sample_urljoin 1 sample_listing1
               (listing_replies sample_looping n) =
               ((car_urls, Some sample_listing1), t)).
  { intros n. exists [sample_car1], [ListingGet sample_listing1].
    split; [discriminate|reflexivity]. }
  split; [exact Hl|].
  destruct (pagination_cycle_never_ends sample_nd_table 0 sample_urljoin 1 1 3
              sample_looping 1 sample_listing1 sample_idle
              ltac:(discriminate) ltac:(lia) Hl) as (Hnot & Hpages).
  split; [exact Hnot|].
  destruct (process_listing_pages sample_nd_table 0 sample_urljoin 1 1 3
              sample_looping 1 sample_listing1 sample_idle) as [s'|s'|s'|s'] eqn:E;
    try (vm_compute in E; discriminate E).
  exact (Hpages s' eq_refl).
Defined.

(** A run over the two sample pages. *)
Lemma run_scraper_cleans_up_twice_witness :
  exists a',
    run_scraper sample_nd_table 0 sample_urljoin 1 1 sample_listing1 3
      sample_two_pages sample_startup_ok sample_app = AppReturned a' /\
    app_handles a' = {| session := Some false; selenium_driver := true |} /\
    app_events a' =
      app_events sample_app ++
      [SessionOpened; DriverStarted; SessionClosed; DriverQuit; DriverQuit].
Proof.
  destruct (run_scraper sample_nd_table 0 sample_urljoin 1 1 sample_listing1 3
              sample_two_pages sample_startup_ok sample_app) as [a'|a'|a'] eqn:E;
    try (vm_compute in E; discriminate E).
  exists a'. split; [reflexivity|].
  exact (run_scraper_cleans_up_twice sample_nd_table 0 sample_urljoin 1 1
           sample_listing1 3 sample_two_pages sample_startup_ok sample_app a' E).
Defined.

(** The browser does not start; the pool cannot be made. *)
Lemma run_scraper_failed_startup_leaks_witness :
  (exists a',
     run_scraper sample_nd_table 0 sample_urljoin 1 1 sample_listing1 3
       sample_two_pages sample_no_browser sample_app = AppRaised a' /\
     session (app_handles a') = Some true /\
     app_events a' = [SessionOpened]) /\
  (exists a',
     run_scraper sample_nd_table 0 sample_urljoin 1 1 sample_listing1 3
       sample_two_pages sample_no_pool sample_app = AppRaised a' /\
     session (app_handles a') = Some true /\
     selenium_driver (app_handles a') = true /\
     app_events a' = [SessionOpened; DriverStarted]).
Proof.
  split.
  - destruct (run_scraper_failed_startup_leaks sample_nd_table 0 sample_urljoin 1 1
                sample_listing1 3 sample_two_pages sample_no_browser sample_app
                (or_introl eq_refl)) as (a' & Hr & _ & Hs & _ & He).
    exists a'. split; [exact Hr|]. split; [exact Hs|exact He].
  - destruct (run_scraper_failed_startup_leaks sample_nd_table 0 sample_urljoin 1 1
                sample_listing1 3 sample_two_pages sample_no_pool sample_app
                (or_intror (conj eq_refl eq_refl))) as (a' & Hr & _ & Hs & Hd & He).
    exists a'. split; [exact Hr|]. split; [exact Hs|]. split; [exact Hd|exact He].
Defined.

(** A second run, on a page that lists the marked car and two others,
    seen while its batch has not finished: the page of the marked car is
    not loaded, the page of the second car is, and its row is in the
    table. *)
Lemma run_scraper_skips_marked_witness :
  (sample_car1 ∈ processed_urls (app_scraper sample_app_marked)) /\
  exists a',
    run_scraper sample_nd_table 0 sample_urljoin 3 2 sample_listing1 3
      sample_stalling sample_startup_ok sample_app_marked = AppWaiting a' /\
    page_loads sample_car1 (trace (app_scraper a')) =
      page_loads sample_car1 (trace (app_scraper sample_app_marked)) /\
    claims sample_car1 (trace (app_scraper a')) =
      claims sample_car1 (trace (app_scraper sample_app_marked)) /\
    page_loads sample_car2 (trace (app_scraper a')) = 1%nat /\
    urls_of (cars (db (app_scraper a'))) = [sample_car2].
Proof.
  assert (Hin : sample_car1 ∈ processed_urls (app_scraper sample_app_marked)).
  { assert (Hb : bool_decide
                   (sample_car1 ∈ processed_urls (app_scraper sample_app_marked)) = true)
      by (vm_compute; reflexivity).
    now apply bool_decide_eq_true in Hb. }
  split; [exact Hin|].
  pose proof (run_scraper_skips_marked sample_nd_table 0 sample_urljoin 3 2
                sample_listing1 3 sample_stalling sample_startup_ok
                sample_app_marked sample_car1 Hin) as (_ & Hc & Hl).
  destruct (run_scraper sample_nd_table 0 sample_urljoin 3 2 sample_listing1 3
              sample_stalling sample_startup_ok sample_app_marked)
    as [a'|a'|a'] eqn:E; try (vm_compute in E; discriminate E).
  exists a'. split; [reflexivity|]. split; [exact Hl|]. split; [exact Hc|].
  vm_compute in E. injection E as <-. split; reflexivity.
Defined.
